(** * earlyoom (yellowcrescent fork): control loop, victim selector, kill escalator

    A shallow embedding of [kill.c] and of the polling loop of [main.c].

    - C [int] / [unsigned] / [long long] values are [Z]; every arithmetic
      result is brought back into the type with [to_int], [to_uint] or
      [to_llong] (two's-complement wrap-around, as the target computes it).
    - C [double] values are Rocq's primitive binary64 floats, so [<=] and [>]
      are the IEEE comparisons the compiled program performs.
    - Everything the daemon reads from the outside ([/proc/meminfo], the
      [/proc] directory stream, the per-PID files, the result of [kill(2)],
      [is_alive]) is an explicit input, listed in the order it is consumed.
    - Everything the daemon does to the outside ([kill], [usleep], [sleep],
      the status file, the notification helper) is an [event] of a trace.
    - Log output ([warn], [debug], [printf]) is not modelled, and neither are
      the two ways the modelled code can leave the program ([fatal] when
      [/proc] cannot be opened, a NULL [emerg_kill] handed to
      [kill_emergency]). *)

From Stdlib Require Import ZArith List String Ascii Bool Lia QArith Floats.
From Stdlib Require Import Setoid Morphisms.
Import ListNotations.
Local Open Scope Z_scope.

(** ** Machine integers *)

Definition wrap_signed (bits x : Z) : Z :=
  (x + 2 ^ (bits - 1)) mod 2 ^ bits - 2 ^ (bits - 1).

Definition to_int (x : Z) : Z := wrap_signed 32 x.
Definition to_uint (x : Z) : Z := x mod 2 ^ 32.
Definition to_llong (x : Z) : Z := wrap_signed 64 x.

Definition INT_MIN : Z := - 2 ^ 31.
Definition INT_MAX : Z := 2 ^ 31 - 1.
Definition LONG_MAX : Z := 2 ^ 63 - 1.
Definition LLONG_MIN : Z := - 2 ^ 63.
Definition LLONG_MAX : Z := 2 ^ 63 - 1.

Definition in_int (x : Z) : Prop := INT_MIN <= x <= INT_MAX.
Definition in_llong (x : Z) : Prop := LLONG_MIN <= x <= LLONG_MAX.

(** ** Doubles *)

(** [(double)x] for a [long long] x: round to nearest, ties to even. *)
Definition double_of_llong (z : Z) : float :=
  if z =? LLONG_MIN then (-9223372036854775808)%float
  else if z <? 0 then PrimFloat.opp (PrimFloat.of_uint63 (Uint63.of_Z (- z)))
  else PrimFloat.of_uint63 (Uint63.of_Z z).

(** [(long long)f]: truncation toward zero.  For a NaN, an infinity or a value
    outside the range of [long long] the C standard leaves the conversion
    undefined; the model returns what the x86-64 conversion instruction
    returns, [LLONG_MIN]. *)
Definition llong_of_double (f : float) : Z :=
  match Prim2SF f with
  | S754_zero _ => 0
  | S754_finite s m e =>
      let a := if 0 <=? e then Z.shiftl (Z.pos m) e else Z.shiftr (Z.pos m) (- e) in
      let v := if s then - a else a in
      if (LLONG_MIN <=? v) && (v <=? LLONG_MAX) then v else LLONG_MIN
  | _ => LLONG_MIN
  end.

(** C's [a <= b] and [a > b] on doubles. *)
Definition dle (a b : float) : bool := PrimFloat.leb a b.
Definition dgt (a b : float) : bool := PrimFloat.ltb b a.

(** ** Signals, errno values, events *)

Definition SIGKILL : Z := 9.
Definition SIGTERM : Z := 15.
Definition EPERM : Z := 1.
Definition ESRCH : Z := 3.
Definition ETIME : Z := 62.

Inductive notification : Type :=
| NotifyNoVictim
| NotifyKilling (pid : Z) (name : string)
| NotifyKillFailed.

Inductive event : Type :=
| EvKill (pid sig : Z)
| EvUsleep (usec : Z)
| EvSleep (sec : Z)
| EvNotify (n : notification)
| EvStatus (code : string) (memavail setpoint : float).

(** A signal that is really delivered: [kill] with a signal number other
    than 0. *)
Definition delivers_signal (e : event) : bool :=
  match e with EvKill _ sig => negb (sig =? 0) | _ => false end.

(** ** meminfo.h *)

Definition PATH_LEN : Z := 256.
Definition MAX_USERLEN : nat := 33.

Record meminfo_t : Type := {
  MemTotalKiB : Z;
  MemTotalMiB : Z;
  MemAvailableMiB : Z;
  SwapTotalMiB : Z;
  SwapTotalKiB : Z;
  SwapFreeMiB : Z;
  MemAvailablePercent : float;
  SwapFreePercent : float
}.

Record procinfo : Type := {
  pid : Z;
  uid : Z;
  badness : Z;
  VmRSSkiB : Z;
  utime : Z;
  stime : Z;
  rtime : Z;
  name : string;
  username : string
}.

(** [proctime_t]; the tick counters are not used by the code modelled here. *)
Record proctime_t : Type := {
  c_utime : Z;
  c_stime : Z;
  c_cutime : Z;
  c_cstime : Z;
  c_runtime : Z;
  valid : bool
}.

(** ** kill.h *)


(** A compiled [regex_t], seen through [regexec(re, s, 0, NULL, 0) == 0]. *)
Definition regex_t : Type := string -> bool.

Record poll_loop_args_t : Type := {
  mem_high_percent : float;
  mem_term_percent : float;
  mem_kill_percent : float;
  mem_emerg_percent : float;
  swap_term_percent : float;
  swap_kill_percent : float;
  ignore_oom_score_adj : bool;
  notify : bool;
  prefer_regex : option regex_t;
  avoid_regex : option regex_t;
  avoid_users : option regex_t;
  prefer_old : option regex_t;
  report_interval_ms : Z;
  dryrun : bool;
  nice : bool;
  emerg_kill : option string
}.

(** ** kill.c: constants and string helpers *)

Definition BADNESS_PREFER : Z := 300.
Definition BADNESS_AVOID : Z := -300.
Definition BADNESS_AVOID_USER : Z := -150.
Definition BADNESS_AGE_DIV : Z := 600.

Definition SIGTERM_WAIT : Q := 6 # 1.
Definition PROC_LEN_MAX : nat := 32.

Definition isdigit (c : ascii) : bool :=
  let n := Z.of_nat (nat_of_ascii c) in (48 <=? n) && (n <=? 57).

Fixpoint all_digits (str : string) : bool :=
  match str with
  | EmptyString => true
  | String c rest => isdigit c && all_digits rest
  end.

(** [isnumeric]: the empty string is not numeric. *)
Definition isnumeric (str : string) : bool :=
  match str with
  | EmptyString => false
  | String _ _ => all_digits str
  end.

Fixpoint digits_value (str : string) (acc : Z) : Z :=
  match str with
  | EmptyString => acc
  | String c rest => digits_value rest (acc * 10 + (Z.of_nat (nat_of_ascii c) - 48))
  end.

(** [strtol(str, NULL, 10)] on a string of digits: the value, saturated at
    [LONG_MAX]. *)
Definition strtol (str : string) : Z := Z.min (digits_value str 0) LONG_MAX.

(** [strncpy(dst, src, n)] read back as a C string: [src] when it is shorter
    than [n]; otherwise [strncpy] writes no NUL and the model keeps the first
    [n] bytes. *)
Definition strncpy (src : string) (n : nat) : string := substring 0 n src.

(** [args->re && regexec(args->re, s, 0, NULL, 0) == 0]. *)
Definition regex_matches (re : option regex_t) (s : string) : bool :=
  match re with
  | Some r => r s
  | None => false
  end.

Definition is_set {A : Type} (p : option A) : bool :=
  match p with Some _ => true | None => false end.

(** ** kill.c: [kill_wait] *)

(** What one call of [kill_wait] observes: the outcome of the first [kill]
    and of the escalating [kill] ([None]: returned 0; [Some e]: returned -1
    with [errno = e]), the result of [parse_meminfo] at each tick and the
    result of [is_alive] at each tick. *)
Record kw_world : Type := {
  kw_kill0 : option Z;
  kw_kill1 : option Z;
  kw_meminfo : nat -> meminfo_t;
  kw_alive : nat -> bool
}.

(** The [int] returned by [kill_wait] together with the [errno] it leaves:
    [KW_OK] is 0, [KW_FAIL e] is a non-zero return with [errno = e]. *)
Inductive kw_result : Type :=
| KW_OK
| KW_FAIL (errno : Z).

Definition poll_ms : Z := 100.

(** [secs = (float)(i * poll_ms) / 1000].  [i * poll_ms <= 9900] is exact in
    binary32 and the division is correctly rounded, so comparing the rounded
    quotient with 6.0 (itself exact) gives the same answer as comparing the
    rational quotient, which is what the model keeps. *)
Definition secs (i : nat) : Q := (to_uint (Z.of_nat i * poll_ms) # 1) / (1000 # 1).

(** The escalation test of line 100. *)
Definition escalate_now (args : poll_loop_args_t) (m : meminfo_t) (i : nat) : bool :=
  Qle_bool SIGTERM_WAIT (secs i)
  || (dle (MemAvailablePercent m) (mem_kill_percent args)
      && dle (SwapFreePercent m) (swap_kill_percent args)).

(** The [for] loop of [kill_wait]: [n] iterations remain, the counter is [i]. *)
Fixpoint kill_wait_loop (args : poll_loop_args_t) (w : kw_world) (pid : Z)
  (n : nat) (i : nat) (sig : Z) : kw_result * list event :=
  match n with
  | O => (KW_FAIL ETIME, [])
  | S n' =>
      let tick (sig : Z) (sent : list event) :=
        if negb (kw_alive w i) then (KW_OK, sent)
        else
          let '(r, tr) := kill_wait_loop args w pid n' (S i) sig in
          (r, sent ++ EvUsleep (to_uint (poll_ms * 1000)) :: tr) in
      if negb (sig =? SIGKILL) then
        let m := kw_meminfo w i in
        if escalate_now args m i then
          match kw_kill1 w with
          | Some e => (KW_FAIL e, [EvKill pid SIGKILL])
          | None => tick SIGKILL [EvKill pid SIGKILL]
          end
        else tick sig []
      else tick sig []
  end.

Definition kill_wait (args : poll_loop_args_t) (w : kw_world) (pid : Z) (sig : Z)
  : kw_result * list event :=
  if dryrun args && negb (sig =? 0) then (KW_OK, [])
  else
    match kw_kill0 w with
    | Some e => (KW_FAIL e, [EvKill pid sig])
    | None =>
        if sig =? 0 then (KW_OK, [EvKill pid sig])
        else
          let '(r, tr) := kill_wait_loop args w pid 100 0 sig in
          (r, EvKill pid sig :: tr)
    end.

(** ** kill.c: [kill_largest_process] *)

(** One entry returned by [readdir] on [/proc], with the result of every
    per-PID read the scan may perform on it, in source order.  A read that is
    not reached is simply not looked at.  Results keep the C convention: a
    negative [int] is an error ([-errno]). *)
Record dirent : Type := {
  d_name : string;
  oom_score : Z;                 (* get_oom_score, line 176 *)
  oom_score_adj : Z * Z;         (* get_oom_score_adj, line 185: (res, *out) *)
  process_times : proctime_t;    (* get_process_times, line 197 *)
  comm : Z * string;             (* get_comm, line 207: (res, out) *)
  stat_uid : option Z;           (* stat("/proc/PID"), line 227: st_uid *)
  pw_name : option string;       (* getpwuid(st_uid), line 228 *)
  vm_rss_kib : Z;                (* get_vm_rss_kib, line 253 *)
  oom_score_adj_late : Z * Z;    (* get_oom_score_adj, line 277 *)
  comm_late : Z * string;        (* get_comm, line 291 *)
  proc_uid : Z                   (* get_uid, line 298 *)
}.

Definition set_badness (cur : procinfo) (b : Z) : procinfo :=
  {| pid := pid cur; uid := uid cur; badness := b; VmRSSkiB := VmRSSkiB cur;
     utime := utime cur; stime := stime cur; rtime := rtime cur;
     name := name cur; username := username cur |}.

Definition set_times (cur : procinfo) (u s r : Z) : procinfo :=
  {| pid := pid cur; uid := uid cur; badness := badness cur; VmRSSkiB := VmRSSkiB cur;
     utime := u; stime := s; rtime := r;
     name := name cur; username := username cur |}.

Definition set_name (cur : procinfo) (n : string) : procinfo :=
  {| pid := pid cur; uid := uid cur; badness := badness cur; VmRSSkiB := VmRSSkiB cur;
     utime := utime cur; stime := stime cur; rtime := rtime cur;
     name := n; username := username cur |}.

Definition set_username (cur : procinfo) (n : string) : procinfo :=
  {| pid := pid cur; uid := uid cur; badness := badness cur; VmRSSkiB := VmRSSkiB cur;
     utime := utime cur; stime := stime cur; rtime := rtime cur;
     name := name cur; username := n |}.

Definition set_VmRSSkiB (cur : procinfo) (v : Z) : procinfo :=
  {| pid := pid cur; uid := uid cur; badness := badness cur; VmRSSkiB := v;
     utime := utime cur; stime := stime cur; rtime := rtime cur;
     name := name cur; username := username cur |}.

Definition set_uid (cur : procinfo) (v : Z) : procinfo :=
  {| pid := pid cur; uid := v; badness := badness cur; VmRSSkiB := VmRSSkiB cur;
     utime := utime cur; stime := stime cur; rtime := rtime cur;
     name := name cur; username := username cur |}.

Definition set_pid (cur : procinfo) (v : Z) : procinfo :=
  {| pid := v; uid := uid cur; badness := badness cur; VmRSSkiB := VmRSSkiB cur;
     utime := utime cur; stime := stime cur; rtime := rtime cur;
     name := name cur; username := username cur |}.

(** [struct procinfo victim = { 0 }]. *)
Definition victim_zero : procinfo :=
  {| pid := 0; uid := 0; badness := 0; VmRSSkiB := 0; utime := 0; stime := 0;
     rtime := 0; name := ""; username := "" |}.

(** The designated initialiser of [cur], lines 159-167. *)
Definition cur_init (d : dirent) : procinfo :=
  {| pid := to_int (strtol (d_name d)); uid := -1; badness := -1; VmRSSkiB := -1;
     utime := 0; stime := 0; rtime := 0; name := ""; username := "" |}.

(** Lines 176-193: [oom_score], less a positive [oom_score_adj] under [-i].
    [None] is a [continue]. *)
Definition read_oom_score (args : poll_loop_args_t) (d : dirent) (cur : procinfo)
  : option procinfo :=
  let res := oom_score d in
  if res <? 0 then None
  else
    let cur := set_badness cur res in
    if ignore_oom_score_adj args then
      let '(res, adj) := oom_score_adj d in
      if res <? 0 then None
      else if adj >? 0 then Some (set_badness cur (to_int (badness cur - adj)))
      else Some cur
    else Some cur.

(** Lines 196-204. *)
Definition read_times (args : poll_loop_args_t) (d : dirent) (cur : procinfo) : procinfo :=
  if is_set (prefer_old args) && valid (process_times d) then
    set_times cur (c_utime (process_times d)) (c_stime (process_times d))
      (c_runtime (process_times d))
  else cur.

(** Lines 206-223: the name and the three name-based adjustments. *)
Definition apply_name_rules (args : poll_loop_args_t) (d : dirent) (cur : procinfo)
  : option procinfo :=
  if is_set (prefer_regex args) || is_set (avoid_regex args) || is_set (prefer_old args) then
    let '(res, out) := comm d in
    if res <? 0 then None
    else
      let cur := set_name cur out in
      let cur := if regex_matches (prefer_regex args) (name cur)
                 then set_badness cur (to_int (badness cur + BADNESS_PREFER)) else cur in
      let cur := if regex_matches (avoid_regex args) (name cur)
                 then set_badness cur (to_int (badness cur + BADNESS_AVOID)) else cur in
      let cur := if regex_matches (prefer_old args) (name cur) && valid (process_times d)
                 then set_badness cur
                        (to_int (badness cur
                                 + to_int (Z.quot (c_runtime (process_times d)) BADNESS_AGE_DIV)))
                 else cur in
      Some cur
  else Some cur.

(** Lines 225-241: the owner's name and the user-based adjustment. *)
Definition apply_user_rule (args : poll_loop_args_t) (d : dirent) (cur : procinfo)
  : option procinfo :=
  match avoid_users args with
  | None => Some cur
  | Some re =>
      match stat_uid d with
      | None => None
      | Some _ =>
          match pw_name d with
          | None => None
          | Some user =>
              let cur := set_username cur (strncpy user MAX_USERLEN) in
              if re (username cur)
              then Some (set_badness cur (to_int (badness cur + BADNESS_AVOID_USER)))
              else Some cur
          end
      end
  end.

(** Lines 156-241: [cur] as it stands at line 243, or [None] when the entry is
    left by one of the [continue] statements above that line. *)
Definition examine (args : poll_loop_args_t) (d : dirent) : option procinfo :=
  if negb (isnumeric (d_name d)) then None
  else
    let cur := cur_init d in
    if pid cur <=? 1 then None
    else
      match read_oom_score args d cur with
      | None => None
      | Some cur =>
          match apply_name_rules args d (read_times args d cur) with
          | None => None
          | Some cur => apply_user_rule args d cur
          end
      end.

Record scan_state : Type := {
  victim : procinfo;
  candidates : Z
}.

Definition scan_init : scan_state := {| victim := victim_zero; candidates := 0 |}.

(** Lines 246-307 for a [cur] that reached line 243: the comparison with the
    running [victim] and the reads that are only made for a candidate that
    is not already beaten on badness.  The result is the new [victim]. *)
Definition consider (d : dirent) (victim : procinfo) (cur : procinfo) : procinfo :=
  if badness cur <? badness victim then victim
  else
    let res := vm_rss_kib d in
    if res <? 0 then victim
    else
      let cur := set_VmRSSkiB cur res in
      if VmRSSkiB cur =? 0 then victim
      else if (badness cur =? badness victim) && (VmRSSkiB cur <=? VmRSSkiB victim) then victim
      else
        let '(res, adj) := oom_score_adj_late d in
        if res <? 0 then victim
        else if adj =? -1000 then victim
        else
          let named :=
            if (String.length (name cur) =? 0)%nat then
              let '(res, out) := comm_late d in
              if res <? 0 then None else Some (set_name cur out)
            else Some cur in
          match named with
          | None => victim
          | Some cur =>
              let res := proc_uid d in
              if res <? 0 then victim else set_uid cur res
          end.

(** One turn of the [while (1)] loop, lines 145-310. *)
Definition scan_step (args : poll_loop_args_t) (st : scan_state) (d : dirent) : scan_state :=
  match examine args d with
  | None => st
  | Some cur =>
      {| victim := consider d (victim st) cur;
         candidates := to_int (candidates st + 1) |}
  end.

(** The whole directory scan: the entries in the order [readdir] yields them. *)
Definition scan (args : poll_loop_args_t) (entries : list dirent) : scan_state :=
  fold_left (scan_step args) entries scan_init.

(** What one call of [kill_largest_process] observes. *)
Record klp_world : Type := {
  klp_entries : list dirent;
  klp_getpid : Z;
  klp_kill_wait : kw_world
}.

Definition notify_events (args : poll_loop_args_t) (n : notification) : list event :=
  if notify args then [EvNotify n] else [].

(** Lines 313-379. *)
Definition kill_largest_process (args : poll_loop_args_t) (w : klp_world) (sig : Z)
  : list event :=
  let st := scan args (klp_entries w) in
  let victim :=
    if (candidates st <=? 1) && (pid (victim st) =? klp_getpid w)
    then set_pid (victim st) 0 else victim st in
  if pid victim <=? 0 then
    notify_events args NotifyNoVictim ++ [EvSleep 1]
  else
    let '(res, sent) := kill_wait args (klp_kill_wait w) (pid victim) sig in
    sent
    ++ (if negb (sig =? 0)
        then notify_events args (NotifyKilling (pid victim) (name victim)) else [])
    ++ (if sig =? 0 then []
        else
          match res with
          | KW_OK => []
          | KW_FAIL saved_errno =>
              notify_events args NotifyKillFailed
              ++ (if saved_errno =? EPERM then [EvSleep 1] else [])
          end).

(** ** kill.c: [kill_emergency] *)

(** [strtok(str, ",")] called until it returns NULL: the maximal runs of bytes
    other than the delimiter, in order.  [tok] is the run being read. *)
Fixpoint strtok_all (delim : ascii) (str : string) (tok : string) : list string :=
  match str with
  | EmptyString => if (String.length tok =? 0)%nat then [] else [tok]
  | String c rest =>
      if Ascii.eqb c delim then
        if (String.length tok =? 0)%nat then strtok_all delim rest ""
        else tok :: strtok_all delim rest ""
      else strtok_all delim rest (tok ++ String c "")
  end.

(** The C string that starts at [victim_list[i]], the tokens from the i-th on
    being [toks].  [strncpy(victim_list[i], ttok, PROC_LEN_MAX)] writes no NUL
    for a token of [PROC_LEN_MAX] bytes or more, so the string then runs on
    into the next row of the (zero-initialised, contiguous) array. *)
Fixpoint row_string (toks : list string) : string :=
  match toks with
  | [] => ""
  | t :: rest =>
      if (String.length t <? PROC_LEN_MAX)%nat then t
      else (substring 0 PROC_LEN_MAX t ++ row_string rest)%string
  end.

(** [victim_list[0 .. num_victim-1]] read as C strings.  The source does not
    bound [num_victim]: more than [EMERG_LIST_MAX] tokens write past the
    array, which this model does not describe. *)
Fixpoint victim_list (toks : list string) : list string :=
  match toks with
  | [] => []
  | _ :: rest => row_string toks :: victim_list rest
  end.

(** What one call of [kill_emergency] observes: for the i-th name, the result
    of [parse_meminfo] and the [/proc] entries of that scan. *)
Record emerg_world : Type := {
  em_meminfo : nat -> meminfo_t;
  em_entries : nat -> list dirent
}.

(** The inner [while (1)] loop, lines 417-456. *)
Fixpoint emergency_scan (victim_name : string) (entries : list dirent) (kills : Z)
  : Z * list event :=
  match entries with
  | [] => (kills, [])
  | d :: rest =>
      if negb (isnumeric (d_name d)) then emergency_scan victim_name rest kills
      else
        let cur := cur_init d in
        if pid cur <=? 1 then emergency_scan victim_name rest kills
        else
          let '(res, out) := comm d in
          if res <? 0 then emergency_scan victim_name rest kills
          else
            let cur := set_name cur out in
            if String.eqb (name cur) victim_name then
              let '(k, tr) := emergency_scan victim_name rest (to_int (kills + 1)) in
              (k, EvKill (pid cur) SIGKILL :: tr)
            else emergency_scan victim_name rest kills
  end.

(** The [for] loop over the names, lines 403-458; [i] is the loop counter. *)
Fixpoint emergency_loop (args : poll_loop_args_t) (w : emerg_world)
  (names : list string) (i : nat) (kills : Z) : Z * list event :=
  match names with
  | [] => (kills, [])
  | victim_name :: rest =>
      let m := em_meminfo w i in
      if dgt (MemAvailablePercent m) (mem_high_percent args) then (kills, [])
      else
        let '(k1, tr1) := emergency_scan victim_name (em_entries w i) kills in
        let '(k2, tr2) := emergency_loop args w rest (S i) k1 in
        (k2, tr1 ++ tr2)
  end.

(** [kill_emergency].  It is only called with [args->emerg_kill] non-NULL;
    the string is taken to be shorter than [EMERG_KILL_MAXLEN], so that the
    copy made for [strtok] is the whole of it. *)
Definition kill_emergency (args : poll_loop_args_t) (w : emerg_world) : Z * list event :=
  match emerg_kill args with
  | None => (0, [])
  | Some str => emergency_loop args w (victim_list (strtok_all "," str "")) 0 0
  end.

(** ** main.c: [sleep_time_ms] *)

Definition EMERGENCY_TIMEOUT : Z := 30000.

Definition mem_fill_rate : Z := 6000.
Definition swap_fill_rate : Z := 800.
Definition min_sleep : Z := 100.
Definition max_sleep : Z := 1000.

(** Line 395, before the floor at 0. *)
Definition mem_headroom_kib (args : poll_loop_args_t) (m : meminfo_t) : Z :=
  llong_of_double
    (PrimFloat.mul
       (PrimFloat.mul (PrimFloat.sub (MemAvailablePercent m) (mem_term_percent args)) 10%float)
       (double_of_llong (MemTotalMiB m))).

(** Line 399, before the floor at 0. *)
Definition swap_headroom_kib (args : poll_loop_args_t) (m : meminfo_t) : Z :=
  llong_of_double
    (PrimFloat.mul
       (PrimFloat.mul (PrimFloat.sub (SwapFreePercent m) (swap_term_percent args)) 10%float)
       (double_of_llong (SwapTotalMiB m))).

Definition sleep_time_ms (args : poll_loop_args_t) (m : meminfo_t) : Z :=
  let mem_headroom_kib := mem_headroom_kib args m in
  let mem_headroom_kib := if mem_headroom_kib <? 0 then 0 else mem_headroom_kib in
  let swap_headroom_kib := swap_headroom_kib args m in
  let swap_headroom_kib := if swap_headroom_kib <? 0 then 0 else swap_headroom_kib in
  let ms := to_llong (Z.quot mem_headroom_kib mem_fill_rate
                      + Z.quot swap_headroom_kib swap_fill_rate) in
  if ms <? min_sleep then min_sleep
  else if ms >? max_sleep then max_sleep
  else to_uint ms.

(** ** main.c: [update_status] *)

Definition status_code (sig : Z) (emergency high : bool) : string :=
  if high then "high"
  else if emergency then "emergency"
  else if sig =? SIGTERM then "term"
  else if sig =? SIGKILL then "kill"
  else "ok".

(** [update_status]; [opened] says whether [fopen(STATUS_FILENAME, "w")]
    succeeded.  When it fails nothing is written, only a warning printed. *)
Definition update_status (opened : bool) (sig : Z) (emergency high : bool)
  (memavail setpoint : float) : list event :=
  if opened then [EvStatus (status_code sig emergency high) memavail setpoint] else [].

(** ** main.c: [poll_loop] *)

(** The locals of [poll_loop] that live across iterations. *)
Record loop_state : Type := {
  sleep_ms : Z;
  report_countdown_ms : Z;
  hystis : Z;
  emergency_invoked : bool;
  emergency_timeout_ms : Z;
  current_setpoint : float
}.

(** The locals on entry to the loop.  [sleep_ms] is declared without an
    initialiser: [indeterminate] stands for whatever its storage holds. *)
Definition loop_init (indeterminate : Z) : loop_state :=
  {| sleep_ms := indeterminate;
     report_countdown_ms := 0;
     hystis := 0;
     emergency_invoked := false;
     emergency_timeout_ms := 0;
     current_setpoint := 0%float |}.

(** The outcome of lines 459-494: [sig], [high] and the three locals the
    threshold cascade may assign. *)
Record decision : Type := {
  d_sig : Z;
  d_high : bool;
  d_emergency_invoked : bool;
  d_hystis : Z;
  d_setpoint : float
}.

Definition at_or_below (m : meminfo_t) (mem swap : float) : bool :=
  dle (MemAvailablePercent m) mem && dle (SwapFreePercent m) swap.

(** Lines 459-494. *)
Definition decide (args : poll_loop_args_t) (st : loop_state) (m : meminfo_t) : decision :=
  if is_set (emerg_kill args) && (emergency_timeout_ms st <=? 0)
     && at_or_below m (mem_emerg_percent args) (swap_kill_percent args)
  then {| d_sig := SIGKILL; d_high := false; d_emergency_invoked := true;
          d_hystis := hystis st; d_setpoint := mem_emerg_percent args |}
  else if at_or_below m (mem_kill_percent args) (swap_kill_percent args)
  then {| d_sig := SIGKILL; d_high := false; d_emergency_invoked := emergency_invoked st;
          d_hystis := hystis st; d_setpoint := mem_kill_percent args |}
  else if at_or_below m (mem_term_percent args) (swap_term_percent args)
  then {| d_sig := SIGTERM; d_high := false; d_emergency_invoked := emergency_invoked st;
          d_hystis := hystis st; d_setpoint := mem_term_percent args |}
  else if hystis st >? 0 then
    if dle (MemAvailablePercent m) (mem_high_percent args)
    then {| d_sig := hystis st; d_high := true; d_emergency_invoked := emergency_invoked st;
            d_hystis := hystis st; d_setpoint := mem_high_percent args |}
    else {| d_sig := 0; d_high := false; d_emergency_invoked := emergency_invoked st;
            d_hystis := 0; d_setpoint := 0%float |}
  else {| d_sig := 0; d_high := false; d_emergency_invoked := emergency_invoked st;
          d_hystis := hystis st; d_setpoint := current_setpoint st |}.

(** What one iteration of the loop observes. *)
Record iter_world : Type := {
  w_meminfo : meminfo_t;
  w_status_open : bool;          (* fopen of the status file succeeded *)
  w_largest : klp_world;
  w_emergency : emerg_world
}.

(** What one iteration does: the signal it chose, whether it ran
    [kill_emergency], the events up to the final [usleep], and the argument
    of that [usleep] in microseconds. *)
Record iter_result : Type := {
  it_sig : Z;
  it_high : bool;
  it_emergency : bool;
  it_events : list event;
  it_usleep : Z
}.

(** One turn of [while (1)], lines 458-521. *)
Definition poll_loop_iter (args : poll_loop_args_t) (w : iter_world) (st : loop_state)
  : loop_state * iter_result :=
  let m := w_meminfo w in
  let d := decide args st m in
  let sig := d_sig d in
  let status := update_status (w_status_open w) sig (d_emergency_invoked d)
                  (d_high d) (MemAvailablePercent m) (d_setpoint d) in
  (* lines 499-514: (sleep_ms, report_countdown_ms, hystis, emergency_invoked,
     emergency_timeout_ms), the events, and whether kill_emergency ran *)
  let '(sleep, countdown, hyst, invoked, timeout, acts, emerg) :=
    if negb (sig =? 0) then
      if d_emergency_invoked d then
        (2000, report_countdown_ms st, sig, false, EMERGENCY_TIMEOUT,
         snd (kill_emergency args (w_emergency w)), true)
      else
        (if d_hystis d =? SIGKILL then 50 else 500,
         report_countdown_ms st, sig, d_emergency_invoked d, emergency_timeout_ms st,
         kill_largest_process args (w_largest w) sig, false)
    else if negb (report_interval_ms args =? 0) && (report_countdown_ms st <=? 0) then
      (sleep_time_ms args m, report_interval_ms args, d_hystis d,
       d_emergency_invoked d, emergency_timeout_ms st, [], false)
    else
      (sleep_ms st, report_countdown_ms st, d_hystis d,
       d_emergency_invoked d, emergency_timeout_ms st, [], false) in
  let countdown := to_int (countdown - to_int sleep) in
  let timeout := if timeout >? 0 then to_int (timeout - to_int sleep) else timeout in
  ({| sleep_ms := sleep;
      report_countdown_ms := countdown;
      hystis := hyst;
      emergency_invoked := invoked;
      emergency_timeout_ms := timeout;
      current_setpoint := d_setpoint d |},
   {| it_sig := sig;
      it_high := d_high d;
      it_emergency := emerg;
      it_events := status ++ acts;
      it_usleep := to_uint (sleep * 1000) |}).

(** The first [length ws] iterations of the loop, from state [st]. *)
Fixpoint poll_loop (args : poll_loop_args_t) (ws : list iter_world) (st : loop_state)
  : loop_state * list iter_result :=
  match ws with
  | [] => (st, [])
  | w :: ws' =>
      let '(st1, r) := poll_loop_iter args w st in
      let '(st2, rs) := poll_loop args ws' st1 in
      (st2, r :: rs)
  end.

(** Everything an iteration does to the outside, in order. *)
Definition iter_trace (r : iter_result) : list event :=
  it_events r ++ [EvUsleep (it_usleep r)].

(** The time slept by the loop itself, in microseconds. *)
Definition slept_usec (rs : list iter_result) : Z :=
  fold_right (fun r acc => it_usleep r + acc) 0 rs.

(** ** main.c: [min] and the merge of [-m] with [-M], [-s] with [-S] *)

(** [min]: [x] when [x < y], else [y]. *)
Definition min (x y : float) : float := if PrimFloat.ltb x y then x else y.

Definition set_mem_limits (args : poll_loop_args_t) (term kill : float) : poll_loop_args_t :=
  {| mem_high_percent := mem_high_percent args; mem_term_percent := term;
     mem_kill_percent := kill; mem_emerg_percent := mem_emerg_percent args;
     swap_term_percent := swap_term_percent args;
     swap_kill_percent := swap_kill_percent args;
     ignore_oom_score_adj := ignore_oom_score_adj args; notify := notify args;
     prefer_regex := prefer_regex args; avoid_regex := avoid_regex args;
     avoid_users := avoid_users args; prefer_old := prefer_old args;
     report_interval_ms := report_interval_ms args; dryrun := dryrun args;
     nice := nice args; emerg_kill := emerg_kill args |}.

Definition set_swap_limits (args : poll_loop_args_t) (term kill : float) : poll_loop_args_t :=
  {| mem_high_percent := mem_high_percent args;
     mem_term_percent := mem_term_percent args;
     mem_kill_percent := mem_kill_percent args;
     mem_emerg_percent := mem_emerg_percent args;
     swap_term_percent := term; swap_kill_percent := kill;
     ignore_oom_score_adj := ignore_oom_score_adj args; notify := notify args;
     prefer_regex := prefer_regex args; avoid_regex := avoid_regex args;
     avoid_users := avoid_users args; prefer_old := prefer_old args;
     report_interval_ms := report_interval_ms args; dryrun := dryrun args;
     nice := nice args; emerg_kill := emerg_kill args |}.

(** [100 * kib / (double)total]. *)
Definition percent_of (kib : float) (total_kib : Z) : float :=
  PrimFloat.div (PrimFloat.mul 100%float kib) (double_of_llong total_kib).

(** Lines 260-273 of [main]: [have_m], [have_M] say which of [-m], [-M] were
    given, [args] holds the percentages of [-m] (or the defaults), and
    [mem_term_kib], [mem_kill_kib] the sizes of [-M]. *)
Definition merge_mem (args : poll_loop_args_t) (have_m have_M : bool)
  (mem_term_kib mem_kill_kib : float) (m : meminfo_t) : poll_loop_args_t :=
  if have_M then
    let M_term_percent := percent_of mem_term_kib (MemTotalKiB m) in
    let M_kill_percent := percent_of mem_kill_kib (MemTotalKiB m) in
    if have_m then
      set_mem_limits args (min (mem_term_percent args) M_term_percent)
        (min (mem_kill_percent args) M_kill_percent)
    else set_mem_limits args M_term_percent M_kill_percent
  else args.

(** Lines 274-287 of [main], the same for swap. *)
Definition merge_swap (args : poll_loop_args_t) (have_s have_S : bool)
  (swap_term_kib swap_kill_kib : float) (m : meminfo_t) : poll_loop_args_t :=
  if have_S then
    let S_term_percent := percent_of swap_term_kib (SwapTotalKiB m) in
    let S_kill_percent := percent_of swap_kill_kib (SwapTotalKiB m) in
    if have_s then
      set_swap_limits args (min (swap_term_percent args) S_term_percent)
        (min (swap_kill_percent args) S_kill_percent)
    else set_swap_limits args S_term_percent S_kill_percent
  else args.
(** ** config.c: [parse_config] *)

(** The library functions [parse_config] relies on: [atoi], [atof], and
    [regcomp(re, pattern, REG_EXTENDED | REG_NOSUB)], which gives the
    compiled expression or fails. *)
Record libc : Type := {
  atoi : string -> Z;
  atof : string -> float;
  regcomp : string -> option regex_t
}.

Definition with_mem_high_percent (confdata : poll_loop_args_t) (v : float)
  : poll_loop_args_t :=
  {| mem_high_percent := v; mem_term_percent := mem_term_percent confdata;
     mem_kill_percent := mem_kill_percent confdata;
     mem_emerg_percent := mem_emerg_percent confdata;
     swap_term_percent := swap_term_percent confdata;
     swap_kill_percent := swap_kill_percent confdata;
     ignore_oom_score_adj := ignore_oom_score_adj confdata; notify := notify confdata;
     prefer_regex := prefer_regex confdata; avoid_regex := avoid_regex confdata;
     avoid_users := avoid_users confdata; prefer_old := prefer_old confdata;
     report_interval_ms := report_interval_ms confdata; dryrun := dryrun confdata;
     nice := nice confdata; emerg_kill := emerg_kill confdata |}.

Definition with_mem_term_percent (confdata : poll_loop_args_t) (v : float)
  : poll_loop_args_t :=
  {| mem_high_percent := mem_high_percent confdata; mem_term_percent := v;
     mem_kill_percent := mem_kill_percent confdata;
     mem_emerg_percent := mem_emerg_percent confdata;
     swap_term_percent := swap_term_percent confdata;
     swap_kill_percent := swap_kill_percent confdata;
     ignore_oom_score_adj := ignore_oom_score_adj confdata; notify := notify confdata;
     prefer_regex := prefer_regex confdata; avoid_regex := avoid_regex confdata;
     avoid_users := avoid_users confdata; prefer_old := prefer_old confdata;
     report_interval_ms := report_interval_ms confdata; dryrun := dryrun confdata;
     nice := nice confdata; emerg_kill := emerg_kill confdata |}.

Definition with_mem_kill_percent (confdata : poll_loop_args_t) (v : float)
  : poll_loop_args_t :=
  {| mem_high_percent := mem_high_percent confdata;
     mem_term_percent := mem_term_percent confdata; mem_kill_percent := v;
     mem_emerg_percent := mem_emerg_percent confdata;
     swap_term_percent := swap_term_percent confdata;
     swap_kill_percent := swap_kill_percent confdata;
     ignore_oom_score_adj := ignore_oom_score_adj confdata; notify := notify confdata;
     prefer_regex := prefer_regex confdata; avoid_regex := avoid_regex confdata;
     avoid_users := avoid_users confdata; prefer_old := prefer_old confdata;
     report_interval_ms := report_interval_ms confdata; dryrun := dryrun confdata;
     nice := nice confdata; emerg_kill := emerg_kill confdata |}.

Definition with_mem_emerg_percent (confdata : poll_loop_args_t) (v : float)
  : poll_loop_args_t :=
  {| mem_high_percent := mem_high_percent confdata;
     mem_term_percent := mem_term_percent confdata;
     mem_kill_percent := mem_kill_percent confdata; mem_emerg_percent := v;
     swap_term_percent := swap_term_percent confdata;
     swap_kill_percent := swap_kill_percent confdata;
     ignore_oom_score_adj := ignore_oom_score_adj confdata; notify := notify confdata;
     prefer_regex := prefer_regex confdata; avoid_regex := avoid_regex confdata;
     avoid_users := avoid_users confdata; prefer_old := prefer_old confdata;
     report_interval_ms := report_interval_ms confdata; dryrun := dryrun confdata;
     nice := nice confdata; emerg_kill := emerg_kill confdata |}.

Definition with_swap_term_percent (confdata : poll_loop_args_t) (v : float)
  : poll_loop_args_t :=
  {| mem_high_percent := mem_high_percent confdata;
     mem_term_percent := mem_term_percent confdata;
     mem_kill_percent := mem_kill_percent confdata;
     mem_emerg_percent := mem_emerg_percent confdata; swap_term_percent := v;
     swap_kill_percent := swap_kill_percent confdata;
     ignore_oom_score_adj := ignore_oom_score_adj confdata; notify := notify confdata;
     prefer_regex := prefer_regex confdata; avoid_regex := avoid_regex confdata;
     avoid_users := avoid_users confdata; prefer_old := prefer_old confdata;
     report_interval_ms := report_interval_ms confdata; dryrun := dryrun confdata;
     nice := nice confdata; emerg_kill := emerg_kill confdata |}.

Definition with_swap_kill_percent (confdata : poll_loop_args_t) (v : float)
  : poll_loop_args_t :=
  {| mem_high_percent := mem_high_percent confdata;
     mem_term_percent := mem_term_percent confdata;
     mem_kill_percent := mem_kill_percent confdata;
     mem_emerg_percent := mem_emerg_percent confdata;
     swap_term_percent := swap_term_percent confdata; swap_kill_percent := v;
     ignore_oom_score_adj := ignore_oom_score_adj confdata; notify := notify confdata;
     prefer_regex := prefer_regex confdata; avoid_regex := avoid_regex confdata;
     avoid_users := avoid_users confdata; prefer_old := prefer_old confdata;
     report_interval_ms := report_interval_ms confdata; dryrun := dryrun confdata;
     nice := nice confdata; emerg_kill := emerg_kill confdata |}.

Definition with_ignore_oom_score_adj (confdata : poll_loop_args_t) (v : bool)
  : poll_loop_args_t :=
  {| mem_high_percent := mem_high_percent confdata;
     mem_term_percent := mem_term_percent confdata;
     mem_kill_percent := mem_kill_percent confdata;
     mem_emerg_percent := mem_emerg_percent confdata;
     swap_term_percent := swap_term_percent confdata;
     swap_kill_percent := swap_kill_percent confdata; ignore_oom_score_adj := v;
     notify := notify confdata; prefer_regex := prefer_regex confdata;
     avoid_regex := avoid_regex confdata; avoid_users := avoid_users confdata;
     prefer_old := prefer_old confdata;
     report_interval_ms := report_interval_ms confdata; dryrun := dryrun confdata;
     nice := nice confdata; emerg_kill := emerg_kill confdata |}.

Definition with_notify (confdata : poll_loop_args_t) (v : bool)
  : poll_loop_args_t :=
  {| mem_high_percent := mem_high_percent confdata;
     mem_term_percent := mem_term_percent confdata;
     mem_kill_percent := mem_kill_percent confdata;
     mem_emerg_percent := mem_emerg_percent confdata;
     swap_term_percent := swap_term_percent confdata;
     swap_kill_percent := swap_kill_percent confdata;
     ignore_oom_score_adj := ignore_oom_score_adj confdata; notify := v;
     prefer_regex := prefer_regex confdata; avoid_regex := avoid_regex confdata;
     avoid_users := avoid_users confdata; prefer_old := prefer_old confdata;
     report_interval_ms := report_interval_ms confdata; dryrun := dryrun confdata;
     nice := nice confdata; emerg_kill := emerg_kill confdata |}.

Definition with_prefer_regex (confdata : poll_loop_args_t) (v : option regex_t)
  : poll_loop_args_t :=
  {| mem_high_percent := mem_high_percent confdata;
     mem_term_percent := mem_term_percent confdata;
     mem_kill_percent := mem_kill_percent confdata;
     mem_emerg_percent := mem_emerg_percent confdata;
     swap_term_percent := swap_term_percent confdata;
     swap_kill_percent := swap_kill_percent confdata;
     ignore_oom_score_adj := ignore_oom_score_adj confdata; notify := notify confdata;
     prefer_regex := v; avoid_regex := avoid_regex confdata;
     avoid_users := avoid_users confdata; prefer_old := prefer_old confdata;
     report_interval_ms := report_interval_ms confdata; dryrun := dryrun confdata;
     nice := nice confdata; emerg_kill := emerg_kill confdata |}.

Definition with_avoid_regex (confdata : poll_loop_args_t) (v : option regex_t)
  : poll_loop_args_t :=
  {| mem_high_percent := mem_high_percent confdata;
     mem_term_percent := mem_term_percent confdata;
     mem_kill_percent := mem_kill_percent confdata;
     mem_emerg_percent := mem_emerg_percent confdata;
     swap_term_percent := swap_term_percent confdata;
     swap_kill_percent := swap_kill_percent confdata;
     ignore_oom_score_adj := ignore_oom_score_adj confdata; notify := notify confdata;
     prefer_regex := prefer_regex confdata; avoid_regex := v;
     avoid_users := avoid_users confdata; prefer_old := prefer_old confdata;
     report_interval_ms := report_interval_ms confdata; dryrun := dryrun confdata;
     nice := nice confdata; emerg_kill := emerg_kill confdata |}.

Definition with_avoid_users (confdata : poll_loop_args_t) (v : option regex_t)
  : poll_loop_args_t :=
  {| mem_high_percent := mem_high_percent confdata;
     mem_term_percent := mem_term_percent confdata;
     mem_kill_percent := mem_kill_percent confdata;
     mem_emerg_percent := mem_emerg_percent confdata;
     swap_term_percent := swap_term_percent confdata;
     swap_kill_percent := swap_kill_percent confdata;
     ignore_oom_score_adj := ignore_oom_score_adj confdata; notify := notify confdata;
     prefer_regex := prefer_regex confdata; avoid_regex := avoid_regex confdata;
     avoid_users := v; prefer_old := prefer_old confdata;
     report_interval_ms := report_interval_ms confdata; dryrun := dryrun confdata;
     nice := nice confdata; emerg_kill := emerg_kill confdata |}.

Definition with_prefer_old (confdata : poll_loop_args_t) (v : option regex_t)
  : poll_loop_args_t :=
  {| mem_high_percent := mem_high_percent confdata;
     mem_term_percent := mem_term_percent confdata;
     mem_kill_percent := mem_kill_percent confdata;
     mem_emerg_percent := mem_emerg_percent confdata;
     swap_term_percent := swap_term_percent confdata;
     swap_kill_percent := swap_kill_percent confdata;
     ignore_oom_score_adj := ignore_oom_score_adj confdata; notify := notify confdata;
     prefer_regex := prefer_regex confdata; avoid_regex := avoid_regex confdata;
     avoid_users := avoid_users confdata; prefer_old := v;
     report_interval_ms := report_interval_ms confdata; dryrun := dryrun confdata;
     nice := nice confdata; emerg_kill := emerg_kill confdata |}.

Definition with_report_interval_ms (confdata : poll_loop_args_t) (v : Z)
  : poll_loop_args_t :=
  {| mem_high_percent := mem_high_percent confdata;
     mem_term_percent := mem_term_percent confdata;
     mem_kill_percent := mem_kill_percent confdata;
     mem_emerg_percent := mem_emerg_percent confdata;
     swap_term_percent := swap_term_percent confdata;
     swap_kill_percent := swap_kill_percent confdata;
     ignore_oom_score_adj := ignore_oom_score_adj confdata; notify := notify confdata;
     prefer_regex := prefer_regex confdata; avoid_regex := avoid_regex confdata;
     avoid_users := avoid_users confdata; prefer_old := prefer_old confdata;
     report_interval_ms := v; dryrun := dryrun confdata; nice := nice confdata;
     emerg_kill := emerg_kill confdata |}.

Definition with_nice (confdata : poll_loop_args_t) (v : bool)
  : poll_loop_args_t :=
  {| mem_high_percent := mem_high_percent confdata;
     mem_term_percent := mem_term_percent confdata;
     mem_kill_percent := mem_kill_percent confdata;
     mem_emerg_percent := mem_emerg_percent confdata;
     swap_term_percent := swap_term_percent confdata;
     swap_kill_percent := swap_kill_percent confdata;
     ignore_oom_score_adj := ignore_oom_score_adj confdata; notify := notify confdata;
     prefer_regex := prefer_regex confdata; avoid_regex := avoid_regex confdata;
     avoid_users := avoid_users confdata; prefer_old := prefer_old confdata;
     report_interval_ms := report_interval_ms confdata; dryrun := dryrun confdata;
     nice := v; emerg_kill := emerg_kill confdata |}.

Definition with_emerg_kill (confdata : poll_loop_args_t) (v : option string)
  : poll_loop_args_t :=
  {| mem_high_percent := mem_high_percent confdata;
     mem_term_percent := mem_term_percent confdata;
     mem_kill_percent := mem_kill_percent confdata;
     mem_emerg_percent := mem_emerg_percent confdata;
     swap_term_percent := swap_term_percent confdata;
     swap_kill_percent := swap_kill_percent confdata;
     ignore_oom_score_adj := ignore_oom_score_adj confdata; notify := notify confdata;
     prefer_regex := prefer_regex confdata; avoid_regex := avoid_regex confdata;
     avoid_users := avoid_users confdata; prefer_old := prefer_old confdata;
     report_interval_ms := report_interval_ms confdata; dryrun := dryrun confdata;
     nice := nice confdata; emerg_kill := v |}.

(** The text before and after the first [c] of [s], as [strchr] finds it. *)
Fixpoint split_at_char (c : ascii) (s : string) : option (string * string) :=
  match s with
  | EmptyString => None
  | String x rest =>
      if Ascii.eqb x c then Some (EmptyString, rest)
      else
        match split_at_char c rest with
        | Some (before, after) => Some (String x before, after)
        | None => None
        end
  end.

(** What lines 42-55 make of one line (which holds no NUL byte): it is
    skipped, or it yields [ckey] and [cvalue], or it overruns a buffer.  A
    text of 512 bytes or more after the [=] leaves [cvalue] without its NUL,
    and an empty one makes [cvalue[strlen(cvalue) - 1]] a write in front of
    the buffer; a key of 64 bytes or more leaves [ckey] without its NUL,
    equals no known key, and is printed by the warning of line 107. *)
Inductive line_result : Type :=
| LineSkipped
| LineSetting (ckey cvalue : string)
| LineOverrun.

Definition read_line (line : string) : line_result :=
  if (String.length line <? 2)%nat then LineSkipped
  else
    match line with
    | EmptyString => LineSkipped
    | String c _ =>
        if Ascii.eqb c "#" || Ascii.eqb c ";" then LineSkipped
        else
          match split_at_char "=" line with
          | None => LineSkipped
          | Some (before, after) =>
              if (64 <=? String.length before)%nat
                 || (512 <=? String.length after)%nat
                 || (String.length after =? 0)%nat
              then LineOverrun
              else LineSetting (strncpy before 64)
                     (substring 0 (String.length after - 1) after)
          end
    end.

(** [(cvalue[0] == 'y' || cvalue[0] == '1')]. *)
Definition yes (cvalue : string) : bool :=
  match cvalue with
  | EmptyString => false
  | String c _ => Ascii.eqb c "y" || Ascii.eqb c "1"
  end.

(** How a call of [parse_config] ends: it returns, the program exits through
    [fatal] with the given code, or a line overruns a buffer. *)
Inductive config_result : Type :=
| ConfigLoaded (confdata : poll_loop_args_t)
| ConfigFatal (exit_code : Z)
| ConfigOverrun.

Definition compile_regex (lib : libc) (cvalue : string)
  (set : option regex_t -> poll_loop_args_t) : config_result :=
  match regcomp lib cvalue with
  | Some re => ConfigLoaded (set (Some re))
  | None => ConfigFatal 6
  end.

(** The chain of [strcmp] tests, lines 57-108. *)
Definition apply_setting (lib : libc) (confdata : poll_loop_args_t) (ckey cvalue : string)
  : config_result :=
  if String.eqb ckey "report_interval" then
    ConfigLoaded (with_report_interval_ms confdata (to_int (atoi lib cvalue * 1000)))
  else if String.eqb ckey "nice" then ConfigLoaded (with_nice confdata (yes cvalue))
  else if String.eqb ckey "ignore_oom_score_adj" then
    ConfigLoaded (with_ignore_oom_score_adj confdata (yes cvalue))
  else if String.eqb ckey "notify_dbus" then ConfigLoaded (with_notify confdata (yes cvalue))
  else if String.eqb ckey "memory_high" then
    ConfigLoaded (with_mem_high_percent confdata (atof lib cvalue))
  else if String.eqb ckey "memory_low" then
    ConfigLoaded (with_mem_term_percent confdata (atof lib cvalue))
  else if String.eqb ckey "memory_kill" then
    ConfigLoaded (with_mem_kill_percent confdata (atof lib cvalue))
  else if String.eqb ckey "memory_emerg" then
    ConfigLoaded (with_mem_emerg_percent confdata (atof lib cvalue))
  else if String.eqb ckey "swap_low" then
    ConfigLoaded (with_swap_term_percent confdata (atof lib cvalue))
  else if String.eqb ckey "swap_kill" then
    ConfigLoaded (with_swap_kill_percent confdata (atof lib cvalue))
  else if String.eqb ckey "prefer_regex" then
    compile_regex lib cvalue (with_prefer_regex confdata)
  else if String.eqb ckey "avoid_regex" then
    compile_regex lib cvalue (with_avoid_regex confdata)
  else if String.eqb ckey "avoid_users" then
    compile_regex lib cvalue (with_avoid_users confdata)
  else if String.eqb ckey "prefer_old" then
    compile_regex lib cvalue (with_prefer_old confdata)
  else if String.eqb ckey "emerg_kill" then
    ConfigLoaded (with_emerg_kill confdata (Some cvalue))
  else ConfigLoaded confdata.

(** The [while] loop over the lines, each as [getline] returns it (with its
    newline, which only the last line of a file may lack). *)
Fixpoint parse_lines (lib : libc) (lines : list string) (confdata : poll_loop_args_t)
  : config_result :=
  match lines with
  | [] => ConfigLoaded confdata
  | line :: rest =>
      match read_line line with
      | LineSkipped => parse_lines lib rest confdata
      | LineOverrun => ConfigOverrun
      | LineSetting ckey cvalue =>
          match apply_setting lib confdata ckey cvalue with
          | ConfigLoaded confdata' => parse_lines lib rest confdata'
          | stop => stop
          end
      end
  end.

(** [parse_config]; [file] is [None] when [fopen] fails. *)
Definition parse_config (lib : libc) (file : option (list string))
  (confdata : poll_loop_args_t) : config_result :=
  match file with
  | None => ConfigFatal 7
  | Some lines => parse_lines lib lines confdata
  end.

(** * Specifications and sample data *)

(** ** Concrete configurations and observations used by the examples *)

(** The defaults of [main], with [memory_emerg=2] of the sample
    configuration. *)
Definition default_args : poll_loop_args_t :=
  {| mem_high_percent := 15%float;
     mem_term_percent := 10%float;
     mem_kill_percent := 5%float;
     mem_emerg_percent := 2%float;
     swap_term_percent := 10%float;
     swap_kill_percent := 5%float;
     ignore_oom_score_adj := false;
     notify := false;
     prefer_regex := None;
     avoid_regex := None;
     avoid_users := None;
     prefer_old := None;
     report_interval_ms := 1000;
     dryrun := false;
     nice := false;
     emerg_kill := None |}.

(** A 16 GiB host with 8 GiB of swap, at the given percentages. *)
Definition meminfo_at (mem swap : float) : meminfo_t :=
  {| MemTotalKiB := 16777216; MemTotalMiB := 16384; MemAvailableMiB := 0;
     SwapTotalMiB := 8192; SwapTotalKiB := 8388608; SwapFreeMiB := 0;
     MemAvailablePercent := mem; SwapFreePercent := swap |}.

Definition no_times : proctime_t :=
  {| c_utime := 0; c_stime := 0; c_cutime := 0; c_cstime := 0; c_runtime := 0;
     valid := false |}.

(** A process whose reads all succeed. *)
Definition process (pid_str comm_str : string) (score adj rss : Z) : dirent :=
  {| d_name := pid_str; oom_score := score; oom_score_adj := (0, adj);
     process_times := no_times; comm := (0, comm_str); stat_uid := Some 1000;
     pw_name := Some "user"%string; vm_rss_kib := rss; oom_score_adj_late := (0, adj);
     comm_late := (0, comm_str); proc_uid := 1000 |}.

(** A victim that never exits, on a host whose memory stays where it is. *)
Definition kw_stuck (m : meminfo_t) : kw_world :=
  {| kw_kill0 := None; kw_kill1 := None; kw_meminfo := fun _ => m;
     kw_alive := fun _ => true |}.

Definition klp_of (entries : list dirent) (m : meminfo_t) : klp_world :=
  {| klp_entries := entries; klp_getpid := 4242; klp_kill_wait := kw_stuck m |}.

Definition emerg_of (entries : list dirent) (m : meminfo_t) : emerg_world :=
  {| em_meminfo := fun _ => m; em_entries := fun _ => entries |}.

Definition world_of (entries : list dirent) (m : meminfo_t) : iter_world :=
  {| w_meminfo := m; w_status_open := true; w_largest := klp_of entries m;
     w_emergency := emerg_of entries m |}.

(** ** C9: the adaptive idle sleep *)

(** The specification's formula: both headrooms floored at 0, the sum of the
    two quotients clamped to [100, 1000]. *)
Definition adaptive_sleep_spec (headroom_mem_kib headroom_swap_kib : Z) : Z :=
  Z.max 100 (Z.min 1000 (Z.max 0 headroom_mem_kib / 6000 + Z.max 0 headroom_swap_kib / 800)).

(** ** The states the loop can be in *)

Inductive reachable (args : poll_loop_args_t) : loop_state -> Prop :=
| reachable_init (indeterminate : Z) : reachable args (loop_init indeterminate)
| reachable_iter (st : loop_state) (w : iter_world) :
    reachable args st -> reachable args (fst (poll_loop_iter args w st)).

(** Between iterations the one-shot flag is down and [hystis] holds no signal
    or one of the two the loop sends. *)
Definition loop_invariant (st : loop_state) : Prop :=
  emergency_invoked st = false
  /\ (hystis st = 0 \/ hystis st = SIGTERM \/ hystis st = SIGKILL).

(** ** C2: the priority of the actions *)

Inductive action : Type := Emergency | Kill | Term | Hysteresis | Idle.

Fixpoint first_match {A : Type} (rules : list (bool * A)) (otherwise : A) : A :=
  match rules with
  | [] => otherwise
  | (true, a) :: _ => a
  | (false, _) :: rest => first_match rest otherwise
  end.

(** The specification's decision table, in its fixed order. *)
Definition spec_action (args : poll_loop_args_t) (st : loop_state) (m : meminfo_t) : action :=
  first_match
    [ (is_set (emerg_kill args)
       && (emergency_timeout_ms st <=? 0)
       && dle (MemAvailablePercent m) (mem_emerg_percent args)
       && dle (SwapFreePercent m) (swap_kill_percent args), Emergency);
      (dle (MemAvailablePercent m) (mem_kill_percent args)
       && dle (SwapFreePercent m) (swap_kill_percent args), Kill);
      (dle (MemAvailablePercent m) (mem_term_percent args)
       && dle (SwapFreePercent m) (swap_term_percent args), Term);
      (negb (hystis st =? 0)
       && dle (MemAvailablePercent m) (mem_high_percent args), Hysteresis) ]
    Idle.

(** What the specification attaches to each action: the signal, the
    emergency path, the [high] mark and the hysteresis signal carried to the
    next iteration. *)
Definition action_outcome (a : action) (st st' : loop_state) (r : iter_result) : Prop :=
  match a with
  | Emergency =>
      it_sig r = SIGKILL /\ it_emergency r = true /\ it_high r = false
      /\ hystis st' = SIGKILL
  | Kill =>
      it_sig r = SIGKILL /\ it_emergency r = false /\ it_high r = false
      /\ hystis st' = SIGKILL
  | Term =>
      it_sig r = SIGTERM /\ it_emergency r = false /\ it_high r = false
      /\ hystis st' = SIGTERM
  | Hysteresis =>
      it_sig r = hystis st /\ it_emergency r = false /\ it_high r = true
      /\ hystis st' = hystis st
  | Idle =>
      it_sig r = 0 /\ it_emergency r = false /\ it_high r = false
      /\ hystis st' = 0
  end.

(** ** C8: the sleep after a kill *)

(** An iteration of the non-emergency kill path: a signal was chosen and
    [kill_largest_process] was called. *)
Definition kill_path (r : iter_result) : Prop :=
  it_sig r <> 0 /\ it_emergency r = false.

(** ** C10: an idle iteration that prints no report keeps [sleep_ms] *)

(** No signal was chosen and the periodic-report branch is not taken. *)
Definition idle_without_report (args : poll_loop_args_t) (st : loop_state) (r : iter_result)
  : Prop :=
  it_sig r = 0 /\ (report_interval_ms args = 0 \/ report_countdown_ms st > 0).

(** [-r 0]: periodic reporting disabled. *)
Definition quiet_args : poll_loop_args_t :=
  {| mem_high_percent := 15%float;
     mem_term_percent := 10%float;
     mem_kill_percent := 5%float;
     mem_emerg_percent := 2%float;
     swap_term_percent := 10%float;
     swap_kill_percent := 5%float;
     ignore_oom_score_adj := false;
     notify := false;
     prefer_regex := None;
     avoid_regex := None;
     avoid_users := None;
     prefer_old := None;
     report_interval_ms := 0;
     dryrun := false;
     nice := false;
     emerg_kill := None |}.

(** Scenario 1 of the specification: no pressure. *)
Definition calm : iter_world := world_of [] (meminfo_at 60 80).

(** ** C7: the emergency debounce *)

(** What holds from the end of an emergency iteration on, [acc] being the
    microseconds slept by the loop since that iteration's [kill_emergency]. *)
Definition debounced (st : loop_state) (acc : Z) : Prop :=
  emergency_invoked st = false
  /\ 50 <= sleep_ms st <= 2000
  /\ emergency_timeout_ms st <= EMERGENCY_TIMEOUT
  /\ 1000 * EMERGENCY_TIMEOUT <= acc + 1000 * Z.max 0 (emergency_timeout_ms st).

(** The sample configuration's emergency list, shortened to the two names of
    scenario 5 of the specification. *)
Definition emerg_args (dry : bool) : poll_loop_args_t :=
  {| mem_high_percent := 15%float;
     mem_term_percent := 10%float;
     mem_kill_percent := 5%float;
     mem_emerg_percent := 2%float;
     swap_term_percent := 10%float;
     swap_kill_percent := 5%float;
     ignore_oom_score_adj := false;
     notify := false;
     prefer_regex := None;
     avoid_regex := None;
     avoid_users := None;
     prefer_old := None;
     report_interval_ms := 1000;
     dryrun := dry;
     nice := false;
     emerg_kill := Some "doveadm,php-cgi"%string |}.

(** Scenario 5 of the specification: memory 1 %, swap 0 %. *)
Definition crisis : iter_world :=
  world_of [ process "1" "systemd" 0 0 9000;
             process "42" "doveadm" 100 0 5000;
             process "43" "php-cgi" 120 0 9000;
             process "44" "sshd" 10 0 2000 ]
    (meminfo_at 1 0).

(** ** C4: the badness of a candidate *)

(** Every per-PID read of the badness computation succeeds: results are
    non-negative, the times are valid, the owner is found, and the values
    fit the C types that carry them. *)
Definition reads_succeed (d : dirent) : bool :=
  (0 <=? oom_score d) && (oom_score d <=? INT_MAX)
  && (0 <=? fst (oom_score_adj d))
  && valid (process_times d)
  && (0 <=? fst (comm d))
  && is_set (stat_uid d)
  && match pw_name d with
     | Some user => (String.length user <? MAX_USERLEN)%nat
     | None => false
     end.

(** The six steps of the specification, over the integers. *)
Definition spec_badness (args : poll_loop_args_t) (d : dirent) : Z :=
  let name := snd (comm d) in
  let user := match pw_name d with Some u => u | None => ""%string end in
  let runtime_seconds := c_runtime (process_times d) in
  oom_score d
  - (if ignore_oom_score_adj args && (snd (oom_score_adj d) >? 0)
     then snd (oom_score_adj d) else 0)
  + (if regex_matches (prefer_regex args) name then 300 else 0)
  + (if regex_matches (avoid_regex args) name then -300 else 0)
  + (if regex_matches (avoid_users args) user then -150 else 0)
  + (if regex_matches (prefer_old args) name then Z.quot runtime_seconds 600 else 0).

(** Equality of [int] values before wrapping: congruence modulo [2 ^ 32]. *)
Definition eqm32 (a b : Z) : Prop := a mod 2 ^ 32 = b mod 2 ^ 32.

(** [b] is the [int] that the exact value [x] wraps to. *)
Definition wraps_to (b x : Z) : Prop := eqm32 b x /\ in_int b.

(** A configuration with the four regular expressions of the sample
    configuration file, each seen through the names it accepts. *)
Definition regex_args : poll_loop_args_t :=
  {| mem_high_percent := 15%float;
     mem_term_percent := 10%float;
     mem_kill_percent := 5%float;
     mem_emerg_percent := 2%float;
     swap_term_percent := 10%float;
     swap_kill_percent := 5%float;
     ignore_oom_score_adj := true;
     notify := false;
     prefer_regex := Some (fun s => String.eqb s "php-cgi" || String.eqb s "crond");
     avoid_regex := Some (fun s => String.eqb s "mysqld" || String.eqb s "nginx");
     avoid_users := Some (fun s => String.eqb s "root");
     prefer_old := Some (fun s => String.eqb s "php-cgi");
     report_interval_ms := 1000;
     dryrun := false;
     nice := false;
     emerg_kill := None |}.

(** A two-hour-old [php-cgi] of user [www]: [oom_score] 200, [oom_score_adj] 50. *)
Definition old_php : dirent :=
  {| d_name := "4711"; oom_score := 200; oom_score_adj := (0, 50);
     process_times := {| c_utime := 30; c_stime := 5; c_cutime := 0; c_cstime := 0;
                         c_runtime := 7200; valid := true |};
     comm := (0, "php-cgi"%string); stat_uid := Some 33; pw_name := Some "www"%string;
     vm_rss_kib := 40000; oom_score_adj_late := (0, 50);
     comm_late := (0, "php-cgi"%string); proc_uid := 33 |}.

(** ** C1: the selection order *)

(** Lines 252-304 without the comparisons with the running victim: the reads
    made for a candidate that is not beaten on badness.  [None] when one of
    them fails, for a kernel thread (no resident memory) and for
    [oom_score_adj = -1000]. *)
Definition complete (d : dirent) (cur : procinfo) : option procinfo :=
  let res := vm_rss_kib d in
  if res <? 0 then None
  else
    let cur := set_VmRSSkiB cur res in
    if VmRSSkiB cur =? 0 then None
    else
      let '(res, adj) := oom_score_adj_late d in
      if res <? 0 then None
      else if adj =? -1000 then None
      else
        let named :=
          if (String.length (name cur) =? 0)%nat then
            let '(res, out) := comm_late d in
            if res <? 0 then None else Some (set_name cur out)
          else Some cur in
        match named with
        | None => None
        | Some cur =>
            let res := proc_uid d in
            if res <? 0 then None else Some (set_uid cur res)
        end.

(** A surviving candidate: an entry that passes every skip rule when all of
    its reads are made. *)
Definition survivor (args : poll_loop_args_t) (d : dirent) : option procinfo :=
  match examine args d with
  | None => None
  | Some cur => complete d cur
  end.

(** [(a.badness, a.rss_kib) > (b.badness, b.rss_kib)], lexicographically. *)
Definition lex_gt (a b : procinfo) : Prop :=
  badness a > badness b \/ (badness a = badness b /\ VmRSSkiB a > VmRSSkiB b).

Definition candidate_of (d : dirent) (b rss : Z) : procinfo :=
  {| pid := to_int (strtol (d_name d)); uid := proc_uid d; badness := b; VmRSSkiB := rss;
     utime := 0; stime := 0; rtime := 0; name := snd (comm d); username := "" |}.

Definition mysqld : dirent := process "42" "mysqld" 100 0 5000.
Definition nginx : dirent := process "43" "nginx" 50 0 1000.

(** ** C3: SIGTERM, wait, escalate *)

(** The first [i] in [i0, i0 + n) with [P i], if any. *)
Fixpoint first_tick (P : nat -> bool) (n i0 : nat) : option nat :=
  match n with
  | O => None
  | S n' => if P i0 then Some i0 else first_tick P n' (S i0)
  end.

(** [n] polling sleeps of 100 ms. *)
Definition naps (n : nat) : list event := repeat (EvUsleep 100000) n.

(** The specification's escalation condition at tick [i], i.e. [100 * i] ms after the
    SIGTERM: 6.0 s have elapsed, or the snapshot read at this tick is at or
    below both kill thresholds. *)
Definition escalation_due (args : poll_loop_args_t) (w : kw_world) (i : nat) : bool :=
  (60 <=? i)%nat
  || at_or_below (kw_meminfo w i) (mem_kill_percent args) (swap_kill_percent args).

(** A victim that ignores SIGTERM on a host whose memory stays above the
    kill thresholds, and dies of the SIGKILL before the next poll. *)
Definition kw_stubborn : kw_world :=
  {| kw_kill0 := None; kw_kill1 := None;
     kw_meminfo := fun _ => meminfo_at 8 5;
     kw_alive := fun i => (i <? 61)%nat |}.

(** A victim that exits just before the escalation, 6 s after the SIGTERM:
    the escalating [kill] finds no such process. *)
Definition kw_lost_race : kw_world :=
  {| kw_kill0 := None; kw_kill1 := Some ESRCH;
     kw_meminfo := fun _ => meminfo_at 8 5;
     kw_alive := fun i => (i <? 60)%nat |}.

(** ** C5: the emergency kill *)

(** The pids of one [/proc] scan that the specification designates for [name]: a
    numeric entry, a pid above 1, a readable [comm] equal to the name byte
    for byte.  Entries whose [comm] cannot be read are passed over. *)
Definition emergency_targets (victim_name : string) (entries : list dirent) : list Z :=
  map (fun d => to_int (strtol (d_name d)))
    (filter (fun d =>
               isnumeric (d_name d)
               && (1 <? to_int (strtol (d_name d)))
               && (0 <=? fst (comm d))
               && String.eqb (snd (comm d)) victim_name)
       entries).

(** The names that get processed, with their position: the list is walked in
    order and the walk stops at the first name before which the fresh
    snapshot shows [MemAvailablePercent > mem_high_percent]. *)
Fixpoint names_processed (args : poll_loop_args_t) (w : emerg_world)
  (names : list string) (i : nat) : list (nat * string) :=
  match names with
  | [] => []
  | n :: rest =>
      if dgt (MemAvailablePercent (em_meminfo w i)) (mem_high_percent args) then []
      else (i, n) :: names_processed args w rest (S i)
  end.

(** The SIGKILLs the specification prescribes, in order. *)
Definition emergency_kills (args : poll_loop_args_t) (w : emerg_world) (names : list string)
  : list event :=
  flat_map (fun '(i, n) => map (fun p => EvKill p SIGKILL)
                             (emergency_targets n (em_entries w i)))
    (names_processed args w names 0).

(** Scenario 5 of the specification: the first name's kills bring memory
    back above the high watermark, so the second name is not processed. *)
Definition emerg_recovering : emerg_world :=
  {| em_meminfo := fun i => if (i =? 0)%nat then meminfo_at 1 0 else meminfo_at 20 0;
     em_entries := fun _ => [ process "1" "doveadm" 0 0 9000;
                              process "42" "doveadm" 100 0 5000;
                              process "43" "php-cgi" 120 0 9000;
                              process "self" "doveadm" 0 0 0;
                              process "45" "doveadm-x" 10 0 2000;
                              process "46" "doveadm" 10 0 2000 ] |}.

(** ** Reading a trace *)

(** The [kill] calls of a trace, as (pid, signal) pairs, in order. *)
Fixpoint kills_in (tr : list event) : list (Z * Z) :=
  match tr with
  | [] => []
  | EvKill p s :: rest => (p, s) :: kills_in rest
  | _ :: rest => kills_in rest
  end.

(** The time a trace spends in [usleep] and [sleep], in microseconds. *)
Definition wait_usec (e : event) : Z :=
  match e with
  | EvUsleep u => u
  | EvSleep s => s * 1000000
  | _ => 0
  end.

Definition total_wait (tr : list event) : Z :=
  fold_right (fun e acc => wait_usec e + acc) 0 tr.

(** The entries of a scan that reach line 243, i.e. that are counted in
    [candidates]. *)
Definition examined (args : poll_loop_args_t) (entries : list dirent) : list dirent :=
  filter (fun d => is_set (examine args d)) entries.

(** ** The status file *)

(** The status word and the set-point that go with each action. *)
Definition spec_status (args : poll_loop_args_t) (a : action) : string * float :=
  match a with
  | Emergency => ("emergency"%string, mem_emerg_percent args)
  | Kill => ("kill"%string, mem_kill_percent args)
  | Term => ("term"%string, mem_term_percent args)
  | Hysteresis => ("high"%string, mem_high_percent args)
  | Idle => ("ok"%string, 0%float)
  end.

(** While no kill is being followed up, the set-point is zero. *)
Definition setpoint_invariant (st : loop_state) : Prop :=
  hystis st = 0 -> current_setpoint st = 0%float.

(** Only the daemon's own entry, among entries that are no processes. *)
Definition hidepid_proc : list dirent :=
  [ process "self" "" 0 0 0; process "4242" "earlyoom" 10 0 1500;
    process "meminfo" "" 0 0 0 ].

(** ** Tokens *)

Fixpoint has_char (c : ascii) (s : string) : bool :=
  match s with
  | EmptyString => false
  | String c' rest => Ascii.eqb c' c || has_char c rest
  end.

Fixpoint without_char (c : ascii) (s : string) : string :=
  match s with
  | EmptyString => EmptyString
  | String c' rest =>
      if Ascii.eqb c' c then without_char c rest else String c' (without_char c rest)
  end.

Fixpoint concat_strings (l : list string) : string :=
  match l with
  | [] => EmptyString
  | s :: rest => (s ++ concat_strings rest)%string
  end.

(** ** Runs of the loop *)

(** [sleep_ms] holds one of the values the loop assigns. *)
Definition sleep_assigned (st : loop_state) : Prop := 50 <= sleep_ms st <= 2000.

(** A snapshot at or below the high watermark. *)
Definition below_high (args : poll_loop_args_t) (w : iter_world) : Prop :=
  dle (MemAvailablePercent (w_meminfo w)) (mem_high_percent args) = true.

(** The defaults of [main] ([emerg_kill] is NULL), with or without
    [--dryrun]. *)
Definition emerg_args_without_list (dry : bool) : poll_loop_args_t :=
  {| mem_high_percent := 15%float;
     mem_term_percent := 10%float;
     mem_kill_percent := 5%float;
     mem_emerg_percent := 0%float;
     swap_term_percent := 10%float;
     swap_kill_percent := 5%float;
     ignore_oom_score_adj := false;
     notify := false;
     prefer_regex := None;
     avoid_regex := None;
     avoid_users := None;
     prefer_old := None;
     report_interval_ms := 1000;
     dryrun := dry;
     nice := false;
     emerg_kill := None |}.

(** [x] is a number: it equals itself. *)
Definition not_nan (x : float) : Prop := PrimFloat.eqb x x = true.

(** The line starts with [#] or [;]. *)
Definition comment_line (line : string) : bool :=
  match line with
  | EmptyString => false
  | String c _ => Ascii.eqb c "#" || Ascii.eqb c ";"
  end.

(** The text of a setting: key, [=], value and one closing byte (the newline,
    on every line that has one). *)
Definition setting_line (key value : string) (last : ascii) : string :=
  (key ++ "=" ++ value ++ String last "")%string.

(** A key and a value that fit [ckey] and [cvalue]. *)
Definition fits (key value : string) : Prop :=
  has_char "=" key = false /\ comment_line key = false
  /\ (String.length key < 64)%nat /\ (String.length value < 511)%nat.

(** The keys [parse_config] knows. *)
Definition known_keys : list string :=
  ["report_interval"; "nice"; "ignore_oom_score_adj"; "notify_dbus"; "memory_high";
   "memory_low"; "memory_kill"; "memory_emerg"; "swap_low"; "swap_kill";
   "prefer_regex"; "avoid_regex"; "avoid_users"; "prefer_old"; "emerg_kill"]%string.


(** Lines that set nothing: shorter than two bytes, comments, lines without
    [=], and settings of a key that is not known. *)
Inductive ignorable : string -> Prop :=
| ignorable_short line : (String.length line < 2)%nat -> ignorable line
| ignorable_comment line : comment_line line = true -> ignorable line
| ignorable_plain line : has_char "=" line = false -> ignorable line
| ignorable_unknown key value last :
    fits key value -> ~ In key known_keys -> ignorable (setting_line key value last).

(** What a configuration file cannot undo: the dry-run switch stays as it
    is, and an expression or list that is set stays set. *)
Definition keeps_switches (before after : poll_loop_args_t) : Prop :=
  dryrun after = dryrun before
  /\ (is_set (prefer_regex before) = true -> is_set (prefer_regex after) = true)
  /\ (is_set (avoid_regex before) = true -> is_set (avoid_regex after) = true)
  /\ (is_set (avoid_users before) = true -> is_set (avoid_users after) = true)
  /\ (is_set (prefer_old before) = true -> is_set (prefer_old after) = true)
  /\ (is_set (emerg_kill before) = true -> is_set (emerg_kill after) = true).

Definition newline : ascii := "010"%char.

(** A stand-in for the C library in examples: [atoi] and [atof] read the
    leading decimal digits, and [regcomp] rejects an unbalanced ["("] and
    otherwise compiles the pattern to an exact match. *)
Fixpoint decimal (acc : Z) (s : string) : Z :=
  match s with
  | EmptyString => acc
  | String c rest =>
      let d := Z.of_N (N_of_ascii c) - 48 in
      if (0 <=? d) && (d <=? 9) then decimal (10 * acc + d) rest else acc
  end.

Definition sample_libc : libc :=
  {| atoi := decimal 0;
     atof := fun s => PrimFloat.of_uint63 (Uint63.of_Z (decimal 0 s));
     regcomp := fun pattern =>
       if String.eqb pattern "(" then None else Some (String.eqb pattern) |}.

(** The status record an iteration writes when the status file opens: the
    word and the set-point of the action taken, and the snapshot's
    [MemAvailablePercent]. *)
Definition status_event (args : poll_loop_args_t) (st : loop_state) (m : meminfo_t)
  : event :=
  EvStatus (fst (spec_status args (spec_action args st m))) (MemAvailablePercent m)
    (snd (spec_status args (spec_action args st m))).

(** What an iteration does after the status update: the events of the kill
    routine it calls, none when it sends no signal. *)
Definition kill_events (args : poll_loop_args_t) (w : iter_world) (r : iter_result)
  : list event :=
  if it_emergency r then snd (kill_emergency args (w_emergency w))
  else if it_sig r =? 0 then []
  else kill_largest_process args (w_largest w) (it_sig r).

(** The world [w] with a status file that cannot be opened. *)
Definition status_closed (w : iter_world) : iter_world :=
  {| w_meminfo := w_meminfo w; w_status_open := false; w_largest := w_largest w;
     w_emergency := w_emergency w |}.

(** * Properties *)

(** ** The embedding on concrete inputs *)

Example isnumeric_pid : isnumeric "4242" = true /\ isnumeric "self" = false
                        /\ isnumeric "" = false /\ strtol "4242" = 4242.
Proof. repeat split; reflexivity. Qed.

Example strtok_all_sample :
  strtok_all "," "doveadm,,php-cgi," "" = ["doveadm"; "php-cgi"]%string.
Proof. reflexivity. Qed.

(** Scenario 1 of the specification: no pressure, the adaptive sleep is
    clamped to 1000 ms. *)
Example sleep_time_ms_no_pressure :
  sleep_time_ms default_args (meminfo_at 60 80) = 1000.
Proof. vm_compute. reflexivity. Qed.

Example sleep_time_ms_close_to_limit :
  mem_headroom_kib default_args (meminfo_at 12.5 10) = 409600
  /\ sleep_time_ms default_args (meminfo_at 12.5 10) = 100.
Proof. split; vm_compute; reflexivity. Qed.

(** ** Machine integers *)

Lemma wrap_signed_small (bits x : Z) :
  0 < bits -> - 2 ^ (bits - 1) <= x < 2 ^ (bits - 1) -> wrap_signed bits x = x.
Proof.
  intros Hb Hx. unfold wrap_signed.
  assert (E : 2 ^ bits = 2 * 2 ^ (bits - 1)).
  { replace bits with (Z.succ (bits - 1)) at 1 by lia. apply Z.pow_succ_r. lia. }
  rewrite Z.mod_small; lia.
Qed.

Lemma to_int_small (x : Z) : in_int x -> to_int x = x.
Proof.
  unfold in_int, INT_MIN, INT_MAX, to_int. intros H.
  apply wrap_signed_small; simpl in *; lia.
Qed.

Lemma to_llong_small (x : Z) : in_llong x -> to_llong x = x.
Proof.
  unfold in_llong, LLONG_MIN, LLONG_MAX, to_llong. intros H.
  apply wrap_signed_small; simpl in *; lia.
Qed.

Lemma to_uint_small (x : Z) : 0 <= x < 2 ^ 32 -> to_uint x = x.
Proof. intros H. unfold to_uint. apply Z.mod_small. exact H. Qed.

Lemma llong_of_double_range (f : float) : in_llong (llong_of_double f).
Proof.
  unfold llong_of_double, in_llong.
  destruct (Prim2SF f) as [s | s | | s m e]; try (unfold LLONG_MIN, LLONG_MAX; simpl; lia).
  cbv zeta.
  match goal with |- context [if ?c then _ else _] => destruct c eqn:E end.
  - apply andb_true_iff in E. destruct E as [E1 E2].
    apply Z.leb_le in E1. apply Z.leb_le in E2. lia.
  - unfold LLONG_MIN, LLONG_MAX. simpl. lia.
Qed.

(** ** C9: the adaptive idle sleep *)

Lemma adaptive_sleep_spec_bounds (hm hs : Z) : 100 <= adaptive_sleep_spec hm hs <= 1000.
Proof. unfold adaptive_sleep_spec. lia. Qed.

Lemma adaptive_sleep_spec_mono (hm hs hm' hs' : Z) :
  hm <= hm' -> hs <= hs' -> adaptive_sleep_spec hm hs <= adaptive_sleep_spec hm' hs'.
Proof.
  intros Hm Hs. unfold adaptive_sleep_spec.
  assert (Z.max 0 hm / 6000 <= Z.max 0 hm' / 6000) by (apply Z.div_le_mono; lia).
  assert (Z.max 0 hs / 800 <= Z.max 0 hs' / 800) by (apply Z.div_le_mono; lia).
  lia.
Qed.

Lemma sleep_time_ms_eq_spec (args : poll_loop_args_t) (m : meminfo_t) :
  sleep_time_ms args m
  = adaptive_sleep_spec (mem_headroom_kib args m) (swap_headroom_kib args m).
Proof.
  unfold sleep_time_ms, adaptive_sleep_spec.
  pose proof (llong_of_double_range
                (PrimFloat.mul
                   (PrimFloat.mul (PrimFloat.sub (MemAvailablePercent m)
                                     (mem_term_percent args)) 10%float)
                   (double_of_llong (MemTotalMiB m)))) as Hm.
  pose proof (llong_of_double_range
                (PrimFloat.mul
                   (PrimFloat.mul (PrimFloat.sub (SwapFreePercent m)
                                     (swap_term_percent args)) 10%float)
                   (double_of_llong (SwapTotalMiB m)))) as Hs.
  fold (mem_headroom_kib args m) in Hm. fold (swap_headroom_kib args m) in Hs.
  cbv zeta.
  set (hm := mem_headroom_kib args m) in *. set (hs := swap_headroom_kib args m) in *.
  unfold in_llong, LLONG_MIN, LLONG_MAX in Hm, Hs.
  replace (if hm <? 0 then 0 else hm) with (Z.max 0 hm) by (destruct (Z.ltb_spec hm 0); lia).
  replace (if hs <? 0 then 0 else hs) with (Z.max 0 hs) by (destruct (Z.ltb_spec hs 0); lia).
  unfold mem_fill_rate, swap_fill_rate, min_sleep, max_sleep.
  rewrite !Z.quot_div_nonneg by lia.
  assert (Bm : 0 <= Z.max 0 hm / 6000 <= Z.max 0 hm).
  { split; [apply Z.div_pos; lia | apply Z.div_le_upper_bound; lia]. }
  assert (Bs : 0 <= Z.max 0 hs / 800 <= Z.max 0 hs).
  { split; [apply Z.div_pos; lia | apply Z.div_le_upper_bound; lia]. }
  assert (Bm' : Z.max 0 hm / 6000 <= 2 ^ 62).
  { apply Z.div_le_upper_bound; simpl in *; lia. }
  assert (Bs' : Z.max 0 hs / 800 <= 2 ^ 62 - 1).
  { apply Z.lt_succ_r. apply Z.div_lt_upper_bound; simpl in *; lia. }
  rewrite to_llong_small by (unfold in_llong, LLONG_MIN, LLONG_MAX; simpl in *; lia).
  set (ms := Z.max 0 hm / 6000 + Z.max 0 hs / 800) in *.
  destruct (Z.ltb_spec ms 100); [lia |].
  destruct (ms >? 1000) eqn:G.
  - apply Z.gtb_lt in G. lia.
  - assert (ms <= 1000) by (rewrite Z.gtb_ltb in G; apply Z.ltb_ge in G; lia).
    rewrite to_uint_small by (simpl; lia). lia.
Qed.

Lemma sleep_time_ms_bounds (args : poll_loop_args_t) (m : meminfo_t) :
  100 <= sleep_time_ms args m <= 1000.
Proof. rewrite sleep_time_ms_eq_spec. apply adaptive_sleep_spec_bounds. Qed.

(** C9.  Whatever the thresholds and the memory snapshot, [sleep_time_ms]
    returns a value in [100, 1000]; that value is the clamp to [100, 1000] of
    [headroom_mem_kib / 6000 + headroom_swap_kib / 800] with both headrooms
    floored at 0; and it is monotonically non-decreasing in each of the two
    headroom values (the other one not decreasing either). *)
Theorem sleep_time_ms_adaptive (args : poll_loop_args_t) (m : meminfo_t) :
  100 <= sleep_time_ms args m <= 1000
  /\ sleep_time_ms args m
     = adaptive_sleep_spec (mem_headroom_kib args m) (swap_headroom_kib args m)
  /\ (forall (args' : poll_loop_args_t) (m' : meminfo_t),
        mem_headroom_kib args m <= mem_headroom_kib args' m' ->
        swap_headroom_kib args m <= swap_headroom_kib args' m' ->
        sleep_time_ms args m <= sleep_time_ms args' m').
Proof.
  split; [| split].
  - apply sleep_time_ms_bounds.
  - apply sleep_time_ms_eq_spec.
  - intros args' m' Hm Hs. rewrite !sleep_time_ms_eq_spec.
    apply adaptive_sleep_spec_mono; assumption.
Qed.

Lemma sleep_time_ms_adaptive_witness :
  sleep_time_ms default_args (meminfo_at 12.5 10)
  <= sleep_time_ms default_args (meminfo_at 60 80).
Proof.
  apply (proj2 (proj2 (sleep_time_ms_adaptive default_args (meminfo_at 12.5 10)))
           default_args (meminfo_at 60 80));
    vm_compute; discriminate.
Defined.

(** ** The states the loop can be in *)

Ltac break_if :=
  match goal with
  | |- context [if ?c then _ else _] =>
      lazymatch c with
      | context [if _ then _ else _] => fail
      | _ => destruct c eqn:?
      end
  end.

Lemma decide_sig (args : poll_loop_args_t) (st : loop_state) (m : meminfo_t) :
  loop_invariant st ->
  (d_sig (decide args st m) = 0 \/ d_sig (decide args st m) = SIGTERM
   \/ d_sig (decide args st m) = SIGKILL)
  /\ (d_hystis (decide args st m) = 0 \/ d_hystis (decide args st m) = SIGTERM
      \/ d_hystis (decide args st m) = SIGKILL).
Proof.
  intros [_ Hh]. unfold decide. repeat break_if; simpl; auto.
Qed.

Lemma poll_loop_iter_invariant (args : poll_loop_args_t) (w : iter_world) (st : loop_state) :
  loop_invariant st -> loop_invariant (fst (poll_loop_iter args w st)).
Proof.
  intros Hinv. pose proof (decide_sig args st (w_meminfo w) Hinv) as [Hs Hd].
  destruct Hinv as [Hf Hh].
  unfold poll_loop_iter. cbv zeta.
  destruct (negb (d_sig (decide args st (w_meminfo w)) =? 0)) eqn:Es.
  - destruct (d_emergency_invoked (decide args st (w_meminfo w))) eqn:Ee;
      simpl; split; auto.
  - assert (Ef : d_emergency_invoked (decide args st (w_meminfo w)) = false).
    { apply negb_false_iff, Z.eqb_eq in Es. revert Es. unfold decide.
      repeat break_if; simpl; auto; unfold SIGKILL, SIGTERM; try discriminate. }
    break_if; simpl; split; auto.
Qed.

Lemma reachable_invariant (args : poll_loop_args_t) (st : loop_state) :
  reachable args st -> loop_invariant st.
Proof.
  induction 1 as [g | st w _ IH].
  - split; [reflexivity | left; reflexivity].
  - apply poll_loop_iter_invariant. exact IH.
Qed.

(** ** C2: the priority of the actions *)

Lemma hystis_set_gt (st : loop_state) :
  loop_invariant st -> negb (hystis st =? 0) = (hystis st >? 0).
Proof.
  intros [_ [H | [H | H]]]; rewrite H; reflexivity.
Qed.

(** C2.  In every iteration of the control loop (any state the loop can
    reach, any memory snapshot) the action is the first match of the fixed
    list emergency, kill, term, hysteresis, and idle when none matches; the
    iteration's signal, its use of the emergency path, its [high] mark and
    the hysteresis signal it leaves are the ones that action prescribes. *)
Theorem poll_loop_iter_priority (args : poll_loop_args_t) (st : loop_state) (w : iter_world) :
  reachable args st ->
  action_outcome (spec_action args st (w_meminfo w)) st
    (fst (poll_loop_iter args w st)) (snd (poll_loop_iter args w st)).
Proof.
  intros Hr. apply reachable_invariant in Hr.
  pose proof (hystis_set_gt st Hr) as Hg. destruct Hr as [Hf Hh].
  unfold spec_action, first_match, poll_loop_iter, decide, at_or_below.
  rewrite Hg, Hf. cbv zeta.
  destruct (is_set (emerg_kill args)); destruct (emergency_timeout_ms st <=? 0);
    destruct (dle (MemAvailablePercent (w_meminfo w)) (mem_emerg_percent args));
    destruct (dle (SwapFreePercent (w_meminfo w)) (swap_kill_percent args));
    destruct (dle (MemAvailablePercent (w_meminfo w)) (mem_kill_percent args));
    destruct (dle (MemAvailablePercent (w_meminfo w)) (mem_term_percent args));
    destruct (dle (SwapFreePercent (w_meminfo w)) (swap_term_percent args));
    destruct (dle (MemAvailablePercent (w_meminfo w)) (mem_high_percent args));
    cbn [andb orb negb d_sig d_emergency_invoked d_high d_hystis d_setpoint];
    try (cbn; repeat split; reflexivity);
    destruct Hh as [Hh | [Hh | Hh]]; rewrite Hh; cbn;
    repeat break_if; cbn; repeat split; first [reflexivity | symmetry; exact Hh].
Qed.

(** Scenario 3 of the specification (memory 4 %, swap 3 %) from the initial
    state: the kill rule is the first match. *)
Lemma poll_loop_iter_priority_witness :
  action_outcome Kill (loop_init 0)
    (fst (poll_loop_iter default_args (world_of [] (meminfo_at 4 3)) (loop_init 0)))
    (snd (poll_loop_iter default_args (world_of [] (meminfo_at 4 3)) (loop_init 0))).
Proof.
  exact (poll_loop_iter_priority default_args (loop_init 0)
           (world_of [] (meminfo_at 4 3)) (reachable_init default_args 0)).
Defined.

Arguments to_int : simpl never.
Arguments to_uint : simpl never.
Arguments to_llong : simpl never.
Arguments sleep_time_ms : simpl never.
Arguments kill_largest_process : simpl never.
Arguments kill_emergency : simpl never.

(** ** C8: the sleep after a kill *)

Lemma decide_keeps_hystis (args : poll_loop_args_t) (st : loop_state) (m : meminfo_t) :
  d_sig (decide args st m) <> 0 -> d_hystis (decide args st m) = hystis st.
Proof.
  unfold decide. repeat break_if; simpl; intros H; try reflexivity.
  contradiction H. reflexivity.
Qed.

(** C8, as the code has it.  On the non-emergency kill path the sleep is
    50 ms when the signal stored by the previous kill ([hystis], read before
    it is overwritten with this iteration's signal) is SIGKILL, and 500 ms
    otherwise; the loop then sleeps exactly that long. *)
Theorem kill_path_sleep (args : poll_loop_args_t) (st : loop_state) (w : iter_world) :
  kill_path (snd (poll_loop_iter args w st)) ->
  sleep_ms (fst (poll_loop_iter args w st)) = (if hystis st =? SIGKILL then 50 else 500)
  /\ it_usleep (snd (poll_loop_iter args w st))
     = 1000 * sleep_ms (fst (poll_loop_iter args w st)).
Proof.
  unfold kill_path. pose proof (decide_keeps_hystis args st (w_meminfo w)) as Hk.
  unfold poll_loop_iter. cbv zeta.
  destruct (negb (d_sig (decide args st (w_meminfo w)) =? 0)) eqn:Es.
  - destruct (d_emergency_invoked (decide args st (w_meminfo w))) eqn:Ee; cbn.
    + intros [_ H]. discriminate H.
    + intros [Hs _]. rewrite (Hk Hs).
      destruct (hystis st =? SIGKILL); split; reflexivity.
  - apply negb_false_iff, Z.eqb_eq in Es.
    break_if; cbn; intros [Hs _]; contradiction.
Qed.

(** Second SIGKILL in a row: 50 ms. *)
Lemma kill_path_sleep_witness :
  sleep_ms (fst (poll_loop_iter default_args (world_of [] (meminfo_at 4 3))
                   (fst (poll_loop_iter default_args (world_of [] (meminfo_at 4 3))
                           (loop_init 0))))) = 50
  /\ it_usleep (snd (poll_loop_iter default_args (world_of [] (meminfo_at 4 3))
                       (fst (poll_loop_iter default_args (world_of [] (meminfo_at 4 3))
                               (loop_init 0))))) = 1000 * 50.
Proof.
  apply (kill_path_sleep default_args
           (fst (poll_loop_iter default_args (world_of [] (meminfo_at 4 3)) (loop_init 0)))
           (world_of [] (meminfo_at 4 3))).
  split; [vm_compute; discriminate | vm_compute; reflexivity].
Defined.

(** Scenario 3 of the specification, run on the code: from the initial state
    (no hysteresis), memory 4 % and swap 3 % choose SIGKILL on the
    non-emergency path, and the loop then sleeps 500 ms, not 50 ms. *)
Lemma direct_sigkill_sleeps_500 :
  hystis (loop_init 0) = 0
  /\ it_sig (snd (poll_loop_iter default_args (world_of [] (meminfo_at 4 3)) (loop_init 0)))
     = SIGKILL
  /\ it_emergency (snd (poll_loop_iter default_args (world_of [] (meminfo_at 4 3)) (loop_init 0)))
     = false
  /\ sleep_ms (fst (poll_loop_iter default_args (world_of [] (meminfo_at 4 3)) (loop_init 0)))
     = 500
  /\ it_usleep (snd (poll_loop_iter default_args (world_of [] (meminfo_at 4 3)) (loop_init 0)))
     = 500000.
Proof. repeat split; vm_compute; reflexivity. Qed.

(** ** C10: an idle iteration that prints no report keeps [sleep_ms] *)

Lemma idle_iteration_frame (args : poll_loop_args_t) (st : loop_state) (w : iter_world) :
  idle_without_report args st (snd (poll_loop_iter args w st)) ->
  sleep_ms (fst (poll_loop_iter args w st)) = sleep_ms st
  /\ it_usleep (snd (poll_loop_iter args w st)) = to_uint (sleep_ms st * 1000).
Proof.
  unfold idle_without_report, poll_loop_iter. cbv zeta.
  destruct (negb (d_sig (decide args st (w_meminfo w)) =? 0)) eqn:Es.
  - apply negb_true_iff, Z.eqb_neq in Es.
    break_if; cbn; intros [Hs _]; contradiction.
  - destruct (negb (report_interval_ms args =? 0) && (report_countdown_ms st <=? 0)) eqn:Er.
    + apply andb_true_iff in Er. destruct Er as [Er1 Er2].
      apply negb_true_iff, Z.eqb_neq in Er1. apply Z.leb_le in Er2.
      intros [_ [H | H]]; [contradiction | lia].
    + cbn. intros _. split; reflexivity.
Qed.

(** With periodic reporting disabled, a run of idle iterations sleeps the
    same [sleep_ms] throughout: the one the state held when the run began. *)
Lemma idle_run_frame (args : poll_loop_args_t) (ws : list iter_world) (st : loop_state) :
  report_interval_ms args = 0 ->
  Forall (fun r => it_sig r = 0) (snd (poll_loop args ws st)) ->
  sleep_ms (fst (poll_loop args ws st)) = sleep_ms st
  /\ Forall (fun r => it_usleep r = to_uint (sleep_ms st * 1000)) (snd (poll_loop args ws st)).
Proof.
  intros Hrep. revert st. induction ws as [| w ws IH]; intros st Hidle.
  - split; [reflexivity | constructor].
  - simpl in *.
    pose proof (idle_iteration_frame args st w) as Hf.
    destruct (poll_loop_iter args w st) as [st1 r] eqn:E1.
    specialize (IH st1).
    destruct (poll_loop args ws st1) as [st2 rs] eqn:E2.
    simpl in *. inversion Hidle as [| r' rs' Hr Hrs]; subst.
    destruct Hf as [Hs Hu]; [split; [assumption | left; assumption] |].
    destruct (IH Hrs) as [IH1 IH2]. rewrite Hs in IH1, IH2.
    split; [assumption | constructor; assumption].
Qed.

(** C10.  (1) An iteration that chooses no signal and does not take the
    periodic-report branch leaves [sleep_ms] as the previous iteration left
    it and sleeps that value, whatever [sleep_time_ms] would have returned
    for the snapshot.  (2) With periodic reporting disabled, every iteration
    of an idle stretch therefore sleeps what the state held when the stretch
    began, i.e. what the last kill iteration assigned.  (3) When the stretch
    begins at the entry of the loop, that is the indeterminate content of the
    uninitialised variable. *)
Theorem idle_iteration_keeps_sleep_ms (args : poll_loop_args_t) :
  (forall (st : loop_state) (w : iter_world),
      idle_without_report args st (snd (poll_loop_iter args w st)) ->
      sleep_ms (fst (poll_loop_iter args w st)) = sleep_ms st
      /\ it_usleep (snd (poll_loop_iter args w st)) = to_uint (sleep_ms st * 1000))
  /\ (forall (st : loop_state) (ws : list iter_world),
        report_interval_ms args = 0 ->
        Forall (fun r => it_sig r = 0) (snd (poll_loop args ws st)) ->
        sleep_ms (fst (poll_loop args ws st)) = sleep_ms st
        /\ Forall (fun r => it_usleep r = to_uint (sleep_ms st * 1000))
             (snd (poll_loop args ws st)))
  /\ (forall (indeterminate : Z) (ws : list iter_world),
        report_interval_ms args = 0 ->
        Forall (fun r => it_sig r = 0) (snd (poll_loop args ws (loop_init indeterminate))) ->
        Forall (fun r => it_usleep r = to_uint (indeterminate * 1000))
          (snd (poll_loop args ws (loop_init indeterminate)))).
Proof.
  split; [| split].
  - intros st w. apply idle_iteration_frame.
  - intros st ws. apply idle_run_frame.
  - intros g ws Hrep Hidle.
    exact (proj2 (idle_run_frame args ws (loop_init g) Hrep Hidle)).
Qed.

Lemma idle_iteration_keeps_sleep_ms_witness :
  Forall (fun r => it_usleep r = to_uint (777 * 1000))
    (snd (poll_loop quiet_args [calm; calm] (loop_init 777))).
Proof.
  apply (proj2 (proj2 (idle_iteration_keeps_sleep_ms quiet_args)) 777 [calm; calm]).
  - reflexivity.
  - vm_compute. repeat constructor.
Defined.

(** With [-r 0] the first iteration of a calm host sleeps the indeterminate
    777 ms although [sleep_time_ms] would give 1000 ms; after one SIGKILL
    iteration (500 ms) the idle iterations that follow sleep 500 ms. *)
Example idle_sleep_is_stale :
  sleep_time_ms quiet_args (w_meminfo calm) = 1000
  /\ map it_usleep (snd (poll_loop quiet_args [calm] (loop_init 777))) = [777000]
  /\ map it_usleep
       (snd (poll_loop quiet_args [world_of [] (meminfo_at 4 3); calm; calm] (loop_init 777)))
     = [500000; 500000; 500000].
Proof. repeat split; vm_compute; reflexivity. Qed.

(** ** C7: the emergency debounce *)

Lemma decide_emergency (args : poll_loop_args_t) (st : loop_state) (m : meminfo_t) :
  emergency_invoked st = false ->
  d_emergency_invoked (decide args st m) = true ->
  emergency_timeout_ms st <= 0 /\ d_sig (decide args st m) = SIGKILL.
Proof.
  intros Hf. unfold decide.
  destruct (is_set (emerg_kill args)); destruct (emergency_timeout_ms st <=? 0) eqn:Et;
    cbn [andb]; repeat break_if; cbn; rewrite ?Hf; try discriminate;
    intros _; apply Z.leb_le in Et; auto.
Qed.

Lemma it_emergency_fires (args : poll_loop_args_t) (st : loop_state) (w : iter_world) :
  emergency_invoked st = false ->
  it_emergency (snd (poll_loop_iter args w st)) = true ->
  emergency_timeout_ms st <= 0.
Proof.
  intros Hf. pose proof (decide_emergency args st (w_meminfo w) Hf) as Hd.
  unfold poll_loop_iter. cbv zeta.
  destruct (negb (d_sig (decide args st (w_meminfo w)) =? 0)).
  - destruct (d_emergency_invoked (decide args st (w_meminfo w))); cbn.
    + intros _. apply Hd. reflexivity.
    + discriminate.
  - break_if; cbn; discriminate.
Qed.

Lemma debounce_arith (sleep timeout acc : Z) :
  50 <= sleep <= 2000 ->
  timeout <= EMERGENCY_TIMEOUT ->
  1000 * EMERGENCY_TIMEOUT <= acc + 1000 * Z.max 0 timeout ->
  (if timeout >? 0 then to_int (timeout - to_int sleep) else timeout) <= EMERGENCY_TIMEOUT
  /\ 1000 * EMERGENCY_TIMEOUT
     <= acc + to_uint (sleep * 1000)
        + 1000 * Z.max 0 (if timeout >? 0 then to_int (timeout - to_int sleep) else timeout).
Proof.
  unfold EMERGENCY_TIMEOUT. intros Hs Ht Ha.
  rewrite (to_int_small sleep) by (unfold in_int, INT_MIN, INT_MAX; simpl; lia).
  rewrite (to_uint_small (sleep * 1000)) by (simpl; lia).
  destruct (timeout >? 0) eqn:G.
  - apply Z.gtb_lt in G.
    rewrite to_int_small by (unfold in_int, INT_MIN, INT_MAX; simpl; lia). lia.
  - lia.
Qed.

Lemma decide_idle_flag (args : poll_loop_args_t) (st : loop_state) (m : meminfo_t) :
  d_sig (decide args st m) = 0 ->
  d_emergency_invoked (decide args st m) = emergency_invoked st.
Proof.
  unfold decide. repeat break_if; cbn; unfold SIGKILL, SIGTERM; try discriminate; reflexivity.
Qed.

Lemma debounced_step (args : poll_loop_args_t) (w : iter_world) (st : loop_state) (acc : Z) :
  debounced st acc ->
  debounced (fst (poll_loop_iter args w st))
    (acc + it_usleep (snd (poll_loop_iter args w st))).
Proof.
  intros (Hf & Hs & Ht & Ha).
  pose proof (decide_idle_flag args st (w_meminfo w)) as Hflag.
  pose proof (sleep_time_ms_bounds args (w_meminfo w)) as Hsl.
  assert (Hacc : 0 <= acc) by (unfold EMERGENCY_TIMEOUT in *; lia).
  unfold debounced, poll_loop_iter. cbv zeta.
  destruct (negb (d_sig (decide args st (w_meminfo w)) =? 0)) eqn:Es.
  - destruct (d_emergency_invoked (decide args st (w_meminfo w))) eqn:Ee;
      cbn [fst snd sleep_ms emergency_invoked emergency_timeout_ms it_usleep].
    + split; [reflexivity |]. split; [lia |].
      apply debounce_arith; unfold EMERGENCY_TIMEOUT in *; lia.
    + split; [reflexivity |].
      split; [destruct (d_hystis (decide args st (w_meminfo w)) =? SIGKILL); lia |].
      apply debounce_arith; try assumption.
      destruct (d_hystis (decide args st (w_meminfo w)) =? SIGKILL); lia.
  - apply negb_false_iff, Z.eqb_eq in Es. rewrite (Hflag Es), Hf.
    destruct (negb (report_interval_ms args =? 0) && (report_countdown_ms st <=? 0));
      cbn [fst snd sleep_ms emergency_invoked emergency_timeout_ms it_usleep].
    + split; [reflexivity |]. split; [lia |].
      apply debounce_arith; try assumption. lia.
    + split; [reflexivity |]. split; [lia |].
      apply debounce_arith; assumption.
Qed.

Lemma emergency_arms (args : poll_loop_args_t) (w : iter_world) (st : loop_state) :
  it_emergency (snd (poll_loop_iter args w st)) = true ->
  debounced (fst (poll_loop_iter args w st)) (it_usleep (snd (poll_loop_iter args w st))).
Proof.
  unfold debounced, poll_loop_iter. cbv zeta.
  destruct (negb (d_sig (decide args st (w_meminfo w)) =? 0)).
  - destruct (d_emergency_invoked (decide args st (w_meminfo w))); cbn.
    + intros _. vm_compute. repeat split; discriminate.
    + discriminate.
  - break_if; cbn; discriminate.
Qed.

Lemma debounced_run (args : poll_loop_args_t) (ws : list iter_world) (st : loop_state)
  (acc : Z) :
  debounced st acc ->
  debounced (fst (poll_loop args ws st)) (acc + slept_usec (snd (poll_loop args ws st))).
Proof.
  revert st acc. induction ws as [| w ws IH]; intros st acc H.
  - simpl. rewrite Z.add_0_r. exact H.
  - simpl. pose proof (debounced_step args w st acc H) as H1.
    destruct (poll_loop_iter args w st) as [st1 r].
    specialize (IH st1 (acc + it_usleep r) H1).
    destruct (poll_loop args ws st1) as [st2 rs].
    simpl in *. rewrite Z.add_assoc. exact IH.
Qed.

(** C7.  Take any iteration in which the emergency action fires, followed by
    any number of iterations under any memory readings and any [/proc]
    contents.  If the emergency action fires again in the iteration after
    those, then the loop's own sleeps, from the one that ends the first
    emergency iteration to the one just before the second, add up to at
    least 30000 ms. *)
Theorem emergency_debounce (args : poll_loop_args_t) (st : loop_state)
  (w : iter_world) (ws : list iter_world) (w' : iter_world) :
  it_emergency (snd (poll_loop_iter args w st)) = true ->
  it_emergency
    (snd (poll_loop_iter args w'
            (fst (poll_loop args ws (fst (poll_loop_iter args w st)))))) = true ->
  1000 * EMERGENCY_TIMEOUT
  <= it_usleep (snd (poll_loop_iter args w st))
     + slept_usec (snd (poll_loop args ws (fst (poll_loop_iter args w st)))).
Proof.
  intros H1 H2.
  pose proof (emergency_arms args w st H1) as Harm.
  pose proof (debounced_run args ws _ _ Harm) as (Hf & _ & _ & Ha).
  pose proof (it_emergency_fires args _ w' Hf H2) as Ht.
  rewrite Z.max_l in Ha by exact Ht. lia.
Qed.

Lemma emergency_debounce_witness :
  1000 * EMERGENCY_TIMEOUT
  <= it_usleep (snd (poll_loop_iter (emerg_args false) crisis (loop_init 0)))
     + slept_usec
         (snd (poll_loop (emerg_args false) (repeat calm 28)
                 (fst (poll_loop_iter (emerg_args false) crisis (loop_init 0))))).
Proof.
  apply (emergency_debounce (emerg_args false) (loop_init 0) crisis (repeat calm 28) crisis);
    vm_compute; reflexivity.
Defined.

(** The bound is met exactly: 2000 ms after the emergency and 28 idle sleeps
    of 1000 ms re-arm it, one idle sleep fewer does not, whatever the
    readings. *)
Example emergency_debounce_tight :
  it_emergency
    (snd (poll_loop_iter (emerg_args false) crisis
            (fst (poll_loop (emerg_args false) (repeat calm 28)
                    (fst (poll_loop_iter (emerg_args false) crisis (loop_init 0)))))))
  = true
  /\ it_emergency
       (snd (poll_loop_iter (emerg_args false) crisis
               (fst (poll_loop (emerg_args false) (repeat calm 27)
                       (fst (poll_loop_iter (emerg_args false) crisis (loop_init 0)))))))
     = false.
Proof. split; vm_compute; reflexivity. Qed.

(** ** C6: dry run *)

Lemma kill_wait_dryrun (args : poll_loop_args_t) (w : kw_world) (pid sig : Z) :
  dryrun args = true ->
  filter delivers_signal (snd (kill_wait args w pid sig)) = [].
Proof.
  intros Hd. unfold kill_wait. rewrite Hd.
  destruct (Z.eqb_spec sig 0) as [E | E]; simpl.
  - subst sig. destruct (kw_kill0 w); reflexivity.
  - reflexivity.
Qed.

Lemma filter_delivers_notify (args : poll_loop_args_t) (n : notification) :
  filter delivers_signal (notify_events args n) = [].
Proof. unfold notify_events. destruct (notify args); reflexivity. Qed.

(** X3.  The ordinary kill path honours [--dryrun]: whatever the scan finds
    and whatever signal is asked for, [kill_largest_process] delivers none. *)
Theorem kill_largest_process_dryrun (args : poll_loop_args_t) (w : klp_world) (sig : Z) :
  dryrun args = true ->
  filter delivers_signal (kill_largest_process args w sig) = [].
Proof.
  intros Hd. unfold kill_largest_process. cbv zeta.
  match goal with |- context [if pid ?v <=? 0 then _ else _] => set (vic := v) end.
  destruct (pid vic <=? 0).
  - rewrite filter_app, filter_delivers_notify. reflexivity.
  - pose proof (kill_wait_dryrun args (klp_kill_wait w) (pid vic) sig Hd) as Hk.
    destruct (kill_wait args (klp_kill_wait w) (pid vic) sig) as [res sent].
    simpl in Hk. rewrite !filter_app, Hk.
    destruct (sig =? 0); simpl.
    + reflexivity.
    + rewrite filter_delivers_notify. destruct res as [| e]; simpl; [reflexivity |].
      rewrite filter_app, filter_delivers_notify. destruct (e =? EPERM); reflexivity.
Qed.

Lemma kill_largest_process_dryrun_witness :
  filter delivers_signal
    (kill_largest_process (emerg_args true) (w_largest crisis) SIGKILL) = [].
Proof.
  apply (kill_largest_process_dryrun (emerg_args true) (w_largest crisis) SIGKILL).
  reflexivity.
Defined.

(** C6 on the code.  With [--dryrun] set, scenario 5 of the specification
    takes the emergency path, and [kill_emergency] sends SIGKILL to both
    listed processes. *)
Lemma dryrun_emergency_delivers_sigkill :
  dryrun (emerg_args true) = true
  /\ it_emergency (snd (poll_loop_iter (emerg_args true) crisis (loop_init 0))) = true
  /\ filter delivers_signal
       (iter_trace (snd (poll_loop_iter (emerg_args true) crisis (loop_init 0))))
     = [EvKill 42 SIGKILL; EvKill 43 SIGKILL].
Proof. repeat split; vm_compute; reflexivity. Qed.

(** ** C4: the badness of a candidate *)

Lemma to_int_range (x : Z) : in_int (to_int x).
Proof.
  unfold in_int, INT_MIN, INT_MAX, to_int, wrap_signed.
  pose proof (Z.mod_pos_bound (x + 2 ^ (32 - 1)) (2 ^ 32) ltac:(reflexivity)) as H.
  change (2 ^ (32 - 1)) with 2147483648 in *. change (2 ^ 32) with 4294967296 in *.
  change (2 ^ 31) with 2147483648. lia.
Qed.

Lemma substring_all (s : string) (n : nat) :
  (String.length s <= n)%nat -> substring 0 n s = s.
Proof.
  revert n. induction s as [| c s IH]; intros [| n] H; simpl in *; try reflexivity.
  - lia.
  - f_equal. apply IH. lia.
Qed.

#[local] Instance eqm32_equiv : Equivalence eqm32.
Proof. unfold eqm32. split; congruence. Qed.

#[local] Instance eqm32_add : Proper (eqm32 ==> eqm32 ==> eqm32) Z.add.
Proof.
  intros a a' Ha b b' Hb. unfold eqm32 in *.
  rewrite Zplus_mod, Ha, Hb, <- Zplus_mod. reflexivity.
Qed.

Lemma to_int_eqm (x : Z) : eqm32 (to_int x) x.
Proof.
  unfold eqm32, to_int, wrap_signed. rewrite Zminus_mod_idemp_l. f_equal.
  change (32 - 1) with 31. ring.
Qed.

Lemma to_int_congr (a b : Z) : eqm32 a b -> to_int a = to_int b.
Proof.
  intros H. unfold to_int, wrap_signed. f_equal.
  apply (eqm32_add a b H (2 ^ (32 - 1)) (2 ^ (32 - 1))). reflexivity.
Qed.

Lemma wraps_to_eq (b x : Z) : wraps_to b x -> b = to_int x.
Proof.
  intros [He Hr]. rewrite <- (to_int_small b Hr). apply to_int_congr. exact He.
Qed.

Lemma wraps_to_bump (b x k : Z) (c : bool) :
  wraps_to b x ->
  wraps_to (if c then to_int (b + k) else b) (x + (if c then k else 0)).
Proof.
  intros [He Hr]. destruct c.
  - split; [| apply to_int_range]. rewrite to_int_eqm, He. reflexivity.
  - split; [| exact Hr]. rewrite He. unfold eqm32. f_equal. ring.
Qed.

Lemma read_oom_score_badness (args : poll_loop_args_t) (d : dirent) (cur : procinfo) :
  0 <= oom_score d <= INT_MAX ->
  0 <= fst (oom_score_adj d) ->
  exists cur1 : procinfo,
    read_oom_score args d cur = Some cur1
    /\ wraps_to (badness cur1)
         (oom_score d
          - (if ignore_oom_score_adj args && (snd (oom_score_adj d) >? 0)
             then snd (oom_score_adj d) else 0)).
Proof.
  intros Hs Ha. unfold read_oom_score. cbv zeta.
  destruct (Z.ltb_spec (oom_score d) 0) as [Hlt | _]; [lia |].
  assert (Hw : wraps_to (oom_score d) (oom_score d)).
  { split; [reflexivity | unfold in_int, INT_MIN; simpl; lia]. }
  destruct (ignore_oom_score_adj args); cbn [andb].
  - destruct (oom_score_adj d) as [res adj]. cbn [fst snd] in *.
    destruct (Z.ltb_spec res 0) as [Hlt | _]; [lia |].
    destruct (adj >? 0); eexists; (split; [reflexivity |]); cbn [badness set_badness].
    + split; [| apply to_int_range]. apply to_int_eqm.
    + replace (oom_score d - 0) with (oom_score d) by ring. exact Hw.
  - eexists. split; [reflexivity |]. cbn [badness set_badness].
    replace (oom_score d - 0) with (oom_score d) by ring. exact Hw.
Qed.

Lemma read_times_badness (args : poll_loop_args_t) (d : dirent) (cur : procinfo) :
  badness (read_times args d cur) = badness cur.
Proof. unfold read_times. break_if; reflexivity. Qed.

Lemma apply_name_rules_badness (args : poll_loop_args_t) (d : dirent) (cur : procinfo)
  (x : Z) :
  0 <= fst (comm d) ->
  valid (process_times d) = true ->
  wraps_to (badness cur) x ->
  exists cur1 : procinfo,
    apply_name_rules args d cur = Some cur1
    /\ wraps_to (badness cur1)
         (x + (if regex_matches (prefer_regex args) (snd (comm d)) then 300 else 0)
            + (if regex_matches (avoid_regex args) (snd (comm d)) then -300 else 0)
            + (if regex_matches (prefer_old args) (snd (comm d))
               then Z.quot (c_runtime (process_times d)) 600 else 0)).
Proof.
  intros Hc Hv Hw. unfold apply_name_rules. rewrite Hv.
  destruct (comm d) as [res out]. cbn [fst snd] in *.
  destruct (Z.ltb_spec res 0) as [Hlt | _]; [lia |].
  pose proof (wraps_to_bump _ _ BADNESS_PREFER
                (regex_matches (prefer_regex args) out) Hw) as H1.
  pose proof (wraps_to_bump _ _ BADNESS_AVOID
                (regex_matches (avoid_regex args) out) H1) as H2.
  pose proof (wraps_to_bump _ _
                (to_int (Z.quot (c_runtime (process_times d)) BADNESS_AGE_DIV))
                (regex_matches (prefer_old args) out) H2) as H3.
  assert (H4 : wraps_to
                 (if regex_matches (prefer_old args) out
                  then to_int
                         ((if regex_matches (avoid_regex args) out
                           then to_int
                                  ((if regex_matches (prefer_regex args) out
                                    then to_int (badness cur + BADNESS_PREFER)
                                    else badness cur) + BADNESS_AVOID)
                           else
                             if regex_matches (prefer_regex args) out
                             then to_int (badness cur + BADNESS_PREFER)
                             else badness cur)
                          + to_int (Z.quot (c_runtime (process_times d)) BADNESS_AGE_DIV))
                  else
                    if regex_matches (avoid_regex args) out
                    then to_int
                           ((if regex_matches (prefer_regex args) out
                             then to_int (badness cur + BADNESS_PREFER)
                             else badness cur) + BADNESS_AVOID)
                    else
                      if regex_matches (prefer_regex args) out
                      then to_int (badness cur + BADNESS_PREFER)
                      else badness cur)
                 (x + (if regex_matches (prefer_regex args) out then 300 else 0)
                    + (if regex_matches (avoid_regex args) out then -300 else 0)
                    + (if regex_matches (prefer_old args) out
                       then Z.quot (c_runtime (process_times d)) 600 else 0))).
  { destruct H3 as [He Hr]. split; [| exact Hr]. rewrite He.
    unfold BADNESS_PREFER, BADNESS_AVOID, BADNESS_AGE_DIV.
    destruct (regex_matches (prefer_old args) out); [| reflexivity].
    rewrite to_int_eqm. reflexivity. }
  clear H1 H2 H3.
  destruct (is_set (prefer_regex args) || is_set (avoid_regex args)
            || is_set (prefer_old args)) eqn:Eany.
  - rewrite andb_true_r. cbv zeta. cbn [name set_name].
    destruct (regex_matches (prefer_regex args) out); cbn [name set_name set_badness];
      destruct (regex_matches (avoid_regex args) out); cbn [name set_name set_badness];
      destruct (regex_matches (prefer_old args) out);
      cbn [name set_name set_badness badness];
      eexists; (split; [reflexivity |]); exact H4.
  - apply orb_false_iff in Eany. destruct Eany as [Eany Eo].
    apply orb_false_iff in Eany. destruct Eany as [Ep Ea].
    destruct (prefer_regex args); [discriminate |].
    destruct (avoid_regex args); [discriminate |].
    destruct (prefer_old args); [discriminate |].
    eexists. split; [reflexivity |]. exact H4.
Qed.

Lemma apply_user_rule_badness (args : poll_loop_args_t) (d : dirent) (cur : procinfo)
  (x : Z) (su : Z) (user : string) :
  stat_uid d = Some su ->
  pw_name d = Some user ->
  (String.length user < MAX_USERLEN)%nat ->
  wraps_to (badness cur) x ->
  exists cur1 : procinfo,
    apply_user_rule args d cur = Some cur1
    /\ wraps_to (badness cur1)
         (x + (if regex_matches (avoid_users args) user then -150 else 0)).
Proof.
  intros Hst Hpw Hlen Hw. unfold apply_user_rule. rewrite Hst, Hpw. cbv zeta.
  unfold strncpy. rewrite (substring_all user MAX_USERLEN) by lia.
  pose proof (wraps_to_bump _ _ BADNESS_AVOID_USER
                (regex_matches (avoid_users args) user) Hw) as H1.
  destruct (avoid_users args) as [re |]; cbn [regex_matches] in *.
  - cbn [username set_username]. destruct (re user);
      eexists; (split; [reflexivity |]); exact H1.
  - eexists. split; [reflexivity |]. exact H1.
Qed.

Lemma examine_badness_wrapped (args : poll_loop_args_t) (d : dirent) :
  isnumeric (d_name d) = true ->
  1 < pid (cur_init d) ->
  reads_succeed d = true ->
  exists cur : procinfo,
    examine args d = Some cur /\ wraps_to (badness cur) (spec_badness args d).
Proof.
  intros Hnum Hpid Hok.
  unfold reads_succeed in Hok.
  apply andb_true_iff in Hok; destruct Hok as [Hok Huser].
  apply andb_true_iff in Hok; destruct Hok as [Hok Hstat].
  apply andb_true_iff in Hok; destruct Hok as [Hok Hcomm].
  apply andb_true_iff in Hok; destruct Hok as [Hok Hvalid].
  apply andb_true_iff in Hok; destruct Hok as [Hok Hadj].
  apply andb_true_iff in Hok; destruct Hok as [Hlo Hhi].
  apply Z.leb_le in Hlo, Hhi, Hadj, Hcomm.
  destruct (pw_name d) as [user |] eqn:Epw; [| discriminate].
  destruct (stat_uid d) as [su |] eqn:Est; [| discriminate].
  apply Nat.ltb_lt in Huser.
  unfold examine, spec_badness. rewrite Hnum, Epw. cbn [negb]. cbv zeta.
  destruct (Z.leb_spec (pid (cur_init d)) 1) as [Hle | _]; [lia |].
  destruct (read_oom_score_badness args d (cur_init d) (conj Hlo Hhi) Hadj)
    as (c1 & E1 & W1).
  rewrite E1. rewrite <- (read_times_badness args d c1) in W1.
  destruct (apply_name_rules_badness args d _ _ Hcomm Hvalid W1) as (c3 & E3 & W3).
  rewrite E3.
  destruct (apply_user_rule_badness args d c3 _ su user Est Epw Huser W3) as (c4 & E4 & W4).
  exists c4. split; [exact E4 |].
  destruct W4 as [He Hr]. split; [| exact Hr]. rewrite He.
  unfold eqm32. f_equal. ring.
Qed.

(** C4.  For every [/proc] entry that the scan examines (a numeric name, a
    pid above 1) and whose per-PID reads all succeed, the badness the scan
    computes is [oom_score], minus [oom_score_adj] when [-i] is set and the
    adjustment is positive, plus 300 / -300 / -150 for a name matching
    [prefer_regex] / a name matching [avoid_regex] / an owner matching
    [avoid_users], plus [runtime / 600] for a name matching [prefer_old]:
    as a C [int], hence exactly that integer whenever it fits an [int]. *)
Theorem examine_badness (args : poll_loop_args_t) (d : dirent) :
  isnumeric (d_name d) = true ->
  1 < pid (cur_init d) ->
  reads_succeed d = true ->
  exists cur : procinfo,
    examine args d = Some cur
    /\ badness cur = to_int (spec_badness args d)
    /\ (in_int (spec_badness args d) -> badness cur = spec_badness args d).
Proof.
  intros Hnum Hpid Hok.
  destruct (examine_badness_wrapped args d Hnum Hpid Hok) as (cur & E & W).
  exists cur. split; [exact E |].
  pose proof (wraps_to_eq _ _ W) as Hb. split; [exact Hb |].
  intros Hfit. rewrite Hb. apply to_int_small. exact Hfit.
Qed.

Lemma examine_badness_witness :
  exists cur : procinfo,
    examine regex_args old_php = Some cur
    /\ badness cur = to_int (spec_badness regex_args old_php)
    /\ (in_int (spec_badness regex_args old_php) ->
        badness cur = spec_badness regex_args old_php).
Proof.
  apply (examine_badness regex_args old_php).
  - reflexivity.
  - vm_compute. reflexivity.
  - reflexivity.
Defined.

(** 200 - 50 + 300 + 7200 / 600 = 462. *)
Example examine_old_php :
  option_map badness (examine regex_args old_php) = Some 462
  /\ spec_badness regex_args old_php = 462.
Proof. split; vm_compute; reflexivity. Qed.

(** ** C1: the selection order *)

Lemma complete_fields (d : dirent) (cur c : procinfo) :
  complete d cur = Some c ->
  badness c = badness cur /\ VmRSSkiB c = vm_rss_kib d /\ 0 < VmRSSkiB c.
Proof.
  unfold complete. cbv zeta.
  destruct (Z.ltb_spec (vm_rss_kib d) 0); [discriminate |].
  cbn [VmRSSkiB set_VmRSSkiB].
  destruct (Z.eqb_spec (vm_rss_kib d) 0); [discriminate |].
  destruct (oom_score_adj_late d) as [res adj].
  destruct (res <? 0); [discriminate |]. destruct (adj =? -1000); [discriminate |].
  cbn [name set_VmRSSkiB].
  destruct (String.length (name cur) =? 0)%nat.
  - destruct (comm_late d) as [r out]. destruct (r <? 0); [discriminate |].
    destruct (proc_uid d <? 0); [discriminate |].
    intros E. injection E as <-. cbn. lia.
  - destruct (proc_uid d <? 0); [discriminate |].
    intros E. injection E as <-. cbn. lia.
Qed.

(** The lazy comparison of the source against the eager one: the running
    victim is replaced exactly by a surviving candidate that is greater in
    the lexicographic order. *)
Lemma consider_complete (d : dirent) (v cur : procinfo) :
  match complete d cur with
  | Some c => (lex_gt c v -> consider d v cur = c) /\ (~ lex_gt c v -> consider d v cur = v)
  | None => consider d v cur = v
  end.
Proof.
  pose proof (complete_fields d cur) as Hf.
  unfold consider, complete in *. cbv zeta in *.
  destruct (Z.ltb_spec (vm_rss_kib d) 0).
  { break_if; reflexivity. }
  cbn [VmRSSkiB set_VmRSSkiB badness] in *.
  destruct (Z.eqb_spec (vm_rss_kib d) 0).
  { break_if; reflexivity. }
  destruct (oom_score_adj_late d) as [res adj].
  destruct (res <? 0). { repeat break_if; reflexivity. }
  destruct (adj =? -1000). { repeat break_if; reflexivity. }
  cbn [name set_VmRSSkiB] in *.
  match goal with
  | |- match (match ?n with Some _ => _ | None => _ end) with _ => _ end =>
      destruct n as [c1 |] eqn:En
  end.
  2:{ repeat break_if; reflexivity. }
  destruct (proc_uid d <? 0). { repeat break_if; reflexivity. }
  destruct (Hf _ eq_refl) as (Hb & Hr & Hp).
  unfold lex_gt. rewrite Hb, Hr.
  destruct (Z.ltb_spec (badness cur) (badness v)).
  { split; intros; [lia | reflexivity]. }
  destruct (Z.eqb_spec (badness cur) (badness v));
    destruct (Z.leb_spec (vm_rss_kib d) (VmRSSkiB v)); cbn [andb];
    split; intros; first [reflexivity | lia | tauto].
Qed.

Lemma lex_gt_dec (a b : procinfo) : {lex_gt a b} + {~ lex_gt a b}.
Proof.
  unfold lex_gt.
  destruct (Z_gt_dec (badness a) (badness b)) as [H | H]; [left; lia |].
  destruct (Z.eq_dec (badness a) (badness b)) as [E | E]; [| right; lia].
  destruct (Z_gt_dec (VmRSSkiB a) (VmRSSkiB b)); [left; lia | right; lia].
Qed.

Lemma scan_step_victim (args : poll_loop_args_t) (st : scan_state) (d : dirent) :
  match survivor args d with
  | Some c =>
      (lex_gt c (victim st) -> victim (scan_step args st d) = c)
      /\ (~ lex_gt c (victim st) -> victim (scan_step args st d) = victim st)
  | None => victim (scan_step args st d) = victim st
  end.
Proof.
  unfold survivor, scan_step. destruct (examine args d) as [cur |]; [| reflexivity].
  cbn [victim]. apply consider_complete.
Qed.

(** The victim left by scanning [entries] from the running state [st]:
    either nothing beat [victim st], or the victim is the surviving candidate
    of one entry, greater than the initial victim and than every surviving
    candidate seen before it, and not exceeded by any seen after it. *)
Lemma scan_from_selects (args : poll_loop_args_t) (entries : list dirent) (st : scan_state) :
  let w := victim (fold_left (scan_step args) entries st) in
  (w = victim st
   /\ forall d c, In d entries -> survivor args d = Some c -> ~ lex_gt c (victim st))
  \/ (exists l1 d l2,
        entries = l1 ++ d :: l2
        /\ survivor args d = Some w
        /\ lex_gt w (victim st)
        /\ (forall d' b, In d' l1 -> survivor args d' = Some b -> lex_gt w b)
        /\ (forall d' b, In d' l2 -> survivor args d' = Some b -> ~ lex_gt b w)).
Proof.
  revert st. induction entries as [| d entries IH]; intros st; cbv zeta.
  - left. split; [reflexivity | intros d c []].
  - cbn [fold_left]. pose proof (scan_step_victim args st d) as Hstep.
    specialize (IH (scan_step args st d)). cbv zeta in IH.
    set (w := victim (fold_left (scan_step args) entries (scan_step args st d))) in *.
    destruct (survivor args d) as [c |] eqn:Ec.
    + destruct Hstep as [Hgt Hle].
      destruct (lex_gt_dec c (victim st)) as [G | G].
      * rewrite (Hgt G) in IH.
        destruct IH as [[Hw Hall] | (l1 & d0 & l2 & He & Hs & Hg & Hb & Ha)].
        -- right. exists [], d, entries. rewrite Hw.
           repeat split; auto. intros d' b [].
        -- right. exists (d :: l1), d0, l2. subst entries.
           repeat split; auto.
           ++ unfold lex_gt in *. lia.
           ++ intros d' b [<- | Hin] Hsb; [| eauto].
              rewrite Ec in Hsb. injection Hsb as <-. exact Hg.
      * rewrite (Hle G) in IH.
        destruct IH as [[Hw Hall] | (l1 & d0 & l2 & He & Hs & Hg & Hb & Ha)].
        -- left. split; [exact Hw |].
           intros d' b [<- | Hin] Hsb; [| eauto].
           rewrite Ec in Hsb. injection Hsb as <-. exact G.
        -- right. exists (d :: l1), d0, l2. subst entries.
           repeat split; auto.
           intros d' b [<- | Hin] Hsb; [| eauto].
           rewrite Ec in Hsb. injection Hsb as <-.
           unfold lex_gt in *. lia.
    + rewrite Hstep in IH.
      destruct IH as [[Hw Hall] | (l1 & d0 & l2 & He & Hs & Hg & Hb & Ha)].
      * left. split; [exact Hw |].
        intros d' b [<- | Hin] Hsb; [congruence | eauto].
      * right. exists (d :: l1), d0, l2. subst entries.
        repeat split; auto.
        intros d' b [<- | Hin] Hsb; [congruence | eauto].
Qed.

Lemma survivor_rss_positive (args : poll_loop_args_t) (d : dirent) (c : procinfo) :
  survivor args d = Some c -> 0 < VmRSSkiB c.
Proof.
  unfold survivor. destruct (examine args d) as [cur |]; [| discriminate].
  intros H. apply (complete_fields d cur c H).
Qed.

(** C1, as the code has it.  (1) A surviving candidate [c] replaces the
    running victim [v] iff [c.badness > v.badness], or the badnesses are
    equal and [c.VmRSSkiB > v.VmRSSkiB].  (2) The running victim of a scan
    starts as the all-zero record, so the rule of (1) applies to the first
    surviving candidate as well: it becomes the victim iff its badness is
    not negative.  (3) At the end of the scan, either no victim was chosen
    and every surviving candidate has a negative badness, or the victim is a
    surviving candidate of non-negative badness that is lexicographically
    greater in (badness, VmRSSkiB) than every surviving candidate seen
    before it and not exceeded by any seen after it: first seen wins ties. *)
Theorem scan_selects (args : poll_loop_args_t) (entries : list dirent) :
  (forall (st : scan_state) (d : dirent) (c : procinfo),
      survivor args d = Some c ->
      (lex_gt c (victim st) -> victim (scan_step args st d) = c)
      /\ (~ lex_gt c (victim st) -> victim (scan_step args st d) = victim st))
  /\ (forall (d : dirent) (c : procinfo),
        survivor args d = Some c ->
        (0 <= badness c -> victim (scan args [d]) = c)
        /\ (badness c < 0 -> victim (scan args [d]) = victim_zero))
  /\ ((victim (scan args entries) = victim_zero
       /\ forall d c, In d entries -> survivor args d = Some c -> badness c < 0)
      \/ (exists l1 d l2,
            entries = l1 ++ d :: l2
            /\ survivor args d = Some (victim (scan args entries))
            /\ 0 <= badness (victim (scan args entries))
            /\ (forall d' b, In d' l1 -> survivor args d' = Some b ->
                             lex_gt (victim (scan args entries)) b)
            /\ (forall d' b, In d' l2 -> survivor args d' = Some b ->
                             ~ lex_gt b (victim (scan args entries))))).
Proof.
  split; [| split].
  - intros st d c Hs. pose proof (scan_step_victim args st d) as H.
    rewrite Hs in H. exact H.
  - intros d c Hs. pose proof (scan_step_victim args scan_init d) as H.
    rewrite Hs in H. destruct H as [Hgt Hle].
    pose proof (survivor_rss_positive args d c Hs) as Hp.
    unfold scan. cbn [fold_left]. split; intros Hb.
    + apply Hgt. unfold lex_gt. cbn. lia.
    + apply Hle. unfold lex_gt. cbn. lia.
  - pose proof (scan_from_selects args entries scan_init) as H. cbv zeta in H.
    fold (scan args entries) in H. cbn [victim scan_init] in H.
    destruct H as [[Hw Hall] | (l1 & d & l2 & He & Hs & Hg & Hb & Ha)].
    + left. split; [exact Hw |]. intros d c Hin Hs.
      pose proof (survivor_rss_positive args d c Hs) as Hp.
      specialize (Hall d c Hin Hs). unfold lex_gt in Hall. cbn in Hall. lia.
    + right. exists l1, d, l2. repeat split; auto.
      unfold lex_gt in Hg. cbn in Hg. lia.
Qed.

Lemma scan_selects_witness :
  victim (scan default_args [process "42" "doveadm" 100 0 5000])
  = candidate_of (process "42" "doveadm" 100 0 5000) 100 5000.
Proof.
  apply (proj1 (proj1 (proj2 (scan_selects default_args []))
                  (process "42" "doveadm" 100 0 5000)
                  (candidate_of (process "42" "doveadm" 100 0 5000) 100 5000)
                  eq_refl)).
  vm_compute. discriminate.
Defined.

(** Equal badness: the larger resident set wins, and of two equal candidates
    the one seen first. *)
Example scan_tie_break :
  pid (victim (scan default_args
                 [ process "41" "a" 100 0 5000; process "42" "b" 100 0 9000;
                   process "43" "c" 100 0 9000; process "44" "d" 99 0 90000 ])) = 42.
Proof. vm_compute. reflexivity. Qed.

(** Two processes that [avoid_regex] matches survive every skip rule with
    badness -200 and -250.  Scanned alone the first one does not become the
    victim, and scanned together neither does, although the first is the
    greater of the two: the scan ends with the all-zero record, "no victim". *)
Lemma first_candidate_not_selected :
  option_map badness (survivor regex_args mysqld) = Some (-200)
  /\ option_map VmRSSkiB (survivor regex_args mysqld) = Some 5000
  /\ option_map badness (survivor regex_args nginx) = Some (-250)
  /\ victim (scan regex_args [mysqld]) = victim_zero
  /\ victim (scan regex_args [mysqld; nginx]) = victim_zero.
Proof. repeat split; vm_compute; reflexivity. Qed.

(** ** C3: SIGTERM, wait, escalate *)

Lemma first_tick_some (P : nat -> bool) (n i0 j : nat) :
  first_tick P n i0 = Some j ->
  (i0 <= j < i0 + n)%nat /\ P j = true
  /\ forall l, (i0 <= l < j)%nat -> P l = false.
Proof.
  revert i0. induction n as [| n IH]; intros i0; simpl; [discriminate |].
  destruct (P i0) eqn:E.
  - intros H. injection H as <-. repeat split; [lia | lia | assumption | intros; lia].
  - intros H. destruct (IH _ H) as (Hr & Hp & Hm).
    repeat split; [lia | lia | assumption |].
    intros l Hl. destruct (Nat.eq_dec l i0) as [-> | Hne]; [assumption | apply Hm; lia].
Qed.

Lemma first_tick_none (P : nat -> bool) (n i0 : nat) :
  first_tick P n i0 = None -> forall l, (i0 <= l < i0 + n)%nat -> P l = false.
Proof.
  revert i0. induction n as [| n IH]; intros i0; simpl; [intros; lia |].
  destruct (P i0) eqn:E; [discriminate |].
  intros H l Hl. destruct (Nat.eq_dec l i0) as [-> | Hne]; [assumption |].
  apply (IH _ H). lia.
Qed.

Lemma first_tick_ext (P Q : nat -> bool) (n i0 : nat) :
  (forall l, (i0 <= l < i0 + n)%nat -> P l = Q l) ->
  first_tick P n i0 = first_tick Q n i0.
Proof.
  revert i0. induction n as [| n IH]; intros i0 H; simpl; [reflexivity |].
  rewrite (H i0) by lia. rewrite IH; [reflexivity |]. intros l Hl. apply H. lia.
Qed.

Lemma first_tick_exists (P : nat -> bool) (n i0 j : nat) :
  (i0 <= j < i0 + n)%nat -> P j = true ->
  exists k, first_tick P n i0 = Some k /\ (k <= j)%nat.
Proof.
  intros Hj Hp. destruct (first_tick P n i0) as [k |] eqn:E.
  - exists k. split; [reflexivity |].
    destruct (first_tick_some _ _ _ _ E) as (_ & _ & Hm).
    destruct (le_lt_dec k j) as [Hle | Hlt]; [exact Hle |].
    rewrite (Hm j) in Hp by lia. discriminate.
  - rewrite (first_tick_none _ _ _ E j Hj) in Hp. discriminate.
Qed.

Lemma sigterm_wait_elapsed (i : nat) :
  (i < 100)%nat -> Qle_bool SIGTERM_WAIT (secs i) = (60 <=? i)%nat.
Proof.
  intros H. do 100 (destruct i as [| i]; [vm_compute; reflexivity |]). lia.
Qed.

Lemma escalate_now_due (args : poll_loop_args_t) (w : kw_world) (i : nat) :
  (i < 100)%nat -> escalate_now args (kw_meminfo w i) i = escalation_due args w i.
Proof.
  intros H. unfold escalate_now, escalation_due, at_or_below.
  rewrite (sigterm_wait_elapsed i H). reflexivity.
Qed.

Lemma kill_wait_loop_unfold (args : poll_loop_args_t) (w : kw_world) (pid : Z)
  (n i : nat) (sig : Z) :
  kill_wait_loop args w pid (S n) i sig
  = let tick (sig : Z) (sent : list event) :=
      if negb (kw_alive w i) then (KW_OK, sent)
      else (fst (kill_wait_loop args w pid n (S i) sig),
            sent ++ EvUsleep 100000 :: snd (kill_wait_loop args w pid n (S i) sig)) in
    if negb (sig =? SIGKILL) then
      if escalate_now args (kw_meminfo w i) i then
        match kw_kill1 w with
        | Some e => (KW_FAIL e, [EvKill pid SIGKILL])
        | None => tick SIGKILL [EvKill pid SIGKILL]
        end
      else tick sig []
    else tick sig [].
Proof.
  cbn [kill_wait_loop]. cbv zeta.
  change (to_uint (poll_ms * 1000)) with 100000.
  destruct (kill_wait_loop args w pid n (S i) sig) as [r tr].
  destruct (kill_wait_loop args w pid n (S i) SIGKILL) as [r' tr'].
  reflexivity.
Qed.

Lemma naps_S (n : nat) : EvUsleep 100000 :: naps n = naps (S n).
Proof. reflexivity. Qed.

(** Once SIGKILL has been sent the loop only polls: success at the first
    tick at which the process is gone, [ETIME] when the ticks run out. *)
Lemma kill_wait_loop_sigkill (args : poll_loop_args_t) (w : kw_world) (pid : Z)
  (n i : nat) :
  kill_wait_loop args w pid n i SIGKILL
  = match first_tick (fun l => negb (kw_alive w l)) n i with
    | Some j => (KW_OK, naps (j - i))
    | None => (KW_FAIL ETIME, naps n)
    end.
Proof.
  revert i. induction n as [| n IH]; intros i; [reflexivity |].
  rewrite kill_wait_loop_unfold. cbv zeta. cbn [first_tick].
  change (negb (SIGKILL =? SIGKILL)) with false. cbv iota.
  destruct (negb (kw_alive w i)).
  - rewrite Nat.sub_diag. reflexivity.
  - rewrite IH. destruct (first_tick (fun l => negb (kw_alive w l)) n (S i)) as [j |] eqn:E.
    + apply first_tick_some in E. destruct E as (Hr & _).
      cbn [fst snd app]. rewrite naps_S. do 2 f_equal. lia.
    + reflexivity.
Qed.

(** The loop entered with SIGTERM at tick [i], [n] ticks remaining, when the
    escalating [kill] succeeds. *)
Lemma kill_wait_loop_sigterm (args : poll_loop_args_t) (w : kw_world) (pid : Z)
  (n i : nat) :
  kw_kill1 w = None ->
  kill_wait_loop args w pid n i SIGTERM
  = match first_tick (fun l => escalate_now args (kw_meminfo w l) l) n i,
          first_tick (fun l => negb (kw_alive w l)) n i with
    | Some k, Some j =>
        if (j <? k)%nat then (KW_OK, naps (j - i))
        else (KW_OK, naps (k - i) ++ EvKill pid SIGKILL :: naps (j - k))
    | Some k, None =>
        (KW_FAIL ETIME, naps (k - i) ++ EvKill pid SIGKILL :: naps (n - (k - i)))
    | None, Some j => (KW_OK, naps (j - i))
    | None, None => (KW_FAIL ETIME, naps n)
    end.
Proof.
  intros Hk1. revert i. induction n as [| n IH]; intros i; [reflexivity |].
  rewrite kill_wait_loop_unfold. cbv zeta. cbn [first_tick].
  change (negb (SIGTERM =? SIGKILL)) with true. cbv iota. rewrite Hk1.
  destruct (escalate_now args (kw_meminfo w i) i) eqn:Ee.
  - (* escalation at this tick *)
    destruct (negb (kw_alive w i)) eqn:Ea.
    + rewrite Nat.ltb_irrefl, Nat.sub_diag. reflexivity.
    + rewrite kill_wait_loop_sigkill.
      destruct (first_tick (fun l => negb (kw_alive w l)) n (S i)) as [j |] eqn:E.
      * apply first_tick_some in E. destruct E as (Hr & _).
        replace (j <? i)%nat with false by (symmetry; apply Nat.ltb_ge; lia).
        rewrite Nat.sub_diag. cbn [fst snd app naps repeat]. rewrite naps_S.
        do 3 f_equal. lia.
      * rewrite Nat.sub_diag, Nat.sub_0_r. reflexivity.
  - (* no escalation at this tick *)
    destruct (negb (kw_alive w i)) eqn:Ea.
    + destruct (first_tick (fun l => escalate_now args (kw_meminfo w l) l) n (S i))
        as [k |] eqn:E.
      * apply first_tick_some in E. destruct E as (Hr & _).
        replace (i <? k)%nat with true by (symmetry; apply Nat.ltb_lt; lia).
        rewrite Nat.sub_diag. reflexivity.
      * rewrite Nat.sub_diag. reflexivity.
    + rewrite IH.
      destruct (first_tick (fun l => escalate_now args (kw_meminfo w l) l) n (S i))
        as [k |] eqn:Ek;
        destruct (first_tick (fun l => negb (kw_alive w l)) n (S i)) as [j |] eqn:Ej;
        try (apply first_tick_some in Ek; destruct Ek as (Hk & _));
        try (apply first_tick_some in Ej; destruct Ej as (Hj & _)).
      * destruct (j <? k)%nat; cbn [fst snd app].
        -- rewrite naps_S. do 2 f_equal. lia.
        -- rewrite app_comm_cons, naps_S. do 3 f_equal. lia.
      * cbn [fst snd app]. rewrite app_comm_cons, naps_S.
        replace (S (k - S i)) with (k - i)%nat by lia.
        replace (n - (k - S i))%nat with (S n - (k - i))%nat by lia. reflexivity.
      * cbn [fst snd app]. rewrite naps_S. do 2 f_equal. lia.
      * reflexivity.
Qed.

(** The same when the escalating [kill] fails with [errno = e]: the failure
    is returned at the tick of the escalation, before [is_alive] is asked. *)
Lemma kill_wait_loop_sigterm_fails (args : poll_loop_args_t) (w : kw_world) (pid : Z)
  (n i : nat) (e : Z) :
  kw_kill1 w = Some e ->
  kill_wait_loop args w pid n i SIGTERM
  = match first_tick (fun l => escalate_now args (kw_meminfo w l) l) n i,
          first_tick (fun l => negb (kw_alive w l)) n i with
    | Some k, Some j =>
        if (j <? k)%nat then (KW_OK, naps (j - i))
        else (KW_FAIL e, naps (k - i) ++ [EvKill pid SIGKILL])
    | Some k, None => (KW_FAIL e, naps (k - i) ++ [EvKill pid SIGKILL])
    | None, Some j => (KW_OK, naps (j - i))
    | None, None => (KW_FAIL ETIME, naps n)
    end.
Proof.
  intros Hk1. revert i. induction n as [| n IH]; intros i; [reflexivity |].
  rewrite kill_wait_loop_unfold. cbv zeta. cbn [first_tick].
  change (negb (SIGTERM =? SIGKILL)) with true. cbv iota. rewrite Hk1.
  destruct (escalate_now args (kw_meminfo w i) i) eqn:Ee.
  - (* escalation at this tick *)
    rewrite Nat.sub_diag.
    destruct (negb (kw_alive w i)) eqn:Ea.
    + rewrite Nat.ltb_irrefl. reflexivity.
    + destruct (first_tick (fun l => negb (kw_alive w l)) n (S i)) as [j |] eqn:E;
        [| reflexivity].
      apply first_tick_some in E. destruct E as (Hr & _).
      replace (j <? i)%nat with false by (symmetry; apply Nat.ltb_ge; lia).
      reflexivity.
  - (* no escalation at this tick *)
    destruct (negb (kw_alive w i)) eqn:Ea.
    + destruct (first_tick (fun l => escalate_now args (kw_meminfo w l) l) n (S i))
        as [k |] eqn:E.
      * apply first_tick_some in E. destruct E as (Hr & _).
        replace (i <? k)%nat with true by (symmetry; apply Nat.ltb_lt; lia).
        rewrite Nat.sub_diag. reflexivity.
      * rewrite Nat.sub_diag. reflexivity.
    + rewrite IH.
      destruct (first_tick (fun l => escalate_now args (kw_meminfo w l) l) n (S i))
        as [k |] eqn:Ek;
        destruct (first_tick (fun l => negb (kw_alive w l)) n (S i)) as [j |] eqn:Ej;
        try (apply first_tick_some in Ek; destruct Ek as (Hk & _));
        try (apply first_tick_some in Ej; destruct Ej as (Hj & _)).
      * destruct (j <? k)%nat; cbn [fst snd app].
        -- rewrite naps_S. do 2 f_equal. lia.
        -- rewrite app_comm_cons, naps_S. do 2 f_equal. f_equal. lia.
      * cbn [fst snd app]. rewrite app_comm_cons, naps_S. do 2 f_equal. f_equal. lia.
      * cbn [fst snd app]. rewrite naps_S. do 2 f_equal. lia.
      * reflexivity.
Qed.

(** The tick of the escalation exists, is at most 60, and is the first tick
    at which the test of line 100 holds. *)
Lemma escalation_tick (args : poll_loop_args_t) (w : kw_world) :
  exists k : nat,
    first_tick (escalation_due args w) 100 0 = Some k
    /\ (k <= 60)%nat
    /\ first_tick (fun l => escalate_now args (kw_meminfo w l) l) 100 0 = Some k.
Proof.
  destruct (first_tick_exists (escalation_due args w) 100 0 60 ltac:(lia) eq_refl)
    as (k & Ek & Hk).
  exists k. split; [exact Ek |]. split; [exact Hk |].
  rewrite <- Ek. apply first_tick_ext. intros l Hl. apply escalate_now_due. lia.
Qed.

(** C3.  Every call of [kill_wait] with SIGTERM, dry run off.  If the first
    [kill] fails, the failure is returned at once.  Otherwise let [k] be the
    first 100 ms tick at which 6.0 s have elapsed or the snapshot read at
    that tick is at or below both kill thresholds; it exists and is at most
    60.  If the process is seen gone at a tick [j] before [k], the call
    returns success there and no SIGKILL was sent.  Otherwise SIGKILL is
    sent at tick [k], once; if that [kill] fails the failure is returned
    there, even when the process is already gone; if it succeeds the call
    returns success at the first tick [j >= k] at which the process is
    gone, or fails with [ETIME] after the 100th tick (10 s of polling
    sleeps). *)
Theorem kill_wait_sigterm (args : poll_loop_args_t) (w : kw_world) (pid : Z) :
  dryrun args = false ->
  exists k : nat,
    first_tick (escalation_due args w) 100 0 = Some k
    /\ (k <= 60)%nat
    /\ kill_wait args w pid SIGTERM
       = match kw_kill0 w with
         | Some e => (KW_FAIL e, [EvKill pid SIGTERM])
         | None =>
             match first_tick (fun i => negb (kw_alive w i)) 100 0, kw_kill1 w with
             | Some j, Some e =>
                 if (j <? k)%nat then (KW_OK, EvKill pid SIGTERM :: naps j)
                 else (KW_FAIL e, EvKill pid SIGTERM :: naps k ++ [EvKill pid SIGKILL])
             | Some j, None =>
                 if (j <? k)%nat then (KW_OK, EvKill pid SIGTERM :: naps j)
                 else (KW_OK,
                       EvKill pid SIGTERM :: naps k ++ EvKill pid SIGKILL :: naps (j - k))
             | None, Some e =>
                 (KW_FAIL e, EvKill pid SIGTERM :: naps k ++ [EvKill pid SIGKILL])
             | None, None =>
                 (KW_FAIL ETIME,
                  EvKill pid SIGTERM :: naps k ++ EvKill pid SIGKILL :: naps (100 - k))
             end
         end.
Proof.
  intros Hdry.
  destruct (escalation_tick args w) as (k & Ek & Hk & Ek').
  exists k. split; [exact Ek |]. split; [exact Hk |].
  unfold kill_wait. rewrite Hdry. cbn [andb].
  destruct (kw_kill0 w) as [e0 |]; [reflexivity |].
  change (SIGTERM =? 0) with false. cbv iota.
  destruct (kw_kill1 w) as [e1 |] eqn:Hk1.
  - rewrite (kill_wait_loop_sigterm_fails args w pid 100 0 e1 Hk1), Ek'.
    destruct (first_tick (fun l => negb (kw_alive w l)) 100 0) as [j |].
    + destruct (j <? k)%nat; rewrite !Nat.sub_0_r; reflexivity.
    + rewrite !Nat.sub_0_r. reflexivity.
  - rewrite (kill_wait_loop_sigterm args w pid 100 0 Hk1), Ek'.
    destruct (first_tick (fun l => negb (kw_alive w l)) 100 0) as [j |].
    + destruct (j <? k)%nat; rewrite !Nat.sub_0_r; reflexivity.
    + rewrite !Nat.sub_0_r. reflexivity.
Qed.

Lemma kill_wait_sigterm_witness :
  kill_wait default_args kw_stubborn 4711 SIGTERM
  = (KW_OK, EvKill 4711 SIGTERM :: naps 60 ++ EvKill 4711 SIGKILL :: naps 1).
Proof.
  destruct (kill_wait_sigterm default_args kw_stubborn 4711 eq_refl)
    as (k & Ek & _ & H).
  assert (E : k = 60%nat) by (vm_compute in Ek; congruence).
  subst k. exact H.
Defined.

(** The victim exits just before the escalation at tick 60 and the
    escalating [kill] fails with [ESRCH]: the call fails with that error at
    the first tick at which the process is gone, where it would have
    returned success had [is_alive] been asked first. *)
Lemma escalating_kill_failure_returned :
  dryrun default_args = false
  /\ first_tick (escalation_due default_args kw_lost_race) 100 0 = Some 60%nat
  /\ first_tick (fun i => negb (kw_alive kw_lost_race i)) 100 0 = Some 60%nat
  /\ kill_wait default_args kw_lost_race 4711 SIGTERM
     = (KW_FAIL ESRCH, EvKill 4711 SIGTERM :: naps 60 ++ [EvKill 4711 SIGKILL]).
Proof. repeat split; vm_compute; reflexivity. Qed.

(** Memory falls to the kill thresholds 300 ms after the SIGTERM: SIGKILL
    follows at tick 3; a victim that exits at once gets no SIGKILL; one that
    never exits makes the call fail with [ETIME] after 100 polls. *)
Example kill_wait_runs :
  kill_wait default_args
    {| kw_kill0 := None; kw_kill1 := None;
       kw_meminfo := fun i => if (i <? 3)%nat then meminfo_at 8 5 else meminfo_at 4 3;
       kw_alive := fun i => (i <? 5)%nat |} 4711 SIGTERM
  = (KW_OK, EvKill 4711 SIGTERM :: naps 3 ++ EvKill 4711 SIGKILL :: naps 2)
  /\ kill_wait default_args
       {| kw_kill0 := None; kw_kill1 := None; kw_meminfo := fun _ => meminfo_at 8 5;
          kw_alive := fun _ => false |} 4711 SIGTERM
     = (KW_OK, [EvKill 4711 SIGTERM])
  /\ kill_wait default_args (kw_stuck (meminfo_at 8 5)) 4711 SIGTERM
     = (KW_FAIL ETIME, EvKill 4711 SIGTERM :: naps 60 ++ EvKill 4711 SIGKILL :: naps 40).
Proof. repeat split; vm_compute; reflexivity. Qed.

(** ** C5: the emergency kill *)

Lemma emergency_scan_spec (victim_name : string) (entries : list dirent) (kills : Z) :
  snd (emergency_scan victim_name entries kills)
  = map (fun p => EvKill p SIGKILL) (emergency_targets victim_name entries)
  /\ (in_int kills ->
      wraps_to (fst (emergency_scan victim_name entries kills))
        (kills + Z.of_nat (List.length (emergency_targets victim_name entries)))).
Proof.
  unfold emergency_targets.
  revert kills. induction entries as [| d entries IH]; intros kills.
  - split; [reflexivity |]. intros Hk. cbn. rewrite Z.add_0_r. split; [reflexivity | exact Hk].
  - cbn [emergency_scan filter]. cbv zeta.
    destruct (isnumeric (d_name d)); cbn [negb andb]; [| apply IH].
    cbn [pid cur_init].
    rewrite Z.leb_antisym, negb_if.
    destruct (1 <? to_int (strtol (d_name d))); cbn [andb negb]; [| apply IH].
    destruct (comm d) as [res out]. cbn [fst snd].
    rewrite Z.ltb_antisym, negb_if.
    destruct (0 <=? res); cbn [andb]; [| apply IH].
    cbn [name set_name].
    destruct (String.eqb out victim_name); [| apply IH].
    specialize (IH (to_int (kills + 1))). destruct IH as [IH1 IH2].
    destruct (emergency_scan victim_name entries (to_int (kills + 1))) as [k tr].
    cbn [fst snd map List.length] in *. split; [f_equal; exact IH1 |].
    intros Hk. destruct (IH2 (to_int_range _)) as [He Hr]. split; [| exact Hr].
    rewrite He, to_int_eqm. unfold eqm32. f_equal. lia.
Qed.

Lemma emergency_loop_spec (args : poll_loop_args_t) (w : emerg_world)
  (names : list string) (i : nat) (kills : Z) :
  let trace :=
    flat_map (fun '(i, n) => map (fun p => EvKill p SIGKILL)
                               (emergency_targets n (em_entries w i)))
      (names_processed args w names i) in
  snd (emergency_loop args w names i kills) = trace
  /\ (in_int kills ->
      wraps_to (fst (emergency_loop args w names i kills))
        (kills + Z.of_nat (List.length trace))).
Proof.
  cbv zeta. revert i kills. induction names as [| n names IH]; intros i kills.
  - split; [reflexivity |]. intros Hk. cbn. rewrite Z.add_0_r. split; [reflexivity | exact Hk].
  - cbn [emergency_loop names_processed]. cbv zeta.
    destruct (dgt (MemAvailablePercent (em_meminfo w i)) (mem_high_percent args)).
    + split; [reflexivity |]. intros Hk. cbn. rewrite Z.add_0_r.
      split; [reflexivity | exact Hk].
    + pose proof (emergency_scan_spec n (em_entries w i) kills) as [S1 S2].
      destruct (emergency_scan n (em_entries w i) kills) as [k1 tr1].
      specialize (IH (S i) k1). destruct IH as [IH1 IH2].
      destruct (emergency_loop args w names (S i) k1) as [k2 tr2].
      cbn [fst snd flat_map] in *. subst tr1 tr2. split; [reflexivity |].
      intros Hk. destruct (S2 Hk) as [He1 Hr1]. destruct (IH2 Hr1) as [He2 Hr2].
      split; [| exact Hr2]. rewrite He2, He1.
      rewrite length_app, length_map, Nat2Z.inj_add. unfold eqm32. f_equal. lia.
Qed.


Lemma emergency_kills_shape (args : poll_loop_args_t) (w : emerg_world) (names : list string) :
  Forall (fun e => exists p, e = EvKill p SIGKILL /\ 1 < p) (emergency_kills args w names).
Proof.
  apply Forall_forall. intros e He. unfold emergency_kills in He.
  apply in_flat_map in He. destruct He as ([i n] & _ & He).
  apply in_map_iff in He. destruct He as (p & <- & Hp).
  exists p. split; [reflexivity |].
  unfold emergency_targets in Hp. apply in_map_iff in Hp.
  destruct Hp as (d & <- & Hd). apply filter_In in Hd. destruct Hd as [_ Hd].
  apply andb_true_iff in Hd. destruct Hd as [Hd _].
  apply andb_true_iff in Hd. destruct Hd as [Hd _].
  apply andb_true_iff in Hd. destruct Hd as [_ Hd].
  apply Z.ltb_lt in Hd. exact Hd.
Qed.



Example kill_emergency_scenario_5 :
  kill_emergency (emerg_args false) emerg_recovering
  = (2, [EvKill 42 SIGKILL; EvKill 46 SIGKILL])
  /\ kill_emergency (emerg_args false) (w_emergency crisis)
     = (2, [EvKill 42 SIGKILL; EvKill 43 SIGKILL]).
Proof. split; vm_compute; reflexivity. Qed.

(** ** Further properties of the selector and of the escalator *)

Lemma read_oom_score_pid (args : poll_loop_args_t) (d : dirent) (cur cur1 : procinfo) :
  read_oom_score args d cur = Some cur1 -> pid cur1 = pid cur.
Proof.
  unfold read_oom_score. cbv zeta.
  destruct (oom_score d <? 0); [discriminate |].
  destruct (ignore_oom_score_adj args).
  - destruct (oom_score_adj d) as [res adj]. destruct (res <? 0); [discriminate |].
    destruct (adj >? 0); intros E; injection E as <-; reflexivity.
  - intros E. injection E as <-. reflexivity.
Qed.

Lemma read_times_pid (args : poll_loop_args_t) (d : dirent) (cur : procinfo) :
  pid (read_times args d cur) = pid cur.
Proof. unfold read_times. break_if; reflexivity. Qed.

Lemma apply_name_rules_pid (args : poll_loop_args_t) (d : dirent) (cur cur1 : procinfo) :
  apply_name_rules args d cur = Some cur1 -> pid cur1 = pid cur.
Proof.
  unfold apply_name_rules.
  destruct (is_set (prefer_regex args) || is_set (avoid_regex args)
            || is_set (prefer_old args)).
  - destruct (comm d) as [res out]. destruct (res <? 0); [discriminate |]. cbv zeta.
    intros E. injection E as <-. repeat break_if; reflexivity.
  - intros E. injection E as <-. reflexivity.
Qed.

Lemma apply_user_rule_pid (args : poll_loop_args_t) (d : dirent) (cur cur1 : procinfo) :
  apply_user_rule args d cur = Some cur1 -> pid cur1 = pid cur.
Proof.
  unfold apply_user_rule. destruct (avoid_users args) as [re |].
  - destruct (stat_uid d); [| discriminate]. destruct (pw_name d); [| discriminate].
    cbv zeta. break_if; intros E; injection E as <-; reflexivity.
  - intros E. injection E as <-. reflexivity.
Qed.

Lemma examine_pid (args : poll_loop_args_t) (d : dirent) (cur : procinfo) :
  examine args d = Some cur -> 1 < pid cur.
Proof.
  unfold examine. destruct (negb (isnumeric (d_name d))); [discriminate |]. cbv zeta.
  destruct (Z.leb_spec (pid (cur_init d)) 1) as [| Hp]; [discriminate |].
  destruct (read_oom_score args d (cur_init d)) as [c1 |] eqn:E1; [| discriminate].
  destruct (apply_name_rules args d (read_times args d c1)) as [c3 |] eqn:E3;
    [| discriminate].
  intros E4.
  rewrite (apply_user_rule_pid _ _ _ _ E4), (apply_name_rules_pid _ _ _ _ E3),
    read_times_pid, (read_oom_score_pid _ _ _ _ E1).
  exact Hp.
Qed.

Lemma complete_valid (d : dirent) (cur c : procinfo) :
  complete d cur = Some c ->
  pid c = pid cur /\ 0 < VmRSSkiB c /\ snd (oom_score_adj_late d) <> -1000
  /\ 0 <= uid c.
Proof.
  unfold complete. cbv zeta.
  destruct (Z.ltb_spec (vm_rss_kib d) 0); [discriminate |].
  cbn [VmRSSkiB set_VmRSSkiB].
  destruct (Z.eqb_spec (vm_rss_kib d) 0); [discriminate |].
  destruct (oom_score_adj_late d) as [res adj].
  destruct (res <? 0); [discriminate |].
  destruct (Z.eqb_spec adj (-1000)); [discriminate |].
  cbn [name set_VmRSSkiB snd].
  destruct (String.length (name cur) =? 0)%nat.
  - destruct (comm_late d) as [r out]. destruct (r <? 0); [discriminate |].
    destruct (Z.ltb_spec (proc_uid d) 0); [discriminate |].
    intros E. injection E as <-. cbn. repeat split; [lia | assumption | assumption].
  - destruct (Z.ltb_spec (proc_uid d) 0); [discriminate |].
    intros E. injection E as <-. cbn. repeat split; [lia | assumption | assumption].
Qed.

(** X1.  The victim of a scan, if there is one, is the candidate of an entry
    of that scan with a pid above 1, a positive resident set, an
    [oom_score_adj] other than -1000 and a uid that could be read. *)
Theorem scan_victim_valid (args : poll_loop_args_t) (entries : list dirent) :
  victim (scan args entries) = victim_zero
  \/ exists d : dirent,
       In d entries
       /\ survivor args d = Some (victim (scan args entries))
       /\ 1 < pid (victim (scan args entries))
       /\ 0 < VmRSSkiB (victim (scan args entries))
       /\ snd (oom_score_adj_late d) <> -1000
       /\ 0 <= uid (victim (scan args entries)).
Proof.
  pose proof (scan_from_selects args entries scan_init) as H. cbv zeta in H.
  fold (scan args entries) in H.
  destruct H as [[Hw _] | (l1 & d & l2 & He & Hs & _)]; [left; exact Hw |].
  right. exists d. split; [subst entries; apply in_elt |]. split; [exact Hs |].
  unfold survivor in Hs. destruct (examine args d) as [cur |] eqn:Ex; [| discriminate].
  destruct (complete_valid d cur _ Hs) as (Hp & Hr & Ha & Hu).
  pose proof (examine_pid args d cur Ex) as Hpid.
  repeat split; [lia | assumption | assumption | assumption].
Qed.

(** X2.  The start-up self-test: with signal 0 [kill_wait] makes the one
    [kill] call and returns its result at once, dry run or not; it neither
    waits nor escalates. *)
Theorem kill_wait_probe (args : poll_loop_args_t) (w : kw_world) (pid : Z) :
  kill_wait args w pid 0
  = (match kw_kill0 w with Some e => KW_FAIL e | None => KW_OK end, [EvKill pid 0]).
Proof.
  unfold kill_wait. rewrite andb_false_r.
  destruct (kw_kill0 w); reflexivity.
Qed.

(** X4.  A failing [kill] is returned at once, with its [errno]: the first
    one before any wait; the escalating one at the tick [k] of the
    escalation, after [k] polling sleeps and with nothing after it, unless
    the process was seen gone at an earlier tick, in which case no
    escalating [kill] is made and the call succeeds. *)
Theorem kill_wait_kill_fails (args : poll_loop_args_t) (w : kw_world) (pid : Z) (e : Z) :
  dryrun args = false ->
  (kw_kill0 w = Some e ->
   kill_wait args w pid SIGTERM = (KW_FAIL e, [EvKill pid SIGTERM]))
  /\ (kw_kill0 w = None -> kw_kill1 w = Some e ->
      exists k : nat,
        first_tick (escalation_due args w) 100 0 = Some k
        /\ (k <= 60)%nat
        /\ kill_wait args w pid SIGTERM
           = match first_tick (fun i => negb (kw_alive w i)) 100 0 with
             | Some j =>
                 if (j <? k)%nat then (KW_OK, EvKill pid SIGTERM :: naps j)
                 else (KW_FAIL e, EvKill pid SIGTERM :: naps k ++ [EvKill pid SIGKILL])
             | None => (KW_FAIL e, EvKill pid SIGTERM :: naps k ++ [EvKill pid SIGKILL])
             end).
Proof.
  intros Hd. unfold kill_wait. rewrite Hd. cbn [andb]. split.
  - intros H0. rewrite H0. reflexivity.
  - intros H0 H1. rewrite H0. change (SIGTERM =? 0) with false. cbv iota.
    destruct (escalation_tick args w) as (k & Ek & Hk & Ek').
    exists k. split; [exact Ek |]. split; [exact Hk |].
    rewrite (kill_wait_loop_sigterm_fails args w pid 100 0 e H1), Ek'.
    destruct (first_tick (fun l => negb (kw_alive w l)) 100 0) as [j |].
    + destruct (j <? k)%nat; rewrite !Nat.sub_0_r; reflexivity.
    + rewrite !Nat.sub_0_r. reflexivity.
Qed.

(** A first [kill] refused with [EPERM]; and memory falling to the kill
    thresholds 300 ms after the SIGTERM, with an escalating [kill] refused
    with [EPERM] at tick 3. *)
Lemma kill_wait_kill_fails_witness :
  kill_wait default_args
    {| kw_kill0 := Some EPERM; kw_kill1 := None; kw_meminfo := fun _ => meminfo_at 8 5;
       kw_alive := fun _ => true |} 4711 SIGTERM
  = (KW_FAIL EPERM, [EvKill 4711 SIGTERM])
  /\ kill_wait default_args
       {| kw_kill0 := None; kw_kill1 := Some EPERM;
          kw_meminfo := fun i => if (i <? 3)%nat then meminfo_at 8 5 else meminfo_at 4 3;
          kw_alive := fun _ => true |} 4711 SIGTERM
     = (KW_FAIL EPERM, EvKill 4711 SIGTERM :: naps 3 ++ [EvKill 4711 SIGKILL]).
Proof.
  split.
  - apply (proj1 (kill_wait_kill_fails default_args
                    {| kw_kill0 := Some EPERM; kw_kill1 := None;
                       kw_meminfo := fun _ => meminfo_at 8 5;
                       kw_alive := fun _ => true |} 4711 EPERM eq_refl)).
    reflexivity.
  - destruct (proj2 (kill_wait_kill_fails default_args
                       {| kw_kill0 := None; kw_kill1 := Some EPERM;
                          kw_meminfo := fun i => if (i <? 3)%nat then meminfo_at 8 5
                                                 else meminfo_at 4 3;
                          kw_alive := fun _ => true |} 4711 EPERM eq_refl)
                eq_refl eq_refl) as (k & Ek & _ & H).
    assert (E : k = 3%nat) by (vm_compute in Ek; congruence).
    subst k. exact H.
Defined.

(** ** Traces of the escalator *)

Lemma kills_in_app (a b : list event) : kills_in (a ++ b) = kills_in a ++ kills_in b.
Proof.
  induction a as [| e a IH]; [reflexivity |].
  destruct e; cbn [app kills_in]; rewrite IH; reflexivity.
Qed.

Lemma total_wait_app (a b : list event) : total_wait (a ++ b) = total_wait a + total_wait b.
Proof.
  unfold total_wait. induction a as [| e a IH]; [reflexivity |].
  cbn [app fold_right]. rewrite IH. ring.
Qed.

Lemma kills_in_delivers (tr : list event) :
  kills_in tr = [] -> filter delivers_signal tr = [].
Proof.
  induction tr as [| e tr IH]; [reflexivity |].
  destruct e; cbn [kills_in filter delivers_signal]; try exact IH. discriminate.
Qed.

Lemma kill_wait_loop_bounded (args : poll_loop_args_t) (w : kw_world) (pid : Z)
  (n i : nat) (sig : Z) :
  0 <= total_wait (snd (kill_wait_loop args w pid n i sig)) <= Z.of_nat n * 100000
  /\ (List.length (kills_in (snd (kill_wait_loop args w pid n i sig)))
      <= if (sig =? SIGKILL)%Z then 0 else 1)%nat
  /\ Forall (fun k => k = (pid, SIGKILL))
       (kills_in (snd (kill_wait_loop args w pid n i sig))).
Proof.
  revert i sig. induction n as [| n IH]; intros i sig.
  - cbn. repeat split; [lia | lia | destruct (sig =? SIGKILL); lia | constructor].
  - rewrite kill_wait_loop_unfold. cbv zeta.
    pose proof (IH (S i) sig) as (Hw & Hk & Hf).
    pose proof (IH (S i) SIGKILL) as (Hw' & Hk' & Hf').
    change (SIGKILL =? SIGKILL) with true in Hk'. cbv iota in Hk'.
    rewrite Nat2Z.inj_succ.
    destruct (sig =? SIGKILL) eqn:Es; cbn [negb].
    + destruct (negb (kw_alive w i)); cbn [snd app].
      * cbn. repeat split; [lia | lia | lia | constructor].
      * cbn [total_wait fold_right wait_usec kills_in].
        fold (total_wait (snd (kill_wait_loop args w pid n (S i) sig))).
        repeat split; [lia | lia | exact Hk | exact Hf].
    + destruct (escalate_now args (kw_meminfo w i) i).
      * destruct (kw_kill1 w) as [e |].
        -- cbn. repeat split; [lia | lia | lia | repeat constructor].
        -- destruct (negb (kw_alive w i)); cbn [snd app].
           ++ cbn. repeat split; [lia | lia | lia | repeat constructor].
           ++ cbn [total_wait fold_right wait_usec kills_in].
              fold (total_wait (snd (kill_wait_loop args w pid n (S i) SIGKILL))).
              cbn [List.length].
              repeat split; [lia | lia | lia | constructor; [reflexivity | exact Hf']].
      * destruct (negb (kw_alive w i)); cbn [snd app].
        -- cbn. repeat split; [lia | lia | lia | constructor].
        -- cbn [total_wait fold_right wait_usec kills_in].
           fold (total_wait (snd (kill_wait_loop args w pid n (S i) sig))).
           repeat split; [lia | lia | exact Hk | exact Hf].
Qed.

Lemma kill_wait_kills (args : poll_loop_args_t) (w : kw_world) (pid sig : Z) :
  (List.length (kills_in (snd (kill_wait args w pid sig))) <= 2)%nat
  /\ Forall (fun k => fst k = pid /\ (snd k = sig \/ snd k = SIGKILL))
       (kills_in (snd (kill_wait args w pid sig))).
Proof.
  unfold kill_wait.
  destruct (dryrun args && negb (sig =? 0)).
  { cbn. split; [lia | constructor]. }
  destruct (kw_kill0 w) as [e |].
  { cbn. split; [lia | repeat constructor; auto]. }
  destruct (sig =? 0).
  { cbn. split; [lia | repeat constructor; auto]. }
  pose proof (kill_wait_loop_bounded args w pid 100 0 sig) as (_ & Hk & Hf).
  destruct (kill_wait_loop args w pid 100 0 sig) as [r tr].
  cbn [snd] in *.
  change (kills_in (EvKill pid sig :: tr)) with ((pid, sig) :: kills_in tr).
  assert (Hk' : (List.length (kills_in tr) <= 1)%nat)
    by (destruct (sig =? SIGKILL); lia).
  cbn [List.length]. split; [lia |].
  constructor; [cbn; auto |].
  apply Forall_impl with (2 := Hf). intros k ->. cbn. auto.
Qed.

(** X5.  Whatever the signal, the configuration and the behaviour of the
    victim, one call of [kill_wait] spends at most 10 seconds waiting, makes
    at most two [kill] calls, and makes them on the pid it was given, with
    the signal it was given or with SIGKILL. *)
Theorem kill_wait_bounded (args : poll_loop_args_t) (w : kw_world) (pid sig : Z) :
  0 <= total_wait (snd (kill_wait args w pid sig)) <= 10 * 1000000
  /\ (List.length (kills_in (snd (kill_wait args w pid sig))) <= 2)%nat
  /\ Forall (fun k => fst k = pid /\ (snd k = sig \/ snd k = SIGKILL))
       (kills_in (snd (kill_wait args w pid sig))).
Proof.
  split; [| apply kill_wait_kills].
  unfold kill_wait.
  destruct (dryrun args && negb (sig =? 0)); [cbn; lia |].
  destruct (kw_kill0 w) as [e |]; [cbn; lia |].
  destruct (sig =? 0); [cbn; lia |].
  pose proof (kill_wait_loop_bounded args w pid 100 0 sig) as (Hw & _).
  destruct (kill_wait_loop args w pid 100 0 sig) as [r tr].
  cbn [snd] in *.
  change (total_wait (EvKill pid sig :: tr)) with (0 + total_wait tr).
  change (Z.of_nat 100 * 100000) with 10000000 in Hw. lia.
Qed.

(** X6.  A call of [kill_wait] with SIGKILL (dry run off, the [kill]
    succeeding) never reads the memory snapshot and never sends a second
    signal: it polls every 100 ms and returns success at the first tick at
    which the process is gone, or fails with [ETIME] after 100 polls. *)
Theorem kill_wait_sigkill (args : poll_loop_args_t) (w : kw_world) (pid : Z) :
  dryrun args = false ->
  kw_kill0 w = None ->
  kill_wait args w pid SIGKILL
  = match first_tick (fun i => negb (kw_alive w i)) 100 0 with
    | Some j => (KW_OK, EvKill pid SIGKILL :: naps j)
    | None => (KW_FAIL ETIME, EvKill pid SIGKILL :: naps 100)
    end.
Proof.
  intros Hd Hk. unfold kill_wait. rewrite Hd, Hk. cbn [andb].
  change (SIGKILL =? 0) with false. cbv iota.
  rewrite kill_wait_loop_sigkill.
  destruct (first_tick (fun l => negb (kw_alive w l)) 100 0) as [j |].
  - rewrite Nat.sub_0_r. reflexivity.
  - reflexivity.
Qed.

Lemma kill_wait_sigkill_witness :
  kill_wait default_args kw_stubborn 4711 SIGKILL
  = (KW_OK, EvKill 4711 SIGKILL :: naps 61).
Proof.
  exact (kill_wait_sigkill default_args kw_stubborn 4711 eq_refl eq_refl).
Defined.


(** ** Traces of [kill_largest_process] *)

Lemma examine_pid_eq (args : poll_loop_args_t) (d : dirent) (cur : procinfo) :
  examine args d = Some cur -> pid cur = pid (cur_init d).
Proof.
  unfold examine. destruct (negb (isnumeric (d_name d))); [discriminate |]. cbv zeta.
  destruct (pid (cur_init d) <=? 1); [discriminate |].
  destruct (read_oom_score args d (cur_init d)) as [c1 |] eqn:E1; [| discriminate].
  destruct (apply_name_rules args d (read_times args d c1)) as [c3 |] eqn:E3;
    [| discriminate].
  intros E4.
  rewrite (apply_user_rule_pid _ _ _ _ E4), (apply_name_rules_pid _ _ _ _ E3),
    read_times_pid, (read_oom_score_pid _ _ _ _ E1).
  reflexivity.
Qed.

(** The victim a scan ends with is the all-zero record or the candidate of
    one of the entries. *)
Lemma scan_victim_origin (args : poll_loop_args_t) (entries : list dirent) :
  victim (scan args entries) = victim_zero
  \/ exists (d : dirent) (cur : procinfo),
       In d entries /\ examine args d = Some cur
       /\ survivor args d = Some (victim (scan args entries))
       /\ pid (victim (scan args entries)) = pid (cur_init d)
       /\ 1 < pid (victim (scan args entries)).
Proof.
  pose proof (scan_from_selects args entries scan_init) as H. cbv zeta in H.
  fold (scan args entries) in H.
  destruct H as [[Hw _] | (l1 & d & l2 & He & Hs & _)]; [left; exact Hw |].
  right. pose proof Hs as Hs'. unfold survivor in Hs'.
  destruct (examine args d) as [cur |] eqn:Ex; [| discriminate].
  exists d, cur. split; [subst entries; apply in_elt |]. split; [exact Ex |].
  split; [exact Hs |].
  destruct (complete_valid d cur _ Hs') as (Hp & _).
  pose proof (examine_pid args d cur Ex) as Hpid.
  pose proof (examine_pid_eq args d cur Ex) as Heq.
  split; [congruence | lia].
Qed.

Lemma kills_in_notify (args : poll_loop_args_t) (n : notification) :
  kills_in (notify_events args n) = [].
Proof. unfold notify_events. destruct (notify args); reflexivity. Qed.

(** The [kill] calls of [kill_largest_process] are those of its one call of
    [kill_wait], if it makes it. *)
Lemma kill_largest_process_kills (args : poll_loop_args_t) (w : klp_world) (sig : Z) :
  kills_in (kill_largest_process args w sig) = []
  \/ (0 < pid (victim (scan args (klp_entries w)))
      /\ kills_in (kill_largest_process args w sig)
         = kills_in (snd (kill_wait args (klp_kill_wait w)
                            (pid (victim (scan args (klp_entries w)))) sig))).
Proof.
  unfold kill_largest_process. cbv zeta.
  set (v := victim (scan args (klp_entries w))).
  destruct ((candidates (scan args (klp_entries w)) <=? 1) && (pid v =? klp_getpid w)).
  { left. cbn [pid set_pid]. change (0 <=? 0) with true. cbv iota.
    rewrite kills_in_app, kills_in_notify. reflexivity. }
  destruct (Z.leb_spec (pid v) 0) as [Hle | Hgt].
  { left. rewrite kills_in_app, kills_in_notify. reflexivity. }
  right. split; [exact Hgt |].
  destruct (kill_wait args (klp_kill_wait w) (pid v) sig) as [res sent].
  cbn [snd]. rewrite !kills_in_app.
  replace (kills_in (if negb (sig =? 0)
                     then notify_events args (NotifyKilling (pid v) (name v)) else []))
    with (@nil (Z * Z)) by (destruct (negb (sig =? 0)); [rewrite kills_in_notify |]; reflexivity).
  replace (kills_in (if sig =? 0 then []
                     else match res with
                          | KW_OK => []
                          | KW_FAIL saved_errno =>
                              notify_events args NotifyKillFailed
                              ++ (if saved_errno =? EPERM then [EvSleep 1] else [])
                          end))
    with (@nil (Z * Z)).
  - rewrite !app_nil_r. reflexivity.
  - destruct (sig =? 0); [reflexivity |]. destruct res as [| e]; [reflexivity |].
    rewrite kills_in_app, kills_in_notify. destruct (e =? EPERM); reflexivity.
Qed.

(** X7.  [kill_largest_process] signals at most one process, at most twice:
    if it makes any [kill] call, the target is the victim of its scan, which
    is the candidate of one of the scanned entries and has a pid above 1, and
    the signal is the one asked for or SIGKILL. *)
Theorem kill_largest_process_targets (args : poll_loop_args_t) (w : klp_world) (sig : Z) :
  kills_in (kill_largest_process args w sig) = []
  \/ (exists d : dirent,
        In d (klp_entries w)
        /\ survivor args d = Some (victim (scan args (klp_entries w)))
        /\ pid (victim (scan args (klp_entries w))) = to_int (strtol (d_name d)))
     /\ 1 < pid (victim (scan args (klp_entries w)))
     /\ (List.length (kills_in (kill_largest_process args w sig)) <= 2)%nat
     /\ Forall (fun k => fst k = pid (victim (scan args (klp_entries w)))
                         /\ (snd k = sig \/ snd k = SIGKILL))
          (kills_in (kill_largest_process args w sig)).
Proof.
  destruct (kill_largest_process_kills args w sig) as [H | [Hpos H]]; [left; exact H |].
  right. rewrite H.
  destruct (scan_victim_origin args (klp_entries w))
    as [Hz | (d & cur & Hin & _ & Hs & Hp & Hgt)].
  { rewrite Hz in Hpos. cbn in Hpos. lia. }
  split; [exists d; repeat split; assumption |].
  split; [exact Hgt |]. apply kill_wait_kills.
Qed.

Lemma scan_candidates (args : poll_loop_args_t) (entries : list dirent) (st : scan_state) :
  in_int (candidates st) ->
  wraps_to (candidates (fold_left (scan_step args) entries st))
    (candidates st + Z.of_nat (List.length (examined args entries))).
Proof.
  revert st. induction entries as [| d entries IH]; intros st Hc.
  - cbn. rewrite Z.add_0_r. split; [reflexivity | exact Hc].
  - cbn [fold_left examined filter]. unfold scan_step at 2.
    destruct (examine args d) as [cur |]; cbn [is_set].
    + specialize (IH {| victim := consider d (victim st) cur;
                        candidates := to_int (candidates st + 1) |}).
      cbn [candidates] in IH. destruct (IH (to_int_range _)) as [He Hr].
      split; [| exact Hr]. fold (examined args entries). rewrite He, to_int_eqm.
      cbn [List.length]. unfold eqm32. f_equal. lia.
    + apply IH. exact Hc.
Qed.

(** X8.  When at most one entry of [/proc] can be examined and it is the
    daemon's own (the hidepid case), and likewise when none can be,
    [kill_largest_process] makes no [kill] call at all: it reports that no
    victim was found and sleeps one second. *)
Theorem kill_largest_process_hidepid (args : poll_loop_args_t) (w : klp_world) (sig : Z) :
  (List.length (examined args (klp_entries w)) <= 1)%nat ->
  (forall d, In d (examined args (klp_entries w)) ->
             to_int (strtol (d_name d)) = klp_getpid w) ->
  kill_largest_process args w sig = notify_events args NotifyNoVictim ++ [EvSleep 1].
Proof.
  intros Hlen Hself. unfold kill_largest_process. cbv zeta.
  assert (Hc : candidates (scan args (klp_entries w)) <= 1).
  { pose proof (scan_candidates args (klp_entries w) scan_init) as H.
    cbn [candidates scan_init] in H.
    assert (H0 : in_int 0) by (unfold in_int, INT_MIN, INT_MAX; simpl; lia).
    apply H in H0. apply wraps_to_eq in H0. fold (scan args (klp_entries w)) in H0.
    rewrite H0, to_int_small; [lia |]. unfold in_int, INT_MIN, INT_MAX. simpl. lia. }
  apply Z.leb_le in Hc. rewrite Hc. cbn [andb].
  destruct (scan_victim_origin args (klp_entries w))
    as [Hz | (d & cur & Hin & Hex & _ & Hp & _)].
  - rewrite Hz. destruct (pid victim_zero =? klp_getpid w); reflexivity.
  - assert (Hd : In d (examined args (klp_entries w))).
    { unfold examined. apply filter_In. split; [exact Hin |]. rewrite Hex. reflexivity. }
    rewrite Hp. cbn [pid cur_init]. rewrite (Hself d Hd), Z.eqb_refl. reflexivity.
Qed.

Lemma kill_largest_process_hidepid_witness :
  kill_largest_process default_args (klp_of hidepid_proc (meminfo_at 4 3)) SIGKILL
  = notify_events default_args NotifyNoVictim ++ [EvSleep 1].
Proof.
  apply (kill_largest_process_hidepid default_args
           (klp_of hidepid_proc (meminfo_at 4 3)) SIGKILL).
  - vm_compute. repeat constructor.
  - intros d Hd. vm_compute in Hd. destruct Hd as [<- | []]. reflexivity.
Defined.

(** X9.  When a victim is found and [kill_wait] fails (the first [kill],
    the escalating [kill], or the timeout), [kill_largest_process] sends no
    signal beyond those of [kill_wait].  For a signal other than 0 it then
    notifies (the kill and the failure) and throttles itself with a
    one-second sleep exactly when the error is [EPERM]; for the probe with
    signal 0 it returns at once, with no notification and no sleep. *)
Theorem kill_largest_process_kill_fails (args : poll_loop_args_t) (w : klp_world)
  (sig e : Z) :
  0 < pid (victim (scan args (klp_entries w))) ->
  (candidates (scan args (klp_entries w)) <=? 1)
  && (pid (victim (scan args (klp_entries w))) =? klp_getpid w) = false ->
  fst (kill_wait args (klp_kill_wait w) (pid (victim (scan args (klp_entries w)))) sig)
  = KW_FAIL e ->
  kill_largest_process args w sig
  = snd (kill_wait args (klp_kill_wait w) (pid (victim (scan args (klp_entries w)))) sig)
    ++ (if sig =? 0 then []
        else
          notify_events args
            (NotifyKilling (pid (victim (scan args (klp_entries w))))
               (name (victim (scan args (klp_entries w)))))
          ++ notify_events args NotifyKillFailed
          ++ (if e =? EPERM then [EvSleep 1] else []))
  /\ kills_in (kill_largest_process args w sig)
     = kills_in (snd (kill_wait args (klp_kill_wait w)
                        (pid (victim (scan args (klp_entries w)))) sig)).
Proof.
  intros Hpos Hself Hres.
  assert (H : kill_largest_process args w sig
              = snd (kill_wait args (klp_kill_wait w)
                       (pid (victim (scan args (klp_entries w)))) sig)
                ++ (if sig =? 0 then []
                    else
                      notify_events args
                        (NotifyKilling (pid (victim (scan args (klp_entries w))))
                           (name (victim (scan args (klp_entries w)))))
                      ++ notify_events args NotifyKillFailed
                      ++ (if e =? EPERM then [EvSleep 1] else []))).
  { unfold kill_largest_process. cbv zeta. rewrite Hself.
    destruct (Z.leb_spec (pid (victim (scan args (klp_entries w)))) 0); [lia |].
    destruct (kill_wait args (klp_kill_wait w)
                (pid (victim (scan args (klp_entries w)))) sig) as [res sent].
    cbn [fst snd] in *. subst res.
    destruct (sig =? 0); cbn [negb]; [rewrite !app_nil_r; reflexivity | reflexivity]. }
  split; [exact H |].
  rewrite H, kills_in_app.
  destruct (sig =? 0); [apply app_nil_r |].
  rewrite !kills_in_app, !kills_in_notify.
  destruct (e =? EPERM); apply app_nil_r.
Qed.

(** A first [kill] refused with [EPERM]: with SIGTERM the routine sleeps one
    second; as the start-up probe (signal 0) it does nothing more. *)
Lemma kill_largest_process_kill_fails_witness :
  kill_largest_process default_args
    {| klp_entries := [process "42" "doveadm" 100 0 5000]; klp_getpid := 4242;
       klp_kill_wait := {| kw_kill0 := Some EPERM; kw_kill1 := None;
                           kw_meminfo := fun _ => meminfo_at 4 3;
                           kw_alive := fun _ => true |} |} SIGTERM
  = [EvKill 42 SIGTERM; EvSleep 1]
  /\ kill_largest_process default_args
       {| klp_entries := [process "42" "doveadm" 100 0 5000]; klp_getpid := 4242;
          klp_kill_wait := {| kw_kill0 := Some EPERM; kw_kill1 := None;
                              kw_meminfo := fun _ => meminfo_at 4 3;
                              kw_alive := fun _ => true |} |} 0
     = [EvKill 42 0].
Proof.
  split.
  - rewrite (proj1 (kill_largest_process_kill_fails default_args
                      {| klp_entries := [process "42" "doveadm" 100 0 5000];
                         klp_getpid := 4242;
                         klp_kill_wait := {| kw_kill0 := Some EPERM; kw_kill1 := None;
                                             kw_meminfo := fun _ => meminfo_at 4 3;
                                             kw_alive := fun _ => true |} |} SIGTERM EPERM
                      eq_refl eq_refl eq_refl)).
    reflexivity.
  - rewrite (proj1 (kill_largest_process_kill_fails default_args
                      {| klp_entries := [process "42" "doveadm" 100 0 5000];
                         klp_getpid := 4242;
                         klp_kill_wait := {| kw_kill0 := Some EPERM; kw_kill1 := None;
                                             kw_meminfo := fun _ => meminfo_at 4 3;
                                             kw_alive := fun _ => true |} |} 0 EPERM
                      eq_refl eq_refl eq_refl)).
    reflexivity.
Defined.

(** ** The loop as a whole *)

Lemma setpoint_invariant_iter (args : poll_loop_args_t) (w : iter_world) (st : loop_state) :
  loop_invariant st -> setpoint_invariant st ->
  setpoint_invariant (fst (poll_loop_iter args w st)).
Proof.
  intros [Hf Hh] Hsp. unfold setpoint_invariant in *.
  unfold poll_loop_iter, decide. cbv zeta. rewrite Hf.
  repeat break_if; cbn [fst hystis current_setpoint d_sig d_hystis d_setpoint
                          d_emergency_invoked negb] in *;
    unfold SIGKILL, SIGTERM in *; try discriminate; try reflexivity;
    try (intros E; exfalso; destruct Hh as [Hh | [Hh | Hh]];
         rewrite Hh in *; discriminate);
    auto.
Qed.

Lemma reachable_setpoint (args : poll_loop_args_t) (st : loop_state) :
  reachable args st -> setpoint_invariant st.
Proof.
  induction 1 as [g | st w Hr IH].
  - intros _. reflexivity.
  - apply setpoint_invariant_iter; [exact (reachable_invariant args st Hr) | exact IH].
Qed.

Lemma decide_status (args : poll_loop_args_t) (st : loop_state) (m : meminfo_t) :
  loop_invariant st -> setpoint_invariant st ->
  status_code (d_sig (decide args st m)) (d_emergency_invoked (decide args st m))
    (d_high (decide args st m))
  = fst (spec_status args (spec_action args st m))
  /\ d_setpoint (decide args st m) = snd (spec_status args (spec_action args st m)).
Proof.
  intros Hr Hsp.
  pose proof (hystis_set_gt st Hr) as Hg. destruct Hr as [Hf Hh].
  unfold setpoint_invariant in Hsp.
  unfold spec_action, first_match, decide, at_or_below, status_code.
  rewrite Hg, Hf.
  destruct (is_set (emerg_kill args)); destruct (emergency_timeout_ms st <=? 0);
    destruct (dle (MemAvailablePercent m) (mem_emerg_percent args));
    destruct (dle (SwapFreePercent m) (swap_kill_percent args));
    destruct (dle (MemAvailablePercent m) (mem_kill_percent args));
    destruct (dle (MemAvailablePercent m) (mem_term_percent args));
    destruct (dle (SwapFreePercent m) (swap_term_percent args));
    destruct (dle (MemAvailablePercent m) (mem_high_percent args));
    cbn [andb orb negb d_sig d_emergency_invoked d_high d_hystis d_setpoint];
    try (cbn; split; reflexivity);
    destruct Hh as [Hh | [Hh | Hh]]; rewrite Hh; cbn;
    repeat break_if; cbn; split; first [reflexivity | auto].
Qed.

Lemma poll_loop_iter_events (args : poll_loop_args_t) (st : loop_state) (w : iter_world) :
  it_events (snd (poll_loop_iter args w st))
  = update_status (w_status_open w) (d_sig (decide args st (w_meminfo w)))
      (d_emergency_invoked (decide args st (w_meminfo w)))
      (d_high (decide args st (w_meminfo w)))
      (MemAvailablePercent (w_meminfo w)) (d_setpoint (decide args st (w_meminfo w)))
    ++ kill_events args w (snd (poll_loop_iter args w st))
  /\ current_setpoint (fst (poll_loop_iter args w st))
     = d_setpoint (decide args st (w_meminfo w)).
Proof.
  unfold kill_events, poll_loop_iter. cbv zeta.
  destruct (d_sig (decide args st (w_meminfo w)) =? 0) eqn:Es; cbn [negb].
  - destruct (negb (report_interval_ms args =? 0) && (report_countdown_ms st <=? 0));
      cbn [fst snd it_events it_emergency it_sig current_setpoint]; rewrite Es;
      split; reflexivity.
  - destruct (d_emergency_invoked (decide args st (w_meminfo w)));
      cbn [fst snd it_events it_emergency it_sig current_setpoint]; rewrite ?Es;
      split; reflexivity.
Qed.

Lemma poll_loop_iter_closed (args : poll_loop_args_t) (st : loop_state) (w : iter_world) :
  fst (poll_loop_iter args (status_closed w) st) = fst (poll_loop_iter args w st)
  /\ it_usleep (snd (poll_loop_iter args (status_closed w) st))
     = it_usleep (snd (poll_loop_iter args w st))
  /\ kill_events args (status_closed w) (snd (poll_loop_iter args (status_closed w) st))
     = kill_events args w (snd (poll_loop_iter args w st)).
Proof.
  unfold kill_events, poll_loop_iter. cbv zeta.
  cbn [w_meminfo w_largest w_emergency status_closed].
  destruct (negb (d_sig (decide args st (w_meminfo w)) =? 0)).
  - destruct (d_emergency_invoked (decide args st (w_meminfo w)));
      repeat split; reflexivity.
  - destruct (negb (report_interval_ms args =? 0) && (report_countdown_ms st <=? 0));
      repeat split; reflexivity.
Qed.

(** X10.  In every iteration (any reachable state, any snapshot) the events
    are the status update followed by those of the kill routine called, if
    any.  When the status file opens, the update is the first thing done
    after deciding and carries the word of the action taken ("emergency",
    "kill", "term", "high" while the hysteresis keeps killing, "ok"
    otherwise), the snapshot's [MemAvailablePercent], and as set-point the
    threshold that was crossed (0 with "ok").  When the file does not open,
    nothing is written and the iteration goes on as it would have: the same
    kill routine with the same events, the same sleep, the same next state. *)
Theorem poll_loop_iter_status (args : poll_loop_args_t) (st : loop_state) (w : iter_world) :
  reachable args st ->
  it_events (snd (poll_loop_iter args w st))
  = (if w_status_open w then [status_event args st (w_meminfo w)] else [])
    ++ kill_events args w (snd (poll_loop_iter args w st))
  /\ (w_status_open w = true ->
      hd_error (it_events (snd (poll_loop_iter args w st)))
      = Some (status_event args st (w_meminfo w)))
  /\ current_setpoint (fst (poll_loop_iter args w st))
     = snd (spec_status args (spec_action args st (w_meminfo w)))
  /\ fst (poll_loop_iter args (status_closed w) st) = fst (poll_loop_iter args w st)
  /\ it_events (snd (poll_loop_iter args (status_closed w) st))
     = kill_events args w (snd (poll_loop_iter args w st))
  /\ it_usleep (snd (poll_loop_iter args (status_closed w) st))
     = it_usleep (snd (poll_loop_iter args w st)).
Proof.
  intros Hr. pose proof (reachable_setpoint args st Hr) as Hsp.
  apply reachable_invariant in Hr.
  destruct (decide_status args st (w_meminfo w) Hr Hsp) as [Hcode Hset].
  destruct (poll_loop_iter_events args st w) as [Hev Hcur].
  assert (Hfirst : it_events (snd (poll_loop_iter args w st))
                   = (if w_status_open w then [status_event args st (w_meminfo w)] else [])
                     ++ kill_events args w (snd (poll_loop_iter args w st))).
  { rewrite Hev. unfold update_status, status_event. rewrite Hcode, Hset. reflexivity. }
  split; [exact Hfirst |]. split.
  { intros Ho. rewrite Hfirst, Ho. reflexivity. }
  split; [rewrite Hcur; exact Hset |].
  destruct (poll_loop_iter_events args st (status_closed w)) as [Hev' _].
  destruct (poll_loop_iter_closed args st w) as (Hst & Hsl & Hk).
  split; [exact Hst |]. split; [| exact Hsl].
  rewrite Hev', Hk. reflexivity.
Qed.

(** A calm host whose status directory does not exist: the first iteration
    writes nothing; with the directory it writes "ok". *)
Lemma poll_loop_iter_status_witness :
  it_events (snd (poll_loop_iter default_args calm (loop_init 0)))
  = [EvStatus "ok" 60 0]
  /\ it_events (snd (poll_loop_iter default_args (status_closed calm) (loop_init 0))) = [].
Proof.
  destruct (poll_loop_iter_status default_args (loop_init 0) calm
              (reachable_init default_args 0)) as (H1 & _ & _ & _ & H2 & _).
  split.
  - rewrite H1. vm_compute. reflexivity.
  - rewrite H2. vm_compute. reflexivity.
Defined.

(** Scenario 4 of the specification: after a SIGKILL, memory at 12 % with a
    high watermark of 15 % keeps the loop killing, with status "high" and
    set-point 15. *)
Example status_high :
  hd_error
    (it_events
       (snd (poll_loop_iter default_args (world_of [] (meminfo_at 12 50))
               (fst (poll_loop_iter default_args (world_of [] (meminfo_at 4 3))
                       (loop_init 0))))))
  = Some (EvStatus "high" 12 15).
Proof. vm_compute. reflexivity. Qed.

Lemma poll_loop_iter_sleep (args : poll_loop_args_t) (w : iter_world) (st : loop_state) :
  report_interval_ms args <> 0 ->
  report_countdown_ms st <= 0 \/ sleep_assigned st ->
  sleep_assigned (fst (poll_loop_iter args w st))
  /\ it_usleep (snd (poll_loop_iter args w st))
     = 1000 * sleep_ms (fst (poll_loop_iter args w st)).
Proof.
  intros Hrep Hpre. pose proof (sleep_time_ms_bounds args (w_meminfo w)) as Hb.
  unfold sleep_assigned in *. unfold poll_loop_iter. cbv zeta.
  apply Z.eqb_neq in Hrep. rewrite Hrep. cbn [negb andb].
  assert (Hu : forall s, 50 <= s <= 2000 -> to_uint (s * 1000) = 1000 * s).
  { intros s Hs. rewrite to_uint_small by (simpl; lia). ring. }
  destruct (negb (d_sig (decide args st (w_meminfo w)) =? 0)).
  - destruct (d_emergency_invoked (decide args st (w_meminfo w)));
      cbn [fst snd sleep_ms it_usleep].
    + split; [lia | reflexivity].
    + destruct (d_hystis (decide args st (w_meminfo w)) =? SIGKILL);
        split; first [lia | reflexivity].
  - destruct (Z.leb_spec (report_countdown_ms st) 0) as [Hle | Hgt];
      cbn [fst snd sleep_ms it_usleep].
    + split; [lia | apply Hu; lia].
    + destruct Hpre as [Hc | Hs]; [lia |]. split; [exact Hs | apply Hu; exact Hs].
Qed.

(** X11.  With periodic reporting enabled ([report_interval_ms] not 0) the
    loop never sleeps an unassigned or out-of-range time: from the entry of
    the loop on, whatever the uninitialised [sleep_ms] held and whatever is
    observed, every iteration sleeps between 50 ms and 2000 ms. *)
Theorem poll_loop_sleep_bounds (args : poll_loop_args_t) (indeterminate : Z)
  (ws : list iter_world) :
  report_interval_ms args <> 0 ->
  Forall (fun r => 50 * 1000 <= it_usleep r <= 2000 * 1000)
    (snd (poll_loop args ws (loop_init indeterminate))).
Proof.
  intros Hrep.
  assert (H : forall st, report_countdown_ms st <= 0 \/ sleep_assigned st ->
                         Forall (fun r => 50 * 1000 <= it_usleep r <= 2000 * 1000)
                           (snd (poll_loop args ws st))).
  { induction ws as [| w ws IH]; intros st Hpre; [constructor |].
    cbn [poll_loop].
    pose proof (poll_loop_iter_sleep args w st Hrep Hpre) as [Hs Hu].
    destruct (poll_loop_iter args w st) as [st1 r]. cbn [fst snd] in *.
    specialize (IH st1 (or_intror Hs)).
    destruct (poll_loop args ws st1) as [st2 rs]. cbn [snd] in *.
    constructor; [| exact IH]. unfold sleep_assigned in Hs. lia. }
  apply H. left. cbn. lia.
Qed.

Lemma poll_loop_sleep_bounds_witness :
  Forall (fun r => 50 * 1000 <= it_usleep r <= 2000 * 1000)
    (snd (poll_loop default_args [calm; world_of [] (meminfo_at 4 3); calm]
            (loop_init 123456789))).
Proof.
  apply (poll_loop_sleep_bounds default_args 123456789
           [calm; world_of [] (meminfo_at 4 3); calm]).
  vm_compute. discriminate.
Defined.

Lemma decide_hysteresis (args : poll_loop_args_t) (st : loop_state) (m : meminfo_t) :
  hystis st = SIGTERM \/ hystis st = SIGKILL ->
  dle (MemAvailablePercent m) (mem_high_percent args) = true ->
  d_sig (decide args st m) = SIGTERM \/ d_sig (decide args st m) = SIGKILL.
Proof.
  intros Hh Hm. unfold decide. rewrite Hm.
  repeat break_if; cbn [d_sig]; auto.
  destruct Hh as [Hh | Hh]; rewrite Hh in *; discriminate.
Qed.

Lemma poll_loop_iter_sig (args : poll_loop_args_t) (w : iter_world) (st : loop_state) :
  it_sig (snd (poll_loop_iter args w st)) = d_sig (decide args st (w_meminfo w))
  /\ (d_sig (decide args st (w_meminfo w)) <> 0 ->
      hystis (fst (poll_loop_iter args w st)) = d_sig (decide args st (w_meminfo w))).
Proof.
  unfold poll_loop_iter. cbv zeta.
  destruct (Z.eqb_spec (d_sig (decide args st (w_meminfo w))) 0) as [E | E]; cbn [negb].
  - break_if; cbn; split; [reflexivity | contradiction | reflexivity | contradiction].
  - break_if; cbn; split; reflexivity.
Qed.

(** X12.  Hysteresis: once a signal has been sent, the loop chooses a signal
    (SIGTERM or SIGKILL) in every following iteration for as long as every
    snapshot shows [MemAvailablePercent <= mem_high_percent], whatever the
    other thresholds and the swap readings are. *)
Theorem hysteresis_keeps_killing (args : poll_loop_args_t) (st : loop_state)
  (ws : list iter_world) :
  hystis st = SIGTERM \/ hystis st = SIGKILL ->
  Forall (below_high args) ws ->
  Forall (fun r => it_sig r = SIGTERM \/ it_sig r = SIGKILL) (snd (poll_loop args ws st)).
Proof.
  intros Hh Hws. revert st Hh. induction Hws as [| w ws Hw _ IH]; intros st Hh.
  - constructor.
  - cbn [poll_loop].
    pose proof (decide_hysteresis args st (w_meminfo w) Hh Hw) as Hd.
    pose proof (poll_loop_iter_sig args w st) as [Hs Hn].
    destruct (poll_loop_iter args w st) as [st1 r]. cbn [fst snd] in *.
    assert (Hh1 : hystis st1 = SIGTERM \/ hystis st1 = SIGKILL).
    { rewrite Hn; [exact Hd |]. destruct Hd as [Hd | Hd]; rewrite Hd; discriminate. }
    specialize (IH st1 Hh1).
    destruct (poll_loop args ws st1) as [st2 rs]. cbn [snd] in *.
    constructor; [rewrite Hs; exact Hd | exact IH].
Qed.

Lemma hysteresis_keeps_killing_witness :
  Forall (fun r => it_sig r = SIGTERM \/ it_sig r = SIGKILL)
    (snd (poll_loop default_args
            [world_of [] (meminfo_at 12 50); world_of [] (meminfo_at 14 90)]
            (fst (poll_loop_iter default_args (world_of [] (meminfo_at 8 5))
                    (loop_init 0))))).
Proof.
  apply (hysteresis_keeps_killing default_args
           (fst (poll_loop_iter default_args (world_of [] (meminfo_at 8 5)) (loop_init 0)))
           [world_of [] (meminfo_at 12 50); world_of [] (meminfo_at 14 90)]).
  - left. reflexivity.
  - repeat constructor.
Defined.

Lemma kills_in_status (opened : bool) (sig : Z) (emergency high : bool)
  (memavail setpoint : float) :
  kills_in (update_status opened sig emergency high memavail setpoint) = [].
Proof. destruct opened; reflexivity. Qed.

Lemma decide_no_list (args : poll_loop_args_t) (st : loop_state) (m : meminfo_t) :
  emerg_kill args = None ->
  d_emergency_invoked (decide args st m) = emergency_invoked st.
Proof.
  intros He. unfold decide. rewrite He. cbn [is_set andb].
  repeat break_if; reflexivity.
Qed.

Lemma kill_wait_dryrun_kills (args : poll_loop_args_t) (w : kw_world) (pid sig : Z) :
  dryrun args = true -> sig <> 0 -> snd (kill_wait args w pid sig) = [].
Proof.
  intros Hd Hs. unfold kill_wait. rewrite Hd.
  apply Z.eqb_neq in Hs. rewrite Hs. reflexivity.
Qed.

Lemma poll_loop_iter_dryrun (args : poll_loop_args_t) (w : iter_world) (st : loop_state) :
  dryrun args = true ->
  emerg_kill args = None ->
  emergency_invoked st = false ->
  emergency_invoked (fst (poll_loop_iter args w st)) = false
  /\ kills_in (iter_trace (snd (poll_loop_iter args w st))) = [].
Proof.
  intros Hd He Hf. pose proof (decide_no_list args st (w_meminfo w) He) as Hflag.
  rewrite Hf in Hflag. unfold iter_trace, poll_loop_iter. cbv zeta. rewrite Hflag.
  destruct (Z.eqb_spec (d_sig (decide args st (w_meminfo w))) 0) as [E | E]; cbn [negb].
  - break_if; cbn [fst snd emergency_invoked it_events it_usleep];
      rewrite !kills_in_app, kills_in_status; split; reflexivity.
  - cbn [fst snd emergency_invoked it_events it_usleep]. split; [reflexivity |].
    rewrite !kills_in_app, kills_in_status. cbn [kills_in app].
    rewrite app_nil_r.
    destruct (kill_largest_process_kills args (w_largest w)
                (d_sig (decide args st (w_meminfo w)))) as [H | [_ H]];
      [exact H |].
    rewrite H, (kill_wait_dryrun_kills _ _ _ _ Hd E). reflexivity.
Qed.

(** X13.  Dry run without an emergency list: in every run of the loop, from
    any state with the emergency flag down and under any observations, no
    [kill] call is made at all, so no signal is ever delivered. *)
Theorem poll_loop_dryrun_silent (args : poll_loop_args_t) (st : loop_state)
  (ws : list iter_world) :
  dryrun args = true ->
  emerg_kill args = None ->
  emergency_invoked st = false ->
  Forall (fun r => kills_in (iter_trace r) = []
                   /\ filter delivers_signal (iter_trace r) = [])
    (snd (poll_loop args ws st)).
Proof.
  intros Hd He. revert st. induction ws as [| w ws IH]; intros st Hf; [constructor |].
  cbn [poll_loop].
  pose proof (poll_loop_iter_dryrun args w st Hd He Hf) as [Hf1 Hk].
  destruct (poll_loop_iter args w st) as [st1 r]. cbn [fst snd] in *.
  specialize (IH st1 Hf1).
  destruct (poll_loop args ws st1) as [st2 rs]. cbn [snd] in *.
  constructor; [| exact IH]. split; [exact Hk | apply kills_in_delivers; exact Hk].
Qed.

(** [--dryrun] with the defaults of [main]. *)
Lemma poll_loop_dryrun_silent_witness :
  Forall (fun r => kills_in (iter_trace r) = []
                   /\ filter delivers_signal (iter_trace r) = [])
    (snd (poll_loop (emerg_args_without_list true) [crisis; calm; crisis] (loop_init 0))).
Proof.
  apply (poll_loop_dryrun_silent (emerg_args_without_list true) (loop_init 0)
           [crisis; calm; crisis]); reflexivity.
Defined.

Lemma kills_in_shape (tr : list event) :
  Forall (fun e => exists p, e = EvKill p SIGKILL /\ 1 < p) tr ->
  Forall (fun k => 1 < fst k /\ (snd k = SIGTERM \/ snd k = SIGKILL)) (kills_in tr).
Proof.
  induction 1 as [| e tr (p & -> & Hp) _ IH]; [constructor |].
  cbn [kills_in]. constructor; [cbn; auto | exact IH].
Qed.

Lemma kill_emergency_safe (args : poll_loop_args_t) (w : emerg_world) :
  Forall (fun k => 1 < fst k /\ (snd k = SIGTERM \/ snd k = SIGKILL))
    (kills_in (snd (kill_emergency args w))).
Proof.
  unfold kill_emergency. destruct (emerg_kill args) as [str |]; [| constructor].
  pose proof (emergency_loop_spec args w (victim_list (strtok_all "," str "")) 0 0) as H.
  cbv zeta in H. destruct H as [H _]. rewrite H.
  apply kills_in_shape.
  apply (emergency_kills_shape args w (victim_list (strtok_all "," str ""))).
Qed.

Lemma kill_largest_process_safe (args : poll_loop_args_t) (w : klp_world) (sig : Z) :
  sig = SIGTERM \/ sig = SIGKILL ->
  Forall (fun k => 1 < fst k /\ (snd k = SIGTERM \/ snd k = SIGKILL))
    (kills_in (kill_largest_process args w sig)).
Proof.
  intros Hs.
  destruct (kill_largest_process_kills args w sig) as [H | [Hpos H]];
    rewrite H; [constructor |].
  destruct (scan_victim_origin args (klp_entries w))
    as [Hz | (d & cur & _ & _ & _ & _ & Hgt)].
  { rewrite Hz in Hpos. cbn in Hpos. lia. }
  pose proof (kill_wait_kills args (klp_kill_wait w)
                (pid (victim (scan args (klp_entries w)))) sig) as [_ Hf].
  apply Forall_impl with (2 := Hf). intros k [Hp Hk]. rewrite Hp.
  split; [exact Hgt |]. destruct Hk as [-> | ->]; auto.
Qed.

(** X14.  In every iteration of the loop (any reachable state, any
    observations) every [kill] call goes to a pid above 1 and carries SIGTERM
    or SIGKILL: the loop never signals init, pid 0 or a negative pid (a
    process group), and never sends any other signal. *)
Theorem poll_loop_iter_signals (args : poll_loop_args_t) (st : loop_state) (w : iter_world) :
  reachable args st ->
  Forall (fun k => 1 < fst k /\ (snd k = SIGTERM \/ snd k = SIGKILL))
    (kills_in (iter_trace (snd (poll_loop_iter args w st)))).
Proof.
  intros Hr. apply reachable_invariant in Hr.
  pose proof (decide_sig args st (w_meminfo w) Hr) as [Hs _].
  unfold iter_trace, poll_loop_iter. cbv zeta.
  destruct (Z.eqb_spec (d_sig (decide args st (w_meminfo w))) 0) as [E | E]; cbn [negb].
  - break_if; cbn [snd it_events it_usleep];
      rewrite !kills_in_app, kills_in_status; cbn [kills_in app]; constructor.
  - destruct Hs as [Hs | Hs]; [contradiction |].
    destruct (d_emergency_invoked (decide args st (w_meminfo w)));
      cbn [snd it_events it_usleep];
      rewrite !kills_in_app, kills_in_status; cbn [kills_in app]; rewrite app_nil_r.
    + apply kill_emergency_safe.
    + apply kill_largest_process_safe. exact Hs.
Qed.

Lemma poll_loop_iter_signals_witness :
  Forall (fun k => 1 < fst k /\ (snd k = SIGTERM \/ snd k = SIGKILL))
    (kills_in (iter_trace (snd (poll_loop_iter (emerg_args false) crisis (loop_init 0))))).
Proof.
  exact (poll_loop_iter_signals (emerg_args false) (loop_init 0) crisis
           (reachable_init (emerg_args false) 0)).
Defined.

(** ** The emergency list as tokens *)

Lemma string_length_zero (s : string) : (String.length s =? 0)%nat = true -> s = EmptyString.
Proof. destruct s; [reflexivity | discriminate]. Qed.

Lemma string_length_pos (s : string) :
  (String.length s =? 0)%nat = false -> s <> EmptyString.
Proof. destruct s; [discriminate | discriminate]. Qed.

Lemma string_app_assoc (a b c : string) : ((a ++ b) ++ c = a ++ (b ++ c))%string.
Proof. induction a as [| x a IH]; [reflexivity |]. cbn. rewrite IH. reflexivity. Qed.

Lemma string_app_empty (a : string) : (a ++ "")%string = a.
Proof. induction a as [| x a IH]; [reflexivity |]. cbn. rewrite IH. reflexivity. Qed.

Lemma has_char_app (c : ascii) (a b : string) :
  has_char c (a ++ b) = has_char c a || has_char c b.
Proof.
  induction a as [| x a IH]; [reflexivity |]. cbn. rewrite IH. apply orb_assoc.
Qed.

Lemma strtok_all_spec (delim : ascii) (str tok : string) :
  has_char delim tok = false ->
  Forall (fun t => t <> EmptyString /\ has_char delim t = false) (strtok_all delim str tok)
  /\ concat_strings (strtok_all delim str tok) = (tok ++ without_char delim str)%string.
Proof.
  revert tok. induction str as [| c str IH]; intros tok Htok.
  - cbn [strtok_all without_char]. rewrite string_app_empty.
    destruct (String.length tok =? 0)%nat eqn:E.
    + apply string_length_zero in E. subst tok. split; [constructor | reflexivity].
    + apply string_length_pos in E. split; [repeat constructor; assumption |].
      cbn. apply string_app_empty.
  - cbn [strtok_all without_char]. destruct (Ascii.eqb c delim) eqn:Ec.
    + destruct (String.length tok =? 0)%nat eqn:E.
      * apply string_length_zero in E. subst tok. apply IH. reflexivity.
      * apply string_length_pos in E. destruct (IH EmptyString eq_refl) as [IH1 IH2].
        split; [constructor; [split; assumption | exact IH1] |].
        cbn [concat_strings]. rewrite IH2. reflexivity.
    + assert (Hn : has_char delim (tok ++ String c "") = false).
      { rewrite has_char_app, Htok. cbn. rewrite Ec. reflexivity. }
      destruct (IH _ Hn) as [IH1 IH2]. split; [exact IH1 |].
      rewrite IH2, string_app_assoc. reflexivity.
Qed.

Lemma strtok_all_single (delim : ascii) (str tok : string) :
  has_char delim str = false ->
  strtok_all delim str tok
  = if (String.length (tok ++ str) =? 0)%nat then [] else [(tok ++ str)%string].
Proof.
  revert tok. induction str as [| c str IH]; intros tok H.
  - cbn [strtok_all]. rewrite string_app_empty. reflexivity.
  - cbn [has_char] in H. apply orb_false_iff in H. destruct H as [Hc Hs].
    cbn [strtok_all]. rewrite Hc, (IH _ Hs), string_app_assoc. reflexivity.
Qed.

(** X15.  Splitting the emergency list at commas loses nothing and invents
    nothing: every name obtained is non-empty and free of commas, empty
    fields (leading, trailing or doubled commas) are dropped, the names put
    end to end are the list with its commas removed, and a list without a
    comma is one name (or none, if it is empty). *)
Theorem strtok_all_names (str : string) :
  Forall (fun t => t <> EmptyString /\ has_char "," t = false) (strtok_all "," str "")
  /\ concat_strings (strtok_all "," str "") = without_char "," str
  /\ (has_char "," str = false ->
      strtok_all "," str "" = if (String.length str =? 0)%nat then [] else [str]).
Proof.
  destruct (strtok_all_spec "," str "" eq_refl) as [H1 H2].
  split; [exact H1 |]. split; [exact H2 |].
  intros H. apply (strtok_all_single "," str "" H).
Qed.

Lemma strtok_all_names_witness :
  strtok_all "," "php-cgi" "" = ["php-cgi"%string].
Proof.
  apply (proj2 (proj2 (strtok_all_names "php-cgi"))). reflexivity.
Defined.

(** ** [min] and the merge of the command-line limits *)

Lemma SFcompare_antisym (a b : spec_float) :
  SFcompare b a = option_map CompOpp (SFcompare a b).
Proof.
  destruct a as [sa | sa | | sa ma ea], b as [sb | sb | | sb mb eb];
    try reflexivity;
    try (destruct sa; reflexivity); try (destruct sb; reflexivity);
    try (destruct sa, sb; reflexivity).
  cbn [SFcompare option_map]. f_equal.
  pose proof (Pos.compare_cont_antisym ma mb Eq) as H. cbn [CompOpp] in H.
  destruct sa, sb; try reflexivity;
    rewrite (Z.compare_antisym ea eb);
    destruct (ea ?= eb)%Z; cbn [CompOpp]; try reflexivity.
  - f_equal. symmetry. exact H.
  - symmetry. exact H.
Qed.

Lemma SFcompare_defined (a b : spec_float) :
  SFcompare a a = Some Eq -> SFcompare b b = Some Eq -> SFcompare a b <> None.
Proof.
  destruct a, b; cbn [SFcompare]; intros Ha Hb; try discriminate.
Qed.

Lemma min_lower (x y : float) :
  not_nan x -> not_nan y ->
  dle (min x y) x = true /\ dle (min x y) y = true.
Proof.
  unfold not_nan, min, dle. rewrite !eqb_spec, ltb_spec. intros Hx Hy.
  unfold SFeqb, SFltb in *.
  destruct (SFcompare (Prim2SF x) (Prim2SF x)) as [[| |] |] eqn:Exx; try discriminate.
  destruct (SFcompare (Prim2SF y) (Prim2SF y)) as [[| |] |] eqn:Eyy; try discriminate.
  pose proof (SFcompare_defined _ _ Exx Eyy) as Hd.
  pose proof (SFcompare_antisym (Prim2SF x) (Prim2SF y)) as Ha.
  destruct (SFcompare (Prim2SF x) (Prim2SF y)) as [[| |] |] eqn:Exy;
    try contradiction; rewrite !leb_spec; unfold SFleb;
    rewrite ?Exx, ?Eyy, ?Exy, ?Ha; cbn; split; reflexivity.
Qed.

(** X16.  When both [-m] and [-M] are given (and none of the percentages
    is a NaN), the SIGTERM and SIGKILL memory limits that result are at or
    below both the percentage of [-m] and the percentage that the size of
    [-M] amounts to, and nothing else of the configuration changes; likewise
    for [-s] and [-S]. *)
Theorem merge_uses_the_lower (args : poll_loop_args_t)
  (mem_term_kib mem_kill_kib swap_term_kib swap_kill_kib : float) (m : meminfo_t) :
  not_nan (mem_term_percent args) -> not_nan (mem_kill_percent args) ->
  not_nan (swap_term_percent args) -> not_nan (swap_kill_percent args) ->
  not_nan (percent_of mem_term_kib (MemTotalKiB m)) ->
  not_nan (percent_of mem_kill_kib (MemTotalKiB m)) ->
  not_nan (percent_of swap_term_kib (SwapTotalKiB m)) ->
  not_nan (percent_of swap_kill_kib (SwapTotalKiB m)) ->
  (dle (mem_term_percent (merge_mem args true true mem_term_kib mem_kill_kib m))
     (mem_term_percent args) = true
   /\ dle (mem_term_percent (merge_mem args true true mem_term_kib mem_kill_kib m))
        (percent_of mem_term_kib (MemTotalKiB m)) = true
   /\ dle (mem_kill_percent (merge_mem args true true mem_term_kib mem_kill_kib m))
        (mem_kill_percent args) = true
   /\ dle (mem_kill_percent (merge_mem args true true mem_term_kib mem_kill_kib m))
        (percent_of mem_kill_kib (MemTotalKiB m)) = true
   /\ merge_mem args true true mem_term_kib mem_kill_kib m
      = set_mem_limits args
          (mem_term_percent (merge_mem args true true mem_term_kib mem_kill_kib m))
          (mem_kill_percent (merge_mem args true true mem_term_kib mem_kill_kib m)))
  /\ (dle (swap_term_percent (merge_swap args true true swap_term_kib swap_kill_kib m))
        (swap_term_percent args) = true
      /\ dle (swap_term_percent (merge_swap args true true swap_term_kib swap_kill_kib m))
           (percent_of swap_term_kib (SwapTotalKiB m)) = true
      /\ dle (swap_kill_percent (merge_swap args true true swap_term_kib swap_kill_kib m))
           (swap_kill_percent args) = true
      /\ dle (swap_kill_percent (merge_swap args true true swap_term_kib swap_kill_kib m))
           (percent_of swap_kill_kib (SwapTotalKiB m)) = true
      /\ merge_swap args true true swap_term_kib swap_kill_kib m
         = set_swap_limits args
             (swap_term_percent (merge_swap args true true swap_term_kib swap_kill_kib m))
             (swap_kill_percent (merge_swap args true true swap_term_kib swap_kill_kib m))).
Proof.
  intros H1 H2 H3 H4 H5 H6 H7 H8.
  unfold merge_mem, merge_swap. cbv zeta. cbv iota.
  cbn [mem_term_percent mem_kill_percent swap_term_percent swap_kill_percent
         set_mem_limits set_swap_limits].
  destruct (min_lower _ _ H1 H5) as [A1 A2]. destruct (min_lower _ _ H2 H6) as [A3 A4].
  destruct (min_lower _ _ H3 H7) as [B1 B2]. destruct (min_lower _ _ H4 H8) as [B3 B4].
  repeat split; assumption.
Qed.

(** [-m 10,5 -M 1000000,500000 -s 10,5 -S 200000,100000] on a 16 GiB host. *)
Lemma merge_uses_the_lower_witness :
  dle (mem_term_percent (merge_mem default_args true true 1000000 500000 (meminfo_at 60 80)))
    (mem_term_percent default_args) = true.
Proof.
  apply (merge_uses_the_lower default_args 1000000 500000 200000 100000 (meminfo_at 60 80));
    reflexivity.
Defined.

(** ** config.c *)

Lemma string_length_app (a b : string) :
  String.length (a ++ b) = (String.length a + String.length b)%nat.
Proof. induction a as [| x a IH]; [reflexivity |]. cbn. rewrite IH. reflexivity. Qed.

Lemma split_at_char_none (c : ascii) (s : string) :
  has_char c s = false -> split_at_char c s = None.
Proof.
  induction s as [| x s IH]; [reflexivity |]. cbn. intros H.
  apply orb_false_iff in H. destruct H as [Hx Hs]. rewrite Hx, (IH Hs). reflexivity.
Qed.

Lemma split_at_char_app (c : ascii) (a b : string) :
  has_char c a = false -> split_at_char c (a ++ String c b) = Some (a, b).
Proof.
  induction a as [| x a IH]; cbn; intros H.
  - rewrite Ascii.eqb_refl. reflexivity.
  - apply orb_false_iff in H. destruct H as [Hx Ha]. rewrite Hx, (IH Ha). reflexivity.
Qed.

Lemma substring_chop (s : string) (c : ascii) :
  substring 0 (String.length s) (s ++ String c "") = s.
Proof. induction s as [| x s IH]; [reflexivity |]. cbn. rewrite IH. reflexivity. Qed.

Lemma comment_line_app (a b : string) :
  a <> EmptyString -> comment_line (a ++ b) = comment_line a.
Proof. destruct a; [congruence | reflexivity]. Qed.

Lemma read_line_fits (key value : string) (last : ascii) :
  fits key value -> read_line (setting_line key value last) = LineSetting key value.
Proof.
  intros (Heq & Hc & Hk & Hv). unfold read_line, setting_line.
  assert (Hlen : String.length (value ++ String last "") = S (String.length value)).
  { rewrite string_length_app. cbn. lia. }
  assert (Hline : (String.length (key ++ "=" ++ value ++ String last "") <? 2)%nat = false).
  { apply Nat.ltb_ge. rewrite string_length_app.
    change ("=" ++ value ++ String last "")%string
      with (String "=" (value ++ String last "")).
    cbn [String.length]. lia. }
  rewrite Hline.
  change ("=" ++ value ++ String last "")%string with (String "=" (value ++ String last "")).
  rewrite (split_at_char_app "=" key (value ++ String last "") Heq).
  assert (Hfirst : match (key ++ String "=" (value ++ String last ""))%string with
                   | EmptyString => false
                   | String c _ => Ascii.eqb c "#" || Ascii.eqb c ";"
                   end = false).
  { destruct key as [| k key]; [reflexivity | exact Hc]. }
  destruct (key ++ String "=" (value ++ String last ""))%string as [| c rest] eqn:E.
  - destruct key; discriminate E.
  - rewrite Hfirst, Hlen.
    replace (64 <=? String.length key)%nat with false by (symmetry; apply Nat.leb_gt; lia).
    replace (512 <=? S (String.length value))%nat with false
      by (symmetry; apply Nat.leb_gt; lia).
    cbn [orb Nat.eqb]. unfold strncpy.
    rewrite (substring_all key 64) by lia.
    replace (S (String.length value) - 1)%nat with (String.length value) by lia.
    rewrite substring_chop. reflexivity.
Qed.

Lemma apply_setting_unknown (lib : libc) (confdata : poll_loop_args_t)
  (key value : string) :
  ~ In key known_keys -> apply_setting lib confdata key value = ConfigLoaded confdata.
Proof.
  intros Hk. unfold apply_setting.
  repeat match goal with
         | |- context [String.eqb key ?lit] =>
             destruct (String.eqb_spec key lit) as [-> | _];
             [exfalso; apply Hk; cbn; tauto |]
         end.
  reflexivity.
Qed.

Lemma read_line_ignorable (line : string) :
  ignorable line ->
  read_line line = LineSkipped
  \/ exists key value, read_line line = LineSetting key value /\ ~ In key known_keys.
Proof.
  intros [l Hs | l Hc | l Hp | key value last Hf Hk].
  - left. unfold read_line. apply Nat.ltb_lt in Hs. rewrite Hs. reflexivity.
  - left. unfold read_line. destruct (String.length l <? 2)%nat; [reflexivity |].
    destruct l as [| c l]; [reflexivity |]. cbn in Hc. rewrite Hc. reflexivity.
  - left. unfold read_line. destruct (String.length l <? 2)%nat; [reflexivity |].
    destruct l as [| c l]; [reflexivity |].
    rewrite (split_at_char_none "=" (String c l) Hp).
    destruct (Ascii.eqb c "#" || Ascii.eqb c ";"); reflexivity.
  - right. exists key, value. split; [exact (read_line_fits key value last Hf) | exact Hk].
Qed.


Lemma keeps_switches_refl (a : poll_loop_args_t) : keeps_switches a a.
Proof. unfold keeps_switches. tauto. Qed.

Lemma keeps_switches_trans (a b c : poll_loop_args_t) :
  keeps_switches a b -> keeps_switches b c -> keeps_switches a c.
Proof.
  unfold keeps_switches. intros (A0 & A1 & A2 & A3 & A4 & A5) (B0 & B1 & B2 & B3 & B4 & B5).
  repeat split; [congruence | | | | |]; auto.
Qed.

Lemma apply_setting_keeps (lib : libc) (confdata confdata' : poll_loop_args_t)
  (key value : string) :
  apply_setting lib confdata key value = ConfigLoaded confdata' ->
  keeps_switches confdata confdata'.
Proof.
  unfold apply_setting, compile_regex.
  repeat match goal with
         | |- context [String.eqb key ?lit] => destruct (String.eqb key lit)
         end;
    try destruct (regcomp lib value);
    intros H; try discriminate H; injection H as <-;
    unfold keeps_switches; cbn; tauto.
Qed.





(** X18.  A file made only of lines shorter than two bytes, comments (first
    byte [#] or [;]), lines without [=] and settings of unknown keys loads
    and leaves the configuration exactly as it was; the empty file is one. *)
Theorem parse_config_ignores (lib : libc) (lines : list string)
  (confdata : poll_loop_args_t) :
  Forall ignorable lines ->
  parse_config lib (Some lines) confdata = ConfigLoaded confdata.
Proof.
  intros Hall. unfold parse_config.
  induction Hall as [| line rest Hline _ IH]; [reflexivity |].
  cbn [parse_lines].
  destruct (read_line_ignorable line Hline) as [-> | (key & value & -> & Hk)];
    [exact IH |].
  rewrite (apply_setting_unknown lib confdata key value Hk). exact IH.
Qed.

Lemma parse_config_ignores_witness :
  parse_config sample_libc
    (Some [("# limits" ++ String newline "")%string; String newline "";
           ("memory low 15" ++ String newline "")%string;
           setting_line "colour" "blue" newline])
    default_args
  = ConfigLoaded default_args.
Proof.
  apply (parse_config_ignores sample_libc).
  repeat apply Forall_cons; [| | | | apply Forall_nil].
  - apply ignorable_comment. reflexivity.
  - apply ignorable_short. cbn. lia.
  - apply ignorable_plain. reflexivity.
  - apply ignorable_unknown.
    + split; [reflexivity | split; [reflexivity | split; cbn; lia]].
    + cbn. intuition discriminate.
Defined.

(** X19.  Whatever a configuration file holds, loading it leaves the
    dry-run switch as it was, and a process-name, user or age expression or
    an emergency list that was set before is still set after. *)
Theorem parse_config_keeps_switches (lib : libc) (file : option (list string))
  (confdata confdata' : poll_loop_args_t) :
  parse_config lib file confdata = ConfigLoaded confdata' ->
  keeps_switches confdata confdata'.
Proof.
  destruct file as [lines |]; [| discriminate]. unfold parse_config.
  revert confdata. induction lines as [| line rest IH]; intros confdata H.
  - injection H as <-. apply keeps_switches_refl.
  - cbn [parse_lines] in H. destruct (read_line line) as [| k v |]; [exact (IH _ H) | | discriminate H].
    destruct (apply_setting lib confdata k v) as [c | |] eqn:E; try discriminate H.
    exact (keeps_switches_trans _ _ _ (apply_setting_keeps lib _ _ _ _ E) (IH _ H)).
Qed.

Lemma parse_config_keeps_switches_witness :
  keeps_switches (emerg_args true)
    (with_nice (with_mem_emerg_percent (emerg_args true) 2%float) true).
Proof.
  apply (parse_config_keeps_switches sample_libc
           (Some [setting_line "memory_emerg" "2" newline; setting_line "nice" "yes" newline])).
  reflexivity.
Defined.


